(** * JobAutomationBot: the outreach state machine and its safety gates

    A shallow embedding of the outreach logic of
    [job_automation_app.py], [recruiter_bot.py] and
    [autofill_from_jobright.py], with the properties the specification
    states about it.

    Modelling conventions.
    - A Python [str] is a [string]; a character is an [ascii] code point.
      The typographic apostrophe of the message templates is written as
      an ASCII apostrophe, one character for one character, so that
      lengths agree.  Case mapping and white space follow Python on the
      ASCII range.
    - A Python [int] is a [Z].
    - A sheet row is a record over the header that
      [append_recruiter_row] documents; every cell is text.
    - The browser is an oracle: for each call site of the driver, the
      answer the driver gives there, or [Raise] when the call raises.
    - Functions that drive the browser return the actions they performed
      together with their result. *)

From Stdlib Require Import ZArith String Ascii List Bool Lia.
From stdpp Require Import base tactics option list gmap strings sorting.

Open Scope string_scope.
Open Scope Z_scope.

(** ** Python strings *)

Module Py.

Definition isspace (c : ascii) : bool :=
  let n := nat_of_ascii c in
  (Nat.leb 9 n && Nat.leb n 13) || (Nat.leb 28 n && Nat.leb n 32).

Definition lower_char (c : ascii) : ascii :=
  let n := nat_of_ascii c in
  if Nat.leb 65 n && Nat.leb n 90 then ascii_of_nat (n + 32) else c.

Definition upper_char (c : ascii) : ascii :=
  let n := nat_of_ascii c in
  if Nat.leb 97 n && Nat.leb n 122 then ascii_of_nat (n - 32) else c.

Fixpoint map_chars (f : ascii -> ascii) (s : string) : string :=
  match s with
  | EmptyString => EmptyString
  | String c r => String (f c) (map_chars f r)
  end.

(** [s.lower()] and [s.upper()] on ASCII text: the letters A to Z and a
    to z are mapped and every other character is left as it is.  Python
    also maps letters outside ASCII; where a property depends on the case
    mapping of such letters it is stated for ASCII text. *)
Definition lower : string -> string := map_chars lower_char.
Definition upper : string -> string := map_chars upper_char.

(** [s.lstrip()] *)
Fixpoint lstrip (s : string) : string :=
  match s with
  | EmptyString => EmptyString
  | String c r => if isspace c then lstrip r else s
  end.

(** [s.rstrip()] *)
Fixpoint rstrip (s : string) : string :=
  match s with
  | EmptyString => EmptyString
  | String c r =>
      match rstrip r with
      | EmptyString => if isspace c then EmptyString else String c EmptyString
      | r' => String c r'
      end
  end.

(** [s.strip()] *)
Definition strip (s : string) : string := rstrip (lstrip s).

(** [len(s)] *)
Definition len (s : string) : Z := Z.of_nat (String.length s).

(** the first [n] characters *)
Fixpoint take_chars (n : nat) (s : string) : string :=
  match n, s with
  | S n', String c r => String c (take_chars n' r)
  | _, _ => EmptyString
  end.

(** [s[:k]]: a negative bound counts from the end *)
Definition slice_to (s : string) (k : Z) : string :=
  if 0 <=? k then take_chars (Z.to_nat k) s
  else take_chars (Z.to_nat (len s + k)) s.

(** [s.split()]: the maximal runs of characters that are not white space;
    [w] is the run being read *)
Fixpoint split_go (w : string) (s : string) : list string :=
  match s with
  | EmptyString => if String.eqb w "" then [] else [w]
  | String c r =>
      if isspace c
      then (if String.eqb w "" then split_go "" r else w :: split_go "" r)
      else split_go (w +:+ String c "") r
  end.

Definition split (s : string) : list string := split_go "" s.

(** [sep.join(l)] *)
Fixpoint join (sep : string) (l : list string) : string :=
  match l with
  | [] => ""
  | [x] => x
  | x :: r => x +:+ sep +:+ join sep r
  end.

(** [needle in hay] *)
Fixpoint contains (needle hay : string) : bool :=
  String.prefix needle hay ||
  match hay with
  | EmptyString => false
  | String _ r => contains needle r
  end.

(** [x in (a, b, ...)] for strings *)
Definition mem (x : string) (l : list string) : bool :=
  existsb (String.eqb x) l.

(** truth value of a string *)
Definition truthy (s : string) : bool := negb (String.eqb s "").

End Py.

(** ** [job_automation_app.py]: the note safety net *)

Definition shorten_for_note (text : string) (limit : Z) : string :=
  let text := Py.strip text in
  if Py.len text <=? limit then text
  else Py.rstrip (Py.slice_to text (limit - 3)) +:+ "...".

(** ** The record store *)

(** One sheet row, over the header of [append_recruiter_row]:
    recruiter_name | job_title | company | linkedin_url | status |
    message1_sent | message2_sent | last_contacted | notes | job_url *)
Record Row : Type := mkRow {
  recruiter_name : string;
  job_title : string;
  company : string;
  linkedin_url : string;
  status : string;
  message1_sent : string;
  message2_sent : string;
  last_contacted : string;
  notes : string;
  job_url : string
}.

Inductive Column : Type :=
| c_recruiter_name | c_job_title | c_company | c_linkedin_url | c_status
| c_message1_sent | c_message2_sent | c_last_contacted | c_notes | c_job_url.

(** [sheet.update_cell] on one cell of a row *)
Definition set_cell (r : Row) (c : Column) (v : string) : Row :=
  match c with
  | c_recruiter_name => mkRow v (job_title r) (company r) (linkedin_url r) (status r) (message1_sent r) (message2_sent r) (last_contacted r) (notes r) (job_url r)
  | c_job_title => mkRow (recruiter_name r) v (company r) (linkedin_url r) (status r) (message1_sent r) (message2_sent r) (last_contacted r) (notes r) (job_url r)
  | c_company => mkRow (recruiter_name r) (job_title r) v (linkedin_url r) (status r) (message1_sent r) (message2_sent r) (last_contacted r) (notes r) (job_url r)
  | c_linkedin_url => mkRow (recruiter_name r) (job_title r) (company r) v (status r) (message1_sent r) (message2_sent r) (last_contacted r) (notes r) (job_url r)
  | c_status => mkRow (recruiter_name r) (job_title r) (company r) (linkedin_url r) v (message1_sent r) (message2_sent r) (last_contacted r) (notes r) (job_url r)
  | c_message1_sent => mkRow (recruiter_name r) (job_title r) (company r) (linkedin_url r) (status r) v (message2_sent r) (last_contacted r) (notes r) (job_url r)
  | c_message2_sent => mkRow (recruiter_name r) (job_title r) (company r) (linkedin_url r) (status r) (message1_sent r) v (last_contacted r) (notes r) (job_url r)
  | c_last_contacted => mkRow (recruiter_name r) (job_title r) (company r) (linkedin_url r) (status r) (message1_sent r) (message2_sent r) v (notes r) (job_url r)
  | c_notes => mkRow (recruiter_name r) (job_title r) (company r) (linkedin_url r) (status r) (message1_sent r) (message2_sent r) (last_contacted r) v (job_url r)
  | c_job_url => mkRow (recruiter_name r) (job_title r) (company r) (linkedin_url r) (status r) (message1_sent r) (message2_sent r) (last_contacted r) (notes r) v
  end.

(** the data rows of the sheet, in sheet order *)
Abbreviation Sheet := (list Row).

(** [update_row(sheet, index, **kwargs)]: every keyword is a column of the
    header, so each one is written, in keyword order, to data row
    [index] *)
Definition update_row (sheet : Sheet) (index : nat) (kwargs : list (Column * string)) : Sheet :=
  alter (fun r => fold_left (fun r kv => set_cell r (fst kv) (snd kv)) kwargs r) index sheet.

(** [get_rows(sheet)] *)
Definition get_rows (sheet : Sheet) : list Row := sheet.

(** A [datetime.date]: the day number that date subtraction works on, and
    the text [isoformat()] gives *)
Record date : Type := mkDate { toordinal : Z; isoformat : string }.

(** ** The browser oracle *)

(** The result of a driver call: a value, or an exception *)
Inductive res (A : Type) : Type :=
| Ok (a : A)
| Raise.
Arguments Ok {A} a.
Arguments Raise {A}.

(** A page element as the code observes it: what [is_displayed()]
    answers, its [text], and what happens when the code acts on it (a
    click through [execute_script], or [send_keys]) *)
Record elem : Type := mkElem {
  is_displayed : res bool;
  text : string;
  interact : res unit
}.

(** What the code did to the browser *)
Inductive action : Type :=
| Navigate (url : string)
| ClickConnect
| ClickAddNote
| ClickMessage
| ClickFollow
| TypeText (msg : string)
| ClickSend.

(** Computations that act on the browser and may raise *)
Definition M (A : Type) : Type := (list action * res A)%type.

Definition ret {A} (a : A) : M A := ([], Ok a).

Definition bind {A B} (m : M A) (k : A -> M B) : M B :=
  match m with
  | (t, Ok a) => let '(t', r) := k a in ((t ++ t')%list, r)
  | (t, Raise) => (t, Raise)
  end.

(** [try: m  except Exception: h] *)
Definition catch {A} (m : M A) (h : M A) : M A :=
  match m with
  | (t, Ok a) => (t, Ok a)
  | (t, Raise) => let '(t', r) := h in ((t ++ t')%list, r)
  end.

(** a driver query: no action on the page *)
Definition ask {A} (r : res A) : M A := ([], r).

(** an action on the page, recorded when it goes through *)
Definition act (a : action) (r : res unit) : M unit :=
  match r with
  | Ok _ => ([a], Ok tt)
  | Raise => ([], Raise)
  end.

Declare Scope drv_scope.
Delimit Scope drv_scope with drv.
Notation "x <- m ;; k" := (bind m (fun x => k))
  (at level 100, m at next level, right associativity) : drv_scope.
Notation "m ;;; k" := (bind m (fun _ => k))
  (at level 100, right associativity) : drv_scope.
Open Scope drv_scope.

(** [for b in candidates: try: if b.is_displayed(): btn = b; break
    except Exception: continue] *)
Fixpoint first_displayed (candidates : list elem) : option elem :=
  match candidates with
  | [] => None
  | b :: r =>
      match is_displayed b with
      | Ok true => Some b
      | _ => first_displayed r
      end
  end.

(** [for t in candidates: if t.is_displayed(): found = t; break], outside
    any [try]: an exception of [is_displayed] escapes *)
Fixpoint first_displayed_strict (candidates : list elem) : res (option elem) :=
  match candidates with
  | [] => Ok None
  | t :: r =>
      match is_displayed t with
      | Raise => Raise
      | Ok true => Ok (Some t)
      | Ok false => first_displayed_strict r
      end
  end.

(** [for xp in xpaths: try: btn = driver.find_element(xp);
    if btn.is_displayed(): send_btn = btn; break  except: continue] *)
Fixpoint pick_button (found : list (res elem)) : option elem :=
  match found with
  | [] => None
  | Ok btn :: r =>
      match is_displayed btn with
      | Ok true => Some btn
      | _ => pick_button r
      end
  | Raise :: r => pick_button r
  end.

(** What a send attempt returns to the run loop of
    [job_automation_app.py]: [True], [False] or ["UNREACHABLE"] *)
Inductive result : Type := PyTrue | PyFalse | UNREACHABLE.

(** ** Runs *)

(** One send attempt of a run: the index of the row, what was done to the
    browser, and what [send_connection_message] returned or that it
    raised *)
Definition Attempt (R : Type) : Type := (nat * list action * res R)%type.

(** What a run leaves behind: its attempts in order, the sheet, and
    whether an exception ended it (no handler stands between
    [send_connection_message] and the caller of the run) *)
Record Run (R : Type) : Type := mkRun {
  attempts : list (Attempt R);
  final : Sheet;
  raised : bool
}.
Arguments mkRun {R} _ _ _.
Arguments attempts {R} _.
Arguments final {R} _.
Arguments raised {R} _.

Definition attempted {R} (a : Attempt R) (r : Run R) : Run R :=
  mkRun (a :: attempts r) (final r) (raised r).

(** ** [job_automation_app.py] *)

Module App.

(** *** Message templates; [T name job_title company] is
    [T.format(name=name, job_title=job_title, company=company)] *)

Definition FIRST_MESSAGE_FULL (name job_title company : string) : string :=
  "Hi "
  +:+ name
  +:+ ",

I came across your profile while exploring opportunities for a Data Analyst role at "
  +:+ company
  +:+ ". I've been working with SQL, Python, ETL pipelines, dashboard reporting, and analytics in both banking and healthcare (TD Bank, Availity).

If you're hiring or can point me to the right person on your team, I'd appreciate a quick review of my background.

Thanks,
Akhil
".

Definition FIRST_MESSAGE_SHORT (name job_title company : string) : string :=
  "Hi "
  +:+ name
  +:+ ", I'm exploring Data Analyst roles at "
  +:+ company
  +:+ ". I work with SQL, Python, ETL, and dashboards in banking and healthcare. Would appreciate connecting and any guidance on analytics opportunities. Thanks, Akhil".

Definition FOLLOWUP_MESSAGE_FULL (name job_title company : string) : string :=
  "Hi "
  +:+ name
  +:+ ",

Just following up on my previous note regarding opportunities at "
  +:+ company
  +:+ ".
If there's someone else on your team who handles analytics hiring, I'd be grateful if you could point me to them.

Thanks again,
Akhil
".

Definition FOLLOWUP_MESSAGE_SHORT (name job_title company : string) : string :=
  "Hi "
  +:+ name
  +:+ ", just following up on my earlier note about analytics roles at "
  +:+ company
  +:+ ". If someone else handles data hiring, I'd really appreciate it if you could point me their way. Thanks, Akhil".

(** *** Safety helpers *)

Definition normalize_name (name : string) : string :=
  Py.join " " (Py.split (Py.lower name)).

(** One iteration of the polling loop of [verify_profile_loaded]: the
    header elements found and the text of the page body *)
Record Snapshot : Type := mkSnapshot {
  headers : res (list elem);
  body : res string
}.

(** One iteration of the loop that follows a click on Connect *)
Record NotePoll : Type := mkNotePoll {
  note_buttons : res (list elem);
  editors : res (list elem)
}.

(** What the browser answers while one recipient is attempted.
    [verify_polls] lists what the iterations of the polling loop that
    start before the deadline see; [note_polls k], [editor_polls k] are
    seen at iteration [k] of the loops over [range(8)];
    [send_buttons k] is the element found for the [k]-th of
    [send_xpaths]. *)
Record Page : Type := mkPage {
  get : res unit;
  h1 : res string;
  verify_polls : list Snapshot;
  connect_candidates : res (list elem);
  note_polls : nat -> NotePoll;
  msg_candidates : res (list elem);
  follow_candidates : res (list elem);
  modal_headers : res (list elem);
  editor_polls : nat -> res (list elem);
  send_buttons : nat -> res elem
}.

(** the scan of header elements shared by both verifications:
    [for el in els: if not el.is_displayed(): continue;
    actual = normalize_name(el.text);
    if expected_norm and expected_norm in actual: return True] *)
Fixpoint header_matches (expected_norm : string) (els : list elem) : res bool :=
  match els with
  | [] => Ok false
  | el :: r =>
      match is_displayed el with
      | Raise => Raise
      | Ok false => header_matches expected_norm r
      | Ok true =>
          if Py.truthy expected_norm
             && Py.contains expected_norm (normalize_name (text el))
          then Ok true
          else header_matches expected_norm r
      end
  end.

(** the header scan under its [try ... except Exception: pass] *)
Definition headers_verify (expected_norm : string) (found : res (list elem)) : bool :=
  match found with
  | Ok els =>
      match header_matches expected_norm els with
      | Ok b => b
      | Raise => false
      end
  | Raise => false
  end.

(** the body scan under its [try ... except Exception: pass] *)
Definition body_verifies (expected_norm : string) (found : res string) : bool :=
  match found with
  | Ok t => Py.contains expected_norm (Py.lower t)
  | Raise => false
  end.

Definition poll_verifies (expected_norm : string) (s : Snapshot) : bool :=
  headers_verify expected_norm (headers s) || body_verifies expected_norm (body s).

(** Every iteration ends with [time.sleep(1)], so at most [timeout]
    iterations start before [end_time]. *)
Definition verify_profile_loaded (p : Page) (expected_name : string) (timeout : Z) : bool :=
  if negb (Py.truthy expected_name) then true
  else
    let expected_norm := normalize_name expected_name in
    existsb (poll_verifies expected_norm) (take (Z.to_nat timeout) (verify_polls p)).

Definition verify_message_modal_recipient (p : Page) (expected_name : string) : bool :=
  if negb (Py.truthy expected_name) then true
  else headers_verify (normalize_name expected_name) (modal_headers p).

(** *** Channel discovery *)

(** What [open_message_or_connect] returns: ["note"], ["message"],
    ["follow_only"] or [None] *)
Inductive mode : Type := note | message | follow_only | NoMode.

(** [for nb in note_buttons: if nb.is_displayed(): click; return "note"];
    [true] when the function returned *)
Fixpoint click_note_button (nbs : list elem) : M bool :=
  match nbs with
  | [] => ret false
  | nb :: r =>
      d <- ask (is_displayed nb) ;;
      if d then (act ClickAddNote (interact nb) ;;; ret true)
      else click_note_button r
  end.

(** [any(ed.is_displayed() for ed in editors)] *)
Fixpoint any_displayed (eds : list elem) : res bool :=
  match eds with
  | [] => Ok false
  | ed :: r =>
      match is_displayed ed with
      | Raise => Raise
      | Ok true => Ok true
      | Ok false => any_displayed r
      end
  end.

(** the loop [for _ in range(8)] after Connect was clicked *)
Fixpoint note_loop (polls : list NotePoll) : M mode :=
  match polls with
  | [] => ret follow_only
  | s :: r =>
      clicked <- catch (nbs <- ask (note_buttons s) ;; click_note_button nbs)
                       (ret false) ;;
      if clicked then ret note
      else
        eds <- ask (editors s) ;;
        shown <- ask (any_displayed eds) ;;
        if shown then ret note else note_loop r
  end.

(** Each path gives [Some m] when the function returns [m] there and
    [None] when control falls through to the next path. *)
Definition connect_path (p : Page) : M (option mode) :=
  connect_candidates <- ask (connect_candidates p) ;;
  match first_displayed connect_candidates with
  | Some connect_btn =>
      act ClickConnect (interact connect_btn) ;;;
      m <- note_loop (map (note_polls p) (seq 0 8)) ;;
      ret (Some m)
  | None => ret None
  end.

Definition message_path (p : Page) : M (option mode) :=
  msg_candidates <- ask (msg_candidates p) ;;
  match first_displayed msg_candidates with
  | Some msg_btn => act ClickMessage (interact msg_btn) ;;; ret (Some message)
  | None => ret None
  end.

Definition follow_path (p : Page) : M (option mode) :=
  follow_candidates <- ask (follow_candidates p) ;;
  match first_displayed follow_candidates with
  | Some follow_btn => act ClickFollow (interact follow_btn) ;;; ret (Some follow_only)
  | None => ret None
  end.

Definition open_message_or_connect (p : Page) : M mode :=
  r <- catch (connect_path p) (ret None) ;;
  match r with
  | Some m => ret m
  | None =>
      r <- catch (message_path p) (ret None) ;;
      match r with
      | Some m => ret m
      | None =>
          r <- catch (follow_path p) (ret None) ;;
          match r with
          | Some m => ret m
          | None => ret NoMode
          end
      end
  end.

(** *** Compose and submit *)

(** the loop [for _ in range(8)] that looks for the editor *)
Fixpoint find_editor (polls : list (res (list elem))) : res (option elem) :=
  match polls with
  | [] => Ok None
  | found :: r =>
      match found with
      | Raise => Raise
      | Ok candidates =>
          match first_displayed_strict candidates with
          | Raise => Raise
          | Ok (Some ed) => Ok (Some ed)
          | Ok None => find_editor r
          end
      end
  end.

Definition send_message_in_modal (p : Page) (msg expected_name : string)
    (skip_modal_check : bool) : M bool :=
  if negb skip_modal_check && negb (verify_message_modal_recipient p expected_name)
  then ret false
  else
    editor <- ask (find_editor (map (editor_polls p) (seq 0 8))) ;;
    match editor with
    | None => ret false
    | Some editor =>
        act (TypeText msg) (interact editor) ;;;
        match pick_button (map (send_buttons p) (seq 0 3)) with
        | None => ret false
        | Some send_btn => act ClickSend (interact send_btn) ;;; ret true
        end
    end.

Definition generic_names : list string :=
  ["hiring team"; "talent team"; "recruiting team"].

(** the name the safety checks use: the text of the page's first [h1],
    stripped, when there is one and it is not empty; the sheet's name,
    stripped, otherwise *)
Definition expected_name_of (p : Page) (row : Row) : string :=
  let sheet_name := Py.strip (recruiter_name row) in
  let expected_name := if Py.truthy sheet_name then sheet_name else "" in
  match h1 p with
  | Ok t => let real_name := Py.strip t in
            if Py.truthy real_name then real_name else expected_name
  | Raise => expected_name
  end.

Definition send_connection_message (p : Page) (row : Row) (first_message : bool) : M result :=
  let linkedin_url := linkedin_url row in
  let job_title := job_title row in
  let company := company row in
  if negb (Py.truthy linkedin_url) then ret UNREACHABLE
  else
    act (Navigate linkedin_url) (get p) ;;;
    let expected_name := expected_name_of p row in
    if negb (Py.mem (Py.lower expected_name) generic_names)
       && negb (verify_profile_loaded p expected_name 8)
    then ret PyFalse
    else
      let full_template := if first_message then FIRST_MESSAGE_FULL else FOLLOWUP_MESSAGE_FULL in
      let short_template := if first_message then FIRST_MESSAGE_SHORT else FOLLOWUP_MESSAGE_SHORT in
      let msg_full := full_template expected_name job_title company in
      let msg_short := short_template expected_name job_title company in
      mode <- open_message_or_connect p ;;
      match mode with
      | note =>
          let msg_text := shorten_for_note msg_short 300 in
          ok <- send_message_in_modal p msg_text expected_name true ;;
          ret (if ok then PyTrue else PyFalse)
      | message =>
          ok <- send_message_in_modal p msg_full expected_name false ;;
          ret (if ok then PyTrue else PyFalse)
      | follow_only | NoMode => ret UNREACHABLE
      end.

(** *** The run loops *)

Section Runs.

(** [DAILY_MAX_FIRST], [DAILY_MAX_FOLLOWUPS]: read from the environment *)
Variable DAILY_MAX_FIRST : Z.
Variable DAILY_MAX_FOLLOWUPS : Z.

(** [dt.date.fromisoformat] on a string: a date, or [None] for
    [ValueError] *)
Variable fromisoformat : string -> option date.

(** [dt.date.today()] *)
Variable today : date.

(** the browser's answers while row [i] is attempted *)
Variable pages : nat -> Page.

(** the body of [for i, row in enumerate(records)], from index [i] on,
    with the [count] of messages sent so far *)
Fixpoint first_loop (i : nat) (records : list Row) (count : Z) (sheet : Sheet) : Run result :=
  match records with
  | [] => mkRun [] sheet false
  | row :: rest =>
      if DAILY_MAX_FIRST <=? count then mkRun [] sheet false
      else
        let status := Py.lower (status row) in
        let m1 := Py.upper (message1_sent row) in
        if String.eqb status "pending" && negb (Py.mem m1 ["TRUE"; "YES"]) then
          match send_connection_message (pages i) row true with
          | (acts, Raise) => mkRun [(i, acts, Raise)] sheet true
          | (acts, Ok PyTrue) =>
              attempted (i, acts, Ok PyTrue)
                (first_loop (S i) rest (count + 1)
                   (update_row sheet i
                      [(c_message1_sent, "TRUE");
                       (c_last_contacted, isoformat today);
                       (c_status, "connected")]))
          | (acts, Ok UNREACHABLE) =>
              attempted (i, acts, Ok UNREACHABLE)
                (first_loop (S i) rest count
                   (update_row sheet i
                      [(c_message1_sent, "TRUE"); (c_status, "unreachable")]))
          | (acts, Ok PyFalse) =>
              attempted (i, acts, Ok PyFalse) (first_loop (S i) rest count sheet)
          end
        else first_loop (S i) rest count sheet
  end.

Definition run_first_messages (sheet : Sheet) : Run result :=
  first_loop 0 (get_rows sheet) 0 sheet.

Fixpoint followup_loop (days_wait : Z) (i : nat) (records : list Row) (count : Z)
    (sheet : Sheet) : Run result :=
  match records with
  | [] => mkRun [] sheet false
  | row :: rest =>
      if DAILY_MAX_FOLLOWUPS <=? count then mkRun [] sheet false
      else
        let status := Py.lower (status row) in
        let m1 := Py.upper (message1_sent row) in
        let m2 := Py.upper (message2_sent row) in
        let last := last_contacted row in
        if Py.mem status ["pending"; "connected"] && String.eqb m1 "TRUE"
           && negb (String.eqb m2 "TRUE") && Py.truthy last then
          match fromisoformat last with
          | None => followup_loop days_wait (S i) rest count sheet
          | Some last_date =>
              if days_wait <=? toordinal today - toordinal last_date then
                match send_connection_message (pages i) row false with
                | (acts, Raise) => mkRun [(i, acts, Raise)] sheet true
                | (acts, Ok PyTrue) =>
                    attempted (i, acts, Ok PyTrue)
                      (followup_loop days_wait (S i) rest (count + 1)
                         (update_row sheet i
                            [(c_message2_sent, "TRUE");
                             (c_last_contacted, isoformat today)]))
                | (acts, Ok UNREACHABLE) =>
                    attempted (i, acts, Ok UNREACHABLE)
                      (followup_loop days_wait (S i) rest count
                         (update_row sheet i
                            [(c_message2_sent, "TRUE"); (c_status, "unreachable")]))
                | (acts, Ok PyFalse) =>
                    attempted (i, acts, Ok PyFalse)
                      (followup_loop days_wait (S i) rest count sheet)
                end
              else followup_loop days_wait (S i) rest count sheet
          end
        else followup_loop days_wait (S i) rest count sheet
  end.

Definition run_followups (days_wait : Z) (sheet : Sheet) : Run result :=
  followup_loop days_wait 0 (get_rows sheet) 0 sheet.

End Runs.

(** *** Ingestion *)

(** A scraped recruiter, as [extract_recruiters_from_jobright] builds it *)
Record Candidate : Type := mkCandidate {
  cand_recruiter_name : string;
  cand_job_title : string;
  cand_company : string;
  cand_linkedin_url : string;
  cand_notes : string
}.

(** the row [append_recruiter_row] appends for [data], whose ["job_url"]
    is [url] *)
Definition new_row (data : Candidate) (url : string) : Row :=
  mkRow (cand_recruiter_name data) (cand_job_title data) (cand_company data)
        (cand_linkedin_url data) "pending" "" "" "" (cand_notes data) url.

Definition append_recruiter_row (sheet : Sheet) (data : Candidate) (url : string) : Sheet :=
  (sheet ++ [new_row data url])%list.

(** the state of the ingestion loop *)
Record Ingest : Type := mkIngest {
  ing_sheet : Sheet;
  existing_job_urls : gset string;
  existing_linkedin_urls : gset string;
  total : Z
}.

(** the two sets read from the sheet before the loop *)
Fixpoint seen_sets (existing_records : list Row) (jobs links : gset string)
    : gset string * gset string :=
  match existing_records with
  | [] => (jobs, links)
  | r :: rest =>
      let ju := Py.strip (job_url r) in
      let lu := Py.strip (linkedin_url r) in
      seen_sets rest
        (if Py.truthy ju then {[ju]} ∪ jobs else jobs)
        (if Py.truthy lu then {[lu]} ∪ links else links)
  end.

(** [for rec in recs] for the job page [url] *)
Fixpoint ingest_recs (url : string) (recs : list Candidate) (st : Ingest) : Ingest :=
  match recs with
  | [] => st
  | rec :: rest =>
      let linkedin_url := Py.strip (cand_linkedin_url rec) in
      if negb (Py.truthy linkedin_url) then ingest_recs url rest st
      else if bool_decide (linkedin_url ∈ existing_linkedin_urls st)
      then ingest_recs url rest st
      else
        ingest_recs url rest
          (mkIngest (append_recruiter_row (ing_sheet st) rec url)
                    ({[url]} ∪ existing_job_urls st)
                    ({[linkedin_url]} ∪ existing_linkedin_urls st)
                    (total st + 1))
  end.

(** [for url in urls]; [extract k] is what
    [extract_recruiters_from_jobright] returns for the [k]-th line of the
    URL file, or [Raise]; the handler of the loop body logs and goes on *)
Fixpoint ingest_urls (extract : nat -> res (list Candidate)) (k : nat)
    (urls : list string) (st : Ingest) : Ingest :=
  match urls with
  | [] => st
  | url :: rest =>
      if bool_decide (url ∈ existing_job_urls st)
      then ingest_urls extract (S k) rest st
      else
        match extract k with
        | Ok recs => ingest_urls extract (S k) rest (ingest_recs url recs st)
        | Raise => ingest_urls extract (S k) rest st
        end
  end.

(** [run_extract_recruiters], from the lines of the URL file (stripped,
    the empty ones dropped) and the sheet *)
Definition run_extract_recruiters (extract : nat -> res (list Candidate))
    (lines : list string) (sheet : Sheet) : Ingest :=
  let urls := filter (fun u => Py.truthy u = true) (map Py.strip lines) in
  match urls with
  | [] => mkIngest sheet ∅ ∅ 0
  | _ =>
      let '(jobs, links) := seen_sets (get_rows sheet) ∅ ∅ in
      ingest_urls extract 0 urls (mkIngest sheet jobs links 0)
  end.

End App.

(** ** [recruiter_bot.py] *)

Module Bot.

Definition FIRST_MESSAGE_TEMPLATE (name job_title company : string) : string :=
  "Hi "
  +:+ name
  +:+ ",

I came across your profile while exploring opportunities for a "
  +:+ job_title
  +:+ " role at "
  +:+ company
  +:+ ".
I've been working on SQL, Python, ETL, and dashboards in banking and healthcare (TD Bank, Availity).

If you're hiring for a Data Analyst / Reporting Analyst role, I'd really appreciate a quick review of my background.

Thanks,
Akhil
".

Definition FOLLOWUP_MESSAGE_TEMPLATE (name job_title company : string) : string :=
  "Hi "
  +:+ name
  +:+ ",

Just following up on my previous note regarding opportunities at "
  +:+ company
  +:+ ".
If there's someone else on your team who handles analytics hiring, I'd be grateful if you could point me to them.

Thanks again,
Akhil
".

(** What the browser answers while one recipient is attempted;
    [send_button k] is the element found for the [k]-th of
    [send_button_xpaths]. *)
Record Page : Type := mkPage {
  get : res unit;
  connect_btn : res elem;
  note_btn : res elem;
  textbox_candidates : res (list elem);
  send_button : nat -> res elem;
  message_btn : res elem;
  dialog : res unit;
  editor : res elem;
  dialog_send_btn : res elem
}.

(** the connect flow, up to its [return True]; an exception anywhere in it
    is handled by the caller *)
Definition connect_flow (p : Page) (message_text : string) : M bool :=
  connect_btn <- ask (connect_btn p) ;;
  act ClickConnect (interact connect_btn) ;;;
  catch (note_btn <- ask (note_btn p) ;; act ClickAddNote (interact note_btn))
        (ret tt) ;;;
  textbox_candidates <- ask (textbox_candidates p) ;;
  textbox <- ask (first_displayed_strict textbox_candidates) ;;
  match textbox with
  | None => ask Raise
  | Some textbox =>
      act (TypeText message_text) (interact textbox) ;;;
      match pick_button (map (send_button p) (seq 0 5)) with
      | None => ask Raise
      | Some send_btn => act ClickSend (interact send_btn) ;;; ret true
      end
  end.

(** the message flow, up to its [return True] *)
Definition message_flow (p : Page) (message_text : string) : M bool :=
  message_btn <- ask (message_btn p) ;;
  act ClickMessage (interact message_btn) ;;;
  ask (dialog p) ;;;
  editor <- ask (editor p) ;;
  act (TypeText message_text) (interact editor) ;;;
  send_btn <- ask (dialog_send_btn p) ;;
  act ClickSend (interact send_btn) ;;;
  ret true.

Definition send_connection_message (p : Page) (row : Row) (first_message : bool) : M bool :=
  let linkedin_url := linkedin_url row in
  let name := recruiter_name row in
  let job_title := job_title row in
  let company := company row in
  let message_text :=
    (if first_message then FIRST_MESSAGE_TEMPLATE else FOLLOWUP_MESSAGE_TEMPLATE)
      name job_title company in
  if negb (Py.truthy linkedin_url) then ret false
  else
    act (Navigate linkedin_url) (get p) ;;;
    catch (connect_flow p message_text)
          (catch (message_flow p message_text) (ret false)).

Section Runs.

Variable DAILY_MAX_FIRST : Z.
Variable DAILY_MAX_FOLLOWUPS : Z.
Variable fromisoformat : string -> option date.
Variable today : date.
Variable pages : nat -> Page.

Fixpoint first_loop (i : nat) (records : list Row) (count : Z) (sheet : Sheet) : Run bool :=
  match records with
  | [] => mkRun [] sheet false
  | row :: rest =>
      if DAILY_MAX_FIRST <=? count then mkRun [] sheet false
      else
        let status := Py.lower (status row) in
        let m1 := Py.upper (message1_sent row) in
        if String.eqb status "pending" && negb (Py.mem m1 ["TRUE"; "YES"]) then
          match send_connection_message (pages i) row true with
          | (acts, Raise) => mkRun [(i, acts, Raise)] sheet true
          | (acts, Ok true) =>
              attempted (i, acts, Ok true)
                (first_loop (S i) rest (count + 1)
                   (update_row sheet i
                      [(c_message1_sent, "TRUE");
                       (c_last_contacted, isoformat today)]))
          | (acts, Ok false) =>
              attempted (i, acts, Ok false) (first_loop (S i) rest count sheet)
          end
        else first_loop (S i) rest count sheet
  end.

Definition run_first_messages (sheet : Sheet) : Run bool :=
  first_loop 0 (get_rows sheet) 0 sheet.

Fixpoint followup_loop (days_wait : Z) (i : nat) (records : list Row) (count : Z)
    (sheet : Sheet) : Run bool :=
  match records with
  | [] => mkRun [] sheet false
  | row :: rest =>
      if DAILY_MAX_FOLLOWUPS <=? count then mkRun [] sheet false
      else
        let status := Py.lower (status row) in
        let m1 := Py.upper (message1_sent row) in
        let m2 := Py.upper (message2_sent row) in
        let last := last_contacted row in
        if Py.mem status ["pending"; "connected"] && String.eqb m1 "TRUE"
           && negb (String.eqb m2 "TRUE") && Py.truthy last then
          match fromisoformat last with
          | None => followup_loop days_wait (S i) rest count sheet
          | Some last_date =>
              if days_wait <=? toordinal today - toordinal last_date then
                match send_connection_message (pages i) row false with
                | (acts, Raise) => mkRun [(i, acts, Raise)] sheet true
                | (acts, Ok true) =>
                    attempted (i, acts, Ok true)
                      (followup_loop days_wait (S i) rest (count + 1)
                         (update_row sheet i
                            [(c_message2_sent, "TRUE");
                             (c_last_contacted, isoformat today)]))
                | (acts, Ok false) =>
                    attempted (i, acts, Ok false)
                      (followup_loop days_wait (S i) rest count sheet)
                end
              else followup_loop days_wait (S i) rest count sheet
          end
        else followup_loop days_wait (S i) rest count sheet
  end.

Definition run_followups (days_wait : Z) (sheet : Sheet) : Run bool :=
  followup_loop days_wait 0 (get_rows sheet) 0 sheet.

End Runs.

End Bot.

(** ** [autofill_from_jobright.py] *)

Module Autofill.

(** the row [append_recruiter_row] appends: this script's header has no
    job_url column *)
Definition new_row (recruiter : App.Candidate) : Row :=
  mkRow (App.cand_recruiter_name recruiter) (App.cand_job_title recruiter)
        (App.cand_company recruiter) (App.cand_linkedin_url recruiter)
        "pending" "" "" "" (App.cand_notes recruiter) "".

Definition append_recruiter_row (sheet : Sheet) (recruiter : App.Candidate) : Sheet :=
  (sheet ++ [new_row recruiter])%list.

(** What the two scrapers return for the [k]-th URL entered, or [Raise] *)
Record Scraper : Type := mkScraper {
  scrape_jobright_page : nat -> res (list App.Candidate);
  scrape_linkedin_job_page : nat -> res (list App.Candidate)
}.



End Autofill.

(** ** Definitions used to state the properties *)

(** the last character of a string *)
Fixpoint last_char (s : string) : option ascii :=
  match s with
  | EmptyString => None
  | String c r => match r with EmptyString => Some c | _ => last_char r end
  end.

(** the short template [send_connection_message] picks *)
Definition short_template (first_message : bool) : string -> string -> string -> string :=
  if first_message then App.FIRST_MESSAGE_SHORT else App.FOLLOWUP_MESSAGE_SHORT.

(** *** The shape the four run loops share

    Every run loop stops at the quota, passes over the rows that are not
    eligible, and for an eligible row makes one send attempt, which
    either raises and ends the run, or returns [r]: then [writes r] is
    written to the row and [counts r] says whether the attempt uses up
    quota.  Each loop of the source is shown equal to an instance of
    [loop]. *)

Section Loop.

Context {R : Type}.
Variable quota : Z.
Variable eligible : Row -> bool.
Variable send : nat -> Row -> M R.
Variable counts : R -> bool.
Variable writes : R -> list (Column * string).

Fixpoint loop (i : nat) (records : list Row) (count : Z) (sheet : Sheet) : Run R :=
  match records with
  | [] => mkRun [] sheet false
  | row :: rest =>
      if quota <=? count then mkRun [] sheet false
      else if eligible row then
        match send i row with
        | (acts, Raise) => mkRun [(i, acts, Raise)] sheet true
        | (acts, Ok r) =>
            attempted (i, acts, Ok r)
              (loop (S i) rest (if counts r then count + 1 else count)
                 (update_row sheet i (writes r)))
        end
      else loop (S i) rest count sheet
  end.

(** the attempt used up quota *)
Definition counted (a : Attempt R) : bool :=
  match a with
  | (_, _, Ok r) => counts r
  | (_, _, Raise) => false
  end.

End Loop.

(** the cells of a row after [kwargs] are written to it *)
Definition write_cells (kwargs : list (Column * string)) (r : Row) : Row :=
  fold_left (fun r kv => set_cell r (fst kv) (snd kv)) kwargs r.

(** first-message eligibility, as both first-message loops test it *)
Definition first_eligible (row : Row) : bool :=
  String.eqb (Py.lower (status row)) "pending"
  && negb (Py.mem (Py.upper (message1_sent row)) ["TRUE"; "YES"]).

(** follow-up eligibility, as both follow-up loops test it *)
Definition followup_eligible (fromisoformat : string -> option date) (today : date)
    (days_wait : Z) (row : Row) : bool :=
  Py.mem (Py.lower (status row)) ["pending"; "connected"]
  && String.eqb (Py.upper (message1_sent row)) "TRUE"
  && negb (String.eqb (Py.upper (message2_sent row)) "TRUE")
  && Py.truthy (last_contacted row)
  && match fromisoformat (last_contacted row) with
     | None => false
     | Some last_date => days_wait <=? toordinal today - toordinal last_date
     end.

Definition is_true (r : result) : bool :=
  match r with PyTrue => true | _ => false end.

Definition app_first_writes (today : date) (r : result) : list (Column * string) :=
  match r with
  | PyTrue => [(c_message1_sent, "TRUE"); (c_last_contacted, isoformat today);
               (c_status, "connected")]
  | UNREACHABLE => [(c_message1_sent, "TRUE"); (c_status, "unreachable")]
  | PyFalse => []
  end.

Definition app_followup_writes (today : date) (r : result) : list (Column * string) :=
  match r with
  | PyTrue => [(c_message2_sent, "TRUE"); (c_last_contacted, isoformat today)]
  | UNREACHABLE => [(c_message2_sent, "TRUE"); (c_status, "unreachable")]
  | PyFalse => []
  end.

Definition bot_first_writes (today : date) (success : bool) : list (Column * string) :=
  if success then [(c_message1_sent, "TRUE"); (c_last_contacted, isoformat today)]
  else [].

Definition bot_followup_writes (today : date) (success : bool) : list (Column * string) :=
  if success then [(c_message2_sent, "TRUE"); (c_last_contacted, isoformat today)]
  else [].

(** the attempts of a run that sent a message *)
Definition sent_attempts (atts : list (Attempt result)) : list (Attempt result) :=
  filter (fun a => counted is_true a = true) atts.

Definition bot_sent_attempts (atts : list (Attempt bool)) : list (Attempt bool) :=
  filter (fun a => counted (fun b : bool => b) a = true) atts.

(** the rows of the sheet whose attempt was made in a run *)
Definition attempted_rows {R} (r : Run R) : list nat :=
  map (fun a : Attempt R => fst (fst a)) (attempts r).

(** the rows whose status a run turned into one of [targets] *)
Definition turned (targets : list string) (before after : Sheet) (j : nat) : bool :=
  match before !! j, after !! j with
  | Some b, Some a =>
      Py.mem (status a) targets && negb (String.eqb (status b) (status a))
  | _, _ => false
  end.

Definition rows_turned (targets : list string) (before after : Sheet) : list nat :=
  filter (fun j => turned targets before after j = true) (seq 0 (length before)).

(** a run passes over the rows that satisfy [P]: it makes no attempt on
    them and leaves them as they were *)
Definition passes_over {R} (P : Row -> Prop) (sheet : Sheet) (r : Run R) : Prop :=
  forall j row, sheet !! j = Some row -> P row ->
    (j ∉ attempted_rows r) /\ final r !! j = Some row.

(** the row is due for a follow-up: the five conditions of the follow-up
    loops *)
Definition followup_due (fromisoformat : string -> option date) (today : date)
    (days_wait : Z) (row : Row) : Prop :=
  (Py.lower (status row) = "pending" \/ Py.lower (status row) = "connected")
  /\ Py.upper (message1_sent row) = "TRUE"
  /\ Py.upper (message2_sent row) <> "TRUE"
  /\ exists last_date, fromisoformat (last_contacted row) = Some last_date
                       /\ days_wait <= toordinal today - toordinal last_date.

(** the date of the row does not parse, or is too recent *)
Definition not_yet_due (fromisoformat : string -> option date) (today : date)
    (days_wait : Z) (row : Row) : Prop :=
  fromisoformat (last_contacted row) = None
  \/ exists last_date, fromisoformat (last_contacted row) = Some last_date
                       /\ toordinal today - toordinal last_date < days_wait.

(** a follow-up run attempts due rows only, passes over the rows that are
    not yet due, and ends with an exception only when a send attempt
    raised *)
Definition follows_up_due_rows_only {R} (fromisoformat : string -> option date)
    (today : date) (days_wait : Z) (sheet : Sheet) (r : Run R) : Prop :=
  (forall j, j ∈ attempted_rows r ->
     exists row, sheet !! j = Some row
                 /\ followup_due fromisoformat today days_wait row)
  /\ passes_over (not_yet_due fromisoformat today days_wait) sheet r
  /\ (raised r = true -> exists j acts, (j, acts, Raise) ∈ attempts r).

(** *** Words of the properties of the messaging protocol *)

(** the name shows on the page at one polling iteration: in the normalized
    text of a displayed header element, or in the lower-cased body text *)
Definition name_on_page (expected_norm : string) (s : App.Snapshot) : Prop :=
  (exists els el, App.headers s = Ok els /\ el ∈ els
                  /\ is_displayed el = Ok true
                  /\ Py.contains expected_norm (App.normalize_name (text el)) = true)
  \/ (exists t, App.body s = Ok t
                /\ Py.contains expected_norm (Py.lower t) = true).

(** the gate of [send_connection_message] lets the attempt through *)
Definition name_verified (p : App.Page) (row : Row) : Prop :=
  let expected_name := App.expected_name_of p row in
  expected_name = ""
  \/ Py.mem (Py.lower expected_name) App.generic_names = true
  \/ exists s, s ∈ take 8 (App.verify_polls p)
               /\ name_on_page (App.normalize_name expected_name) s.

(** the check the specification words: the normalized name of the record
    is in the normalized text of a header element at one of the polls *)
Definition spec_record_name_in_header (p : App.Page) (row : Row) : bool :=
  existsb
    (fun s => match App.headers s with
              | Ok els =>
                  existsb (fun el => Py.contains
                                       (App.normalize_name (recruiter_name row))
                                       (App.normalize_name (text el))) els
              | Raise => false
              end)
    (App.verify_polls p).

(** a lookup found an action that is displayed and can be clicked *)
Definition clickable (found : res (list elem)) : Prop :=
  exists l b, found = Ok l /\ first_displayed l = Some b /\ interact b = Ok tt.

(** a lookup found no displayed action, or raised *)
Definition absent (found : res (list elem)) : Prop :=
  found = Raise \/ exists l, found = Ok l /\ first_displayed l = None.

(** a displayed action is found and the click on it raises *)
Definition click_raises (found : res (list elem)) : Prop :=
  exists l b, found = Ok l /\ first_displayed l = Some b /\ interact b = Raise.

(** none of the elements is displayed, and [is_displayed] raises for
    none of them *)
Definition hidden (l : list elem) : Prop :=
  Forall (fun e => is_displayed e = Ok false) l.

(** One polling iteration after Connect was clicked.  Its first step
    opens the note: the lookup finds a displayed "Add a note" button, the
    buttons before it are not displayed, and the click on it goes through.
    Whatever else happens in that step (the lookup raises, [is_displayed]
    raises, the click raises) is caught, and the step does not open the
    note. *)
Definition add_note_opens (s : App.NotePoll) : Prop :=
  exists pre nb post,
    App.note_buttons s = Ok (pre ++ nb :: post)%list
    /\ hidden pre /\ is_displayed nb = Ok true /\ interact nb = Ok tt.

(** the second step finds an editor that is displayed *)
Definition editor_open (s : App.NotePoll) : Prop :=
  exists pre ed post,
    App.editors s = Ok (pre ++ ed :: post)%list
    /\ hidden pre /\ is_displayed ed = Ok true.

(** the second step finds the editors, none of them displayed *)
Definition editors_hidden (s : App.NotePoll) : Prop :=
  exists eds, App.editors s = Ok eds /\ hidden eds.

(** the second step raises: the lookup of the editors does, or
    [is_displayed] of an editor before any is found displayed; no handler
    stands between this step and the handler of the whole connect path *)
Definition editors_raise (s : App.NotePoll) : Prop :=
  App.editors s = Raise
  \/ exists pre ed post,
       App.editors s = Ok (pre ++ ed :: post)%list
       /\ hidden pre /\ is_displayed ed = Raise.

(** the poll shows a note capability *)
Definition shows_note (s : App.NotePoll) : Prop :=
  add_note_opens s \/ editor_open s.

(** the poll goes through and shows no note capability *)
Definition quiet (s : App.NotePoll) : Prop :=
  ~ add_note_opens s /\ editors_hidden s.

(** the poll ends the connect path with an exception *)
Definition escapes (s : App.NotePoll) : Prop :=
  ~ add_note_opens s /\ editors_raise s.

(** The connect path gives way to the message path: no displayed connect
    action is found (or the lookup raised), or the click on it raises, or
    after the click a poll raises before any poll showed a note
    capability. *)
Definition connect_gives_way (p : App.Page) : Prop :=
  absent (App.connect_candidates p)
  \/ click_raises (App.connect_candidates p)
  \/ (clickable (App.connect_candidates p)
      /\ exists k, (k < 8)%nat /\ escapes (App.note_polls p k)
           /\ forall j, (j < k)%nat -> quiet (App.note_polls p j)).

(** *** Words of the ingestion property *)

(** the profile link of a row, as the ingestion compares it *)
Definition link_of (r : Row) : string := Py.strip (linkedin_url r).





(** ** A calendar and pages for the examples *)

(** The ISO text YYYY-MM-DD, which [date.fromisoformat] reads in every
    version of Python that has it, with the day numbers of the proleptic
    Gregorian calendar. *)
Module Datetime.

Definition digit (c : ascii) : option Z :=
  let n := nat_of_ascii c in
  if Nat.leb 48 n && Nat.leb n 57 then Some (Z.of_nat (n - 48)) else None.

Definition is_leap (y : Z) : bool :=
  (y mod 4 =? 0) && (negb (y mod 100 =? 0) || (y mod 400 =? 0)).

Definition days_in_month (y m : Z) : Z :=
  if m =? 2 then (if is_leap y then 29 else 28)
  else if (m =? 4) || (m =? 6) || (m =? 9) || (m =? 11) then 30
  else 31.

Definition days_before_year (y : Z) : Z :=
  let y := y - 1 in y * 365 + y / 4 - y / 100 + y / 400.

(** the days of the year before the first of month [m] *)
Definition days_before_month (y m : Z) : Z :=
  fold_left (fun acc k => acc + days_in_month y (Z.of_nat k))
            (seq 1 (Z.to_nat (m - 1))) 0.

Definition ymd2ord (y m d : Z) : Z :=
  days_before_year y + days_before_month y m + d.

Definition number (a b : ascii) : option Z :=
  match digit a, digit b with
  | Some x, Some y => Some (10 * x + y)
  | _, _ => None
  end.

Definition fromisoformat (s : string) : option date :=
  match list_ascii_of_string s with
  | [y1; y2; y3; y4; s1; m1; m2; s2; d1; d2] =>
      match number y1 y2, number y3 y4, number m1 m2, number d1 d2 with
      | Some yh, Some yl, Some m, Some d =>
          let y := 100 * yh + yl in
          if Ascii.eqb s1 "-" && Ascii.eqb s2 "-"
             && (1 <=? y) && (1 <=? m) && (m <=? 12)
             && (1 <=? d) && (d <=? days_in_month y m)
          then Some (mkDate (ymd2ord y m d) s)
          else None
      | _, _, _, _ => None
      end
  | _ => None
  end.

End Datetime.

Module Examples.

(** 10 March 2024 *)
Definition today : date := mkDate (Datetime.ymd2ord 2024 3 10) "2024-03-10".

(** an element that is displayed and can be acted on *)
Definition shown (t : string) : elem := mkElem (Ok true) t (Ok tt).

(** a profile whose h1 reads [name]: Connect opens "Add a note", the
    editor and the Send button are there *)
Definition note_page (name : string) : App.Page :=
  App.mkPage (Ok tt) (Ok name)
    [App.mkSnapshot (Ok [shown name]) (Ok name)]
    (Ok [shown "Connect"])
    (fun _ => App.mkNotePoll (Ok [shown "Add a note"]) (Ok []))
    (Ok []) (Ok []) (Ok [])
    (fun _ => Ok [shown ""])
    (fun k => match k with O => Ok (shown "Send") | _ => Raise end).

(** a profile whose h1 reads [name], with a Connect and a Message button:
    Connect is clicked and neither "Add a note" nor an editor ever shows *)
Definition no_note_page (name : string) : App.Page :=
  App.mkPage (Ok tt) (Ok name)
    [App.mkSnapshot (Ok [shown name]) (Ok name)]
    (Ok [shown "Connect"])
    (fun _ => App.mkNotePoll (Ok []) (Ok []))
    (Ok [shown "Message"]) (Ok []) (Ok [shown name])
    (fun _ => Ok [shown ""])
    (fun k => match k with O => Ok (shown "Send") | _ => Raise end).

(** a profile of a first-degree connection: no Connect button, a Message
    button, and a thread whose header reads [name] *)
Definition message_page (name : string) : App.Page :=
  App.mkPage (Ok tt) (Ok name)
    [App.mkSnapshot (Ok [shown name]) (Ok name)]
    (Ok [])
    (fun _ => App.mkNotePoll (Ok []) (Ok []))
    (Ok [shown "Message"]) (Ok []) (Ok [shown name])
    (fun _ => Ok [shown ""])
    (fun k => match k with O => Ok (shown "Send") | _ => Raise end).

(** a page that is not a profile: no h1, and at both polls a header and a
    body that read [other] *)
Definition wrong_page (other : string) : App.Page :=
  App.mkPage (Ok tt) Raise
    [App.mkSnapshot (Ok [shown other]) (Ok other);
     App.mkSnapshot (Ok [shown other]) (Ok other)]
    (Ok [shown "Connect"])
    (fun _ => App.mkNotePoll (Ok [shown "Add a note"]) (Ok []))
    (Ok []) (Ok []) (Ok [])
    (fun _ => Ok [shown ""])
    (fun k => match k with O => Ok (shown "Send") | _ => Raise end).

(** a pending row *)
Definition pending (name url : string) : Row :=
  mkRow name "Data Analyst" "Acme" url "pending" "" "" "" "Auto-filled from applied job"
        "https://jobright.ai/jobs/info/1".

(** a row whose first message went out on [last] *)
Definition contacted (name url last : string) : Row :=
  mkRow name "Data Analyst" "Acme" url "connected" "TRUE" "" last
        "Auto-filled from applied job" "https://jobright.ai/jobs/info/1".

Definition alice : Row := pending "Alice Smith" "https://www.linkedin.com/in/alice".
Definition carol : Row := pending "Carol Diaz" "https://www.linkedin.com/in/carol".

(** [n] copies of the character [c] *)
Fixpoint copies (n : nat) (c : ascii) : string :=
  match n with
  | O => EmptyString
  | S k => String c (copies k c)
  end.

(** a company name of 257 characters with a space where the cut of the
    first short note for the name "A" falls just after *)
Definition long_company : string := copies 254 "x" +:+ " yz".

(** a page of the stand-alone bot on which the connect flow goes through *)
Definition bot_page : Bot.Page :=
  Bot.mkPage (Ok tt) (Ok (shown "Connect")) (Ok (shown "Add a note"))
    (Ok [shown ""])
    (fun k => match k with O => Ok (shown "Send") | _ => Raise end)
    Raise Raise Raise Raise.

(** a scraped recruiter *)
Definition bob : App.Candidate :=
  App.mkCandidate "Bob Jones" "Data Analyst" "Acme"
    "https://www.linkedin.com/in/bob" "Auto-filled from JobRight".

(** the scrapers find [bob] on every page *)
Definition scraper : Autofill.Scraper :=
  Autofill.mkScraper (fun _ => Ok [bob]) (fun _ => Ok [bob]).

End Examples.

(** *** Words of further properties of the runs *)

(** two rows agree on the cells that say who the recruiter is and where
    the record came from *)
Definition same_identity (a b : Row) : Prop :=
  recruiter_name a = recruiter_name b /\ job_title a = job_title b
  /\ company a = company b /\ linkedin_url a = linkedin_url b
  /\ notes a = notes b /\ job_url a = job_url b.

(** a run keeps the rows in place: as many rows afterwards as before, and
    each keeps its identity cells *)
Definition keeps_identity {R} (sheet : Sheet) (r : Run R) : Prop :=
  length (final r) = length sheet
  /\ forall j row', final r !! j = Some row' ->
       exists row, sheet !! j = Some row /\ same_identity row row'.

(** the follow-up flag of a row is set only if its first-message flag is *)
Definition stage_ordered (r : Row) : Prop :=
  Py.upper (message2_sent r) = "TRUE" -> Py.upper (message1_sent r) = "TRUE".

(** the attempts of a run go down the sheet: their row indices increase *)
Definition in_sheet_order {R} (r : Run R) : Prop :=
  StronglySorted lt (attempted_rows r).

(** every attempt of a run is made while fewer than [quota] of the
    attempts before it counted *)
Definition within_quota {R} (counts : R -> bool) (quota : Z) (r : Run R) : Prop :=
  forall pre a post, attempts r = (pre ++ a :: post)%list ->
    Z.of_nat (length (filter (fun a => counted counts a = true) pre)) < quota.

(** an attempt that raises ends the run: it is the last attempt, and its
    row and the rows after it are as they were *)
Definition stops_at_exception {R} (sheet : Sheet) (r : Run R) : Prop :=
  forall j acts, (j, acts, Raise) ∈ attempts r ->
    raised r = true
    /\ (forall j', j' ∈ attempted_rows r -> (j' <= j)%nat)
    /\ (forall k, (j <= k)%nat -> final r !! k = sheet !! k).

(** *** Words of further properties of the messaging protocol *)

(** the full template [send_connection_message] picks *)
Definition full_template (first_message : bool) : string -> string -> string -> string :=
  if first_message then App.FIRST_MESSAGE_FULL else App.FOLLOWUP_MESSAGE_FULL.

(** the action is a click of channel discovery *)
Definition discovery_click (a : action) : Prop :=
  a = ClickConnect \/ a = ClickAddNote \/ a = ClickMessage \/ a = ClickFollow.

(** *** Words of further properties of strings *)

(** the string is empty or starts with a character that is not white
    space *)
Definition starts_nonspace (s : string) : Prop :=
  match s with
  | EmptyString => True
  | String c _ => Py.isspace c = false
  end.

(** a word of [split]: not empty, and without white space *)
Fixpoint spacefree (s : string) : Prop :=
  match s with
  | EmptyString => True
  | String c r => Py.isspace c = false /\ spacefree r
  end.

Definition is_word (s : string) : Prop := s <> "" /\ spacefree s.

(** ** Page scraping: [extract_recruiters_from_jobright] of
    [job_automation_app.py], [scrape_jobright_page] and
    [scrape_linkedin_job_page] of [autofill_from_jobright.py] *)

(** What [find_element] gives where the code handles
    [NoSuchElementException] only: the text of the element, that
    exception, or another one *)
Inductive found : Type :=
| Found (element_text : string)
| NoSuchElement
| Failed.

(** A link element as the scrapers read it, outside any [try]: what
    [get_attribute("href")] gives ([None] when the link has no such
    attribute) and what [text] gives; either may raise, as for an element
    that went stale *)
Record link : Type := mkLink {
  href : res (option string);
  link_text : res string
}.

(** What the browser answers on a job page: the navigation, the h1, the
    company element, and the links to profiles *)
Record JobPage : Type := mkJobPage {
  jp_get : res unit;
  jp_title : found;
  jp_company : found;
  jp_links : res (list link)
}.

(** [s.split(sep)[0]] for a separator of one character: what comes before
    its first occurrence, all of [s] when there is none *)
Fixpoint before (sep : ascii) (s : string) : string :=
  match s with
  | EmptyString => EmptyString
  | String c r => if Ascii.eqb c sep then EmptyString else String c (before sep r)
  end.

(** [a or b] for strings *)
Definition or_else (a b : string) : string := if Py.truthy a then a else b.

(** the text of a lookup, stripped, or [default] when there is no such
    element; [None] when the lookup raised something else *)
Definition text_or (default : string) (f : found) : option string :=
  match f with
  | Found t => Some (Py.strip t)
  | NoSuchElement => Some default
  | Failed => None
  end.

(** the loop [for link in links] of the three scrapers: [keep] is the test
    on the href, [no_name] the name used for a link without text; the
    href and the text of every link are read before the test, and an
    exception of either read ends the loop *)
Fixpoint scrape_links (keep : string -> bool) (no_name job_title company notes : string)
    (links : list link) : res (list App.Candidate) :=
  match links with
  | [] => Ok []
  | l :: rest =>
      match href l with
      | Raise => Raise
      | Ok attribute =>
          let href := match attribute with Some h => or_else h "" | None => "" end in
          match link_text l with
          | Raise => Raise
          | Ok t =>
              let name := Py.strip t in
              if negb (keep href)
              then scrape_links keep no_name job_title company notes rest
              else
                match scrape_links keep no_name job_title company notes rest with
                | Raise => Raise
                | Ok recruiters =>
                    Ok (App.mkCandidate (or_else name no_name) job_title company
                          (before "?" href) notes :: recruiters)
                end
          end
      end
  end.

Module AppScrape.

Definition extract_recruiters_from_jobright (p : JobPage) : res (list App.Candidate) :=
  match jp_get p with
  | Raise => Raise
  | Ok _ =>
      match text_or "Data Analyst" (jp_title p), text_or "" (jp_company p) with
      | Some job_title, Some company =>
          match jp_links p with
          | Raise => Raise
          | Ok [] => Ok []
          | Ok links =>
              scrape_links (fun href => Py.contains "/in/" href) "Hiring Team"
                job_title company "Auto-filled from applied job" links
          end
      | _, _ => Raise
      end
  end.

End AppScrape.

Module AutofillScrape.

Definition profile_prefix : string := "https://www.linkedin.com/in/".

Definition scrape_jobright_page (p : JobPage) : res (list App.Candidate) :=
  match jp_get p with
  | Raise => Raise
  | Ok _ =>
      match text_or "Data Analyst" (jp_title p), text_or "" (jp_company p) with
      | Some job_title, Some company =>
          match jp_links p with
          | Raise => Raise
          | Ok [] => Ok []
          | Ok links =>
              scrape_links (String.prefix profile_prefix) "Recruiter"
                (or_else job_title "Recruiter") company
                "Auto-filled from JobRight" links
          end
      | _, _ => Raise
      end
  end.

Definition scrape_linkedin_job_page (p : JobPage) : res (list App.Candidate) :=
  match jp_get p with
  | Raise => Raise
  | Ok _ =>
      match text_or "Data Analyst" (jp_title p), text_or "" (jp_company p) with
      | Some job_title, Some company =>
          match jp_links p with
          | Raise => Raise
          | Ok [] => Ok []
          | Ok links =>
              scrape_links (String.prefix profile_prefix) "Hiring Manager"
                job_title company "Auto-filled from LinkedIn job" links
          end
      | _, _ => Raise
      end
  end.

(** the scrapers of [main], on the pages the browser shows for the URLs
    entered *)
Definition scraper (pages : nat -> JobPage) : Autofill.Scraper :=
  Autofill.mkScraper (fun k => scrape_jobright_page (pages k))
                     (fun k => scrape_linkedin_job_page (pages k)).

End AutofillScrape.

(** the string has no character [c] *)
Fixpoint lacks (c : ascii) (s : string) : Prop :=
  match s with
  | EmptyString => True
  | String a r => a <> c /\ lacks c r
  end.


(** the href and the text of the link can both be read *)
Definition readable (l : link) : Prop :=
  (exists attribute, href l = Ok attribute) /\ exists t, link_text l = Ok t.

(** reading the href or the text of the link raises *)
Definition unreadable (l : link) : Prop :=
  href l = Raise \/ link_text l = Raise.

(** the href of a link as the scrapers use it:
    [link.get_attribute("href") or ""] *)
Definition href_of (l : link) : string :=
  match href l with Ok (Some h) => h | _ => "" end.

(** the text of a link *)
Definition text_of (l : link) : string :=
  match link_text l with Ok t => t | Raise => "" end.

(** the candidate [rec] is what the scrapers build from the link [l]: the
    link's text, stripped, as the name ([no_name] when that is empty), and
    the href up to its first question mark as the profile link *)
Definition from_link (no_name : string) (l : link) (rec : App.Candidate) : Prop :=
  readable l
  /\ App.cand_recruiter_name rec = or_else (Py.strip (text_of l)) no_name
  /\ App.cand_linkedin_url rec = before "?" (href_of l).

(** The three page scrapers, each with its test on the href and the name
    it gives a link without text *)
Definition page_scrapers
    : list ((JobPage -> res (list App.Candidate)) * (string -> bool) * string) :=
  [ (AppScrape.extract_recruiters_from_jobright,
     (fun href => Py.contains "/in/" href), "Hiring Team");
    (AutofillScrape.scrape_jobright_page,
     String.prefix AutofillScrape.profile_prefix, "Recruiter");
    (AutofillScrape.scrape_linkedin_job_page,
     String.prefix AutofillScrape.profile_prefix, "Hiring Manager") ].

(** what makes a scraper raise: the navigation, a lookup of the title or
    the company that fails otherwise than by [NoSuchElementException], the
    lookup of the links, or the reading of one of the links found *)
Definition lookup_failed (p : JobPage) : Prop :=
  jp_get p = Raise \/ jp_title p = Failed \/ jp_company p = Failed
  \/ jp_links p = Raise
  \/ exists links l, jp_links p = Ok links /\ l ∈ links /\ unreadable l.

(** the URLs [run_extract_recruiters] reads from the lines of its file *)
Definition urls_of (lines : list string) : list string :=
  filter (fun u => Py.truthy u = true) (map Py.strip lines).

(** the row [row] was appended for a candidate that [extract] returned
    for one of [urls], with that URL as its job link *)
Definition ingested_from (extract : nat -> res (list App.Candidate))
    (urls : list string) (row : Row) : Prop :=
  exists k url recs rec,
    urls !! k = Some url /\ extract k = Ok recs /\ rec ∈ recs
    /\ Py.strip (App.cand_linkedin_url rec) <> ""
    /\ row = App.new_row rec url.






(** a job page for the examples: a title, no company element, and three
    links, of which the first goes to a profile *)
Definition job_page_example : JobPage :=
  mkJobPage (Ok tt) (Found " Data Analyst ") NoSuchElement
    (Ok [mkLink (Ok (Some "https://www.linkedin.com/in/bob?trk=job")) (Ok " Bob Jones ");
         mkLink (Ok (Some "https://www.linkedin.com/company/acme")) (Ok "Acme");
         mkLink (Ok None) (Ok "")]).

(** a job page on which the second link goes stale before its text is
    read *)
Definition stale_job_page : JobPage :=
  mkJobPage (Ok tt) (Found "Data Analyst") (Found "Acme")
    (Ok [mkLink (Ok (Some "https://www.linkedin.com/in/bob")) (Ok "Bob Jones");
         mkLink (Ok (Some "https://www.linkedin.com/in/eve")) Raise]).

(** 12 March 2024 *)
Definition two_days_later : date := mkDate (Datetime.ymd2ord 2024 3 12) "2024-03-12".


(** [s.isascii()]: every character is below 128.  [Py.lower] and
    [Py.upper] are Python's on such text; Python also maps letters
    outside ASCII, which they leave as they are. *)
Fixpoint isascii (s : string) : bool :=
  match s with
  | EmptyString => true
  | String c r => Nat.ltb (nat_of_ascii c) 128 && isascii r
  end.





(** *** Words of the stopping rule of a run *)

(** the attempts of a run on the rows before row [j] *)
Definition attempts_before {R} (r : Run R) (j : nat) : list (Attempt R) :=
  filter (fun a : Attempt R => (fst (fst a) < j)%nat) (attempts r).

(** no attempt on a row before row [j] raised *)
Definition none_raised_before {R} (r : Run R) (j : nat) : Prop :=
  forall i acts, (i, acts, Raise) ∈ attempts r -> (j <= i)%nat.

(** Only a sent message uses up quota: an eligible row is attempted
    exactly when fewer than [Q] of the attempts on the rows before it were
    sent, however many of them were skipped for safety or found
    unreachable. *)
Definition only_sent_counts (Q : Z) (eligible : Row -> bool) (sheet : Sheet)
    (r : Run result) : Prop :=
  forall j row, sheet !! j = Some row -> eligible row = true ->
    none_raised_before r j ->
    (j ∈ attempted_rows r <->
     Z.of_nat (length (sent_attempts (attempts_before r j))) < Q).

(** a pending row without a profile link: every attempt on it is
    reported unreachable *)
Definition row_without_link : Row :=
  mkRow "Hiring Team" "Data Analyst" "Acme" "" "pending" "" "" "" "" "".


(** a profile with a Connect and a Message button on which, after the
    click on Connect, the lookup of the editor raises *)
Definition editor_raises_page (name : string) : App.Page :=
  App.mkPage (Ok tt) (Ok name)
    [App.mkSnapshot (Ok [Examples.shown name]) (Ok name)]
    (Ok [Examples.shown "Connect"])
    (fun _ => App.mkNotePoll (Ok []) Raise)
    (Ok [Examples.shown "Message"]) (Ok []) (Ok [Examples.shown name])
    (fun _ => Ok [Examples.shown ""])
    (fun k => match k with O => Ok (Examples.shown "Send") | _ => Raise end).

(** * Properties *)

(** ** Strings *)

Section StringFacts.

Lemma app_cons (c : ascii) (a b : string) : String c a +:+ b = String c (a +:+ b).
Proof. reflexivity. Qed.

Lemma app_empty (b : string) : "" +:+ b = b.
Proof. reflexivity. Qed.

Lemma length_app (a b : string) :
  String.length (a +:+ b) = (String.length a + String.length b)%nat.
Proof.
  induction a as [|c a IH]; [reflexivity|].
  rewrite app_cons. simpl. now rewrite IH.
Qed.

Lemma length_take_chars (n : nat) (s : string) :
  String.length (Py.take_chars n s) = Nat.min n (String.length s).
Proof.
  revert s. induction n as [|n IH]; intros [|c r]; simpl; try reflexivity.
  now rewrite IH.
Qed.

Lemma length_rstrip (s : string) :
  (String.length (Py.rstrip s) <= String.length s)%nat.
Proof.
  induction s as [|c r IH]; simpl; [lia|].
  destruct (Py.rstrip r) eqn:E.
  - destruct (Py.isspace c); simpl; lia.
  - simpl in *. lia.
Qed.

Lemma rstrip_last_nonspace (s : string) (c : ascii) :
  last_char s = Some c -> Py.isspace c = false -> Py.rstrip s = s.
Proof.
  induction s as [|a r IH]; [discriminate|].
  intros Hl Hc. simpl in Hl. destruct r as [|b r'].
  - inversion Hl; subst. simpl. now rewrite Hc.
  - specialize (IH Hl Hc). change (Py.rstrip (String a (String b r')))
      with (match Py.rstrip (String b r') with
            | EmptyString => if Py.isspace a then EmptyString else String a EmptyString
            | r0 => String a r0 end).
    now rewrite IH.
Qed.

Lemma rstrip_last_space (s : string) (c : ascii) :
  last_char s = Some c -> Py.isspace c = true ->
  (String.length (Py.rstrip s) < String.length s)%nat.
Proof.
  induction s as [|a r IH]; [discriminate|].
  intros Hl Hc. simpl in Hl. destruct r as [|b r'].
  - inversion Hl; subst. simpl. rewrite Hc. simpl. lia.
  - specialize (IH Hl Hc). change (Py.rstrip (String a (String b r')))
      with (match Py.rstrip (String b r') with
            | EmptyString => if Py.isspace a then EmptyString else String a EmptyString
            | r0 => String a r0 end).
    destruct (Py.rstrip (String b r')) eqn:E.
    + destruct (Py.isspace a); simpl; lia.
    + simpl in *. lia.
Qed.

Lemma last_char_take (n : nat) (s : string) :
  (n < String.length s)%nat ->
  last_char (Py.take_chars (S n) s) = String.get n s.
Proof.
  revert s. induction n as [|n IH]; intros [|c r] H; simpl in H; try lia.
  - simpl. now destruct r.
  - specialize (IH r ltac:(lia)).
    change (Py.take_chars (S (S n)) (String c r))
      with (String c (Py.take_chars (S n) r)).
    simpl String.get. rewrite <- IH.
    destruct r as [|b r']; [simpl in H; lia|]. reflexivity.
Qed.

Lemma get_in_range (n : nat) (s : string) :
  (n < String.length s)%nat -> exists c, String.get n s = Some c.
Proof.
  revert n. induction s as [|a r IH]; intros n H; simpl in H; [lia|].
  destruct n as [|n]; simpl; [eauto|]. apply IH. lia.
Qed.

Lemma rstrip_app_r (a b : string) :
  Py.rstrip b = b -> b <> "" ->
  Py.rstrip (a +:+ b) = a +:+ b /\ a +:+ b <> "".
Proof.
  intros Hb Hne. induction a as [|c a [IH1 IH2]]; [now rewrite app_empty|].
  rewrite app_cons. split; [|discriminate].
  simpl. rewrite IH1. destruct (a +:+ b); [congruence|reflexivity].
Qed.

End StringFacts.

(** ** The note safety net *)

Section NoteLimit.

(** Both short templates start with "Hi" and end with "Akhil": formatted,
    they have no white space to strip at either end. *)
Lemma short_template_stripped (first_message : bool) (name job_title company : string) :
  Py.strip (short_template first_message name job_title company)
  = short_template first_message name job_title company.
Proof.
  unfold Py.strip.
  destruct first_message; unfold short_template, App.FIRST_MESSAGE_SHORT,
    App.FOLLOWUP_MESSAGE_SHORT.
  all: match goal with
       | |- Py.rstrip (Py.lstrip (?h +:+ ?t)) = _ =>
           change (Py.lstrip (h +:+ t)) with (h +:+ t)
       end.
  all: repeat (apply rstrip_app_r); try discriminate; reflexivity.
Qed.

(** what [shorten_for_note] does to text that has nothing to strip *)
Lemma shorten_stripped (t : string) (limit : Z) :
  3 <= limit -> Py.strip t = t ->
  (Py.len t <= limit -> shorten_for_note t limit = t) /\
  (limit < Py.len t ->
     shorten_for_note t limit
       = Py.rstrip (Py.take_chars (Z.to_nat (limit - 3)) t) +:+ "..."
     /\ Py.len (shorten_for_note t limit) <= limit
     /\ (Py.len (shorten_for_note t limit) = limit <->
         limit = 3 \/
         exists c, String.get (Z.to_nat (limit - 4)) t = Some c
                   /\ Py.isspace c = false)).
Proof.
  intros Hl Hs. unfold shorten_for_note. rewrite Hs. split.
  - intros H. destruct (Z.leb_spec (Py.len t) limit); [reflexivity|lia].
  - intros H. destruct (Z.leb_spec (Py.len t) limit); [lia|].
    unfold Py.slice_to. destruct (Z.leb_spec 0 (limit - 3)); [|lia].
    split; [reflexivity|].
    unfold Py.len in *. rewrite length_app.
    pose proof (length_rstrip (Py.take_chars (Z.to_nat (limit - 3)) t)) as Hr.
    rewrite length_take_chars in Hr. change (String.length "...") with 3%nat.
    split; [lia|].
    destruct (Z.eq_dec limit 3) as [->|Hne].
    { simpl. split; auto. }
    assert (Hn : Z.to_nat (limit - 3) = S (Z.to_nat (limit - 4))) by lia.
    assert (Hlt : (Z.to_nat (limit - 4) < String.length t)%nat) by lia.
    pose proof (last_char_take _ _ Hlt) as Hlast. rewrite <- Hn in Hlast.
    destruct (get_in_range _ _ Hlt) as (c & Hg). rewrite Hg in Hlast |- *.
    destruct (Py.isspace c) eqn:Hc.
    + pose proof (rstrip_last_space _ _ Hlast Hc) as Hs'.
      rewrite length_take_chars in Hs'.
      split; [intros ?; exfalso; lia|]. intros [?|(c' & Hc' & Hsp)]; [lia|congruence].
    + rewrite (rstrip_last_nonspace _ _ Hlast Hc), length_take_chars.
      split; [|lia]. intros _. right. eauto.
Qed.

End NoteLimit.

(** ** The run loops *)

Section LoopFacts.

Context {R : Type}.
Variable quota : Z.
Variable eligible : Row -> bool.
Variable send : nat -> Row -> M R.
Variable counts : R -> bool.
Variable writes : R -> list (Column * string).

Lemma update_row_nil (sheet : Sheet) (i : nat) : update_row sheet i [] = sheet.
Proof. unfold update_row. now apply list_alter_id. Qed.

Lemma update_row_lookup (sheet : Sheet) (i : nat) kwargs :
  update_row sheet i kwargs !! i = write_cells kwargs <$> sheet !! i.
Proof. unfold update_row. apply list_lookup_alter_eq. Qed.

Lemma update_row_lookup_ne (sheet : Sheet) (i j : nat) kwargs :
  i <> j -> update_row sheet i kwargs !! j = sheet !! j.
Proof. intros. unfold update_row. now apply list_lookup_alter_ne. Qed.

(** An attempt is made on an eligible row of the records, at its own
    index, and records what [send] gave there. *)
Lemma loop_attempt (i : nat) (records : list Row) (count : Z) (sheet : Sheet)
    (j : nat) (acts : list action) (r : res R) :
  (j, acts, r) ∈ attempts (loop quota eligible send counts writes i records count sheet) ->
  (i <= j)%nat /\
  exists row, records !! (j - i)%nat = Some row /\ eligible row = true
              /\ send j row = (acts, r).
Proof.
  revert i count sheet. induction records as [|row rest IH]; intros i count sheet; simpl.
  { intros H. now apply elem_of_nil in H. }
  destruct (quota <=? count); [intros H; now apply elem_of_nil in H|].
  destruct (eligible row) eqn:He.
  - destruct (send i row) as [a [x|]] eqn:Hs; simpl.
    + intros [H|H]%elem_of_cons.
      * inversion H; subst. split; [lia|]. exists row.
        replace (i - i)%nat with 0%nat by lia. auto.
      * apply IH in H as (Hle & row' & Hl & He' & Hs'). split; [lia|].
        exists row'. replace (j - i)%nat with (S (j - S i)) by lia. auto.
    + intros H%list_elem_of_singleton. inversion H; subst. split; [lia|].
      exists row. replace (i - i)%nat with 0%nat by lia. auto.
  - intros H. apply IH in H as (Hle & row' & Hl & He' & Hs'). split; [lia|].
    exists row'. replace (j - i)%nat with (S (j - S i)) by lia. auto.
Qed.

(** No row is attempted twice in a run. *)
Lemma loop_attempts_NoDup (i : nat) (records : list Row) (count : Z) (sheet : Sheet) :
  NoDup (attempted_rows (loop quota eligible send counts writes i records count sheet)).
Proof.
  unfold attempted_rows.
  revert i count sheet. induction records as [|row rest IH]; intros i count sheet; simpl.
  { constructor. }
  destruct (quota <=? count); [constructor|].
  destruct (eligible row); [|apply IH].
  destruct (send i row) as [a [x|]]; simpl.
  - apply NoDup_cons. split; [|apply IH].
    intros ([[j acts] r] & Hj & Hin)%list_elem_of_fmap. simpl in Hj. subst j.
    apply loop_attempt in Hin. lia.
  - apply NoDup_singleton.
Qed.

(** The attempts that count never exceed what is left of the quota. *)
Lemma loop_quota (i : nat) (records : list Row) (count : Z) (sheet : Sheet) :
  Z.of_nat (length (filter (fun a => counted counts a = true)
                      (attempts (loop quota eligible send counts writes i records count sheet))))
  <= Z.max 0 (quota - count).
Proof.
  revert i count sheet. induction records as [|row rest IH]; intros i count sheet; simpl.
  { simpl. lia. }
  destruct (Z.leb_spec quota count); [simpl; lia|].
  destruct (eligible row).
  - destruct (send i row) as [a [x|]]; unfold attempted; cbn [attempts].
    + rewrite filter_cons. cbn [counted]. destruct (counts x) eqn:Hc.
      * rewrite decide_True by reflexivity.
        specialize (IH (S i) (count + 1) (update_row sheet i (writes x))).
        cbn [length]. lia.
      * rewrite decide_False by discriminate.
        specialize (IH (S i) count (update_row sheet i (writes x))). lia.
    + rewrite filter_cons. cbn [counted]. rewrite decide_False by discriminate.
      simpl. lia.
  - specialize (IH (S i) count sheet). lia.
Qed.

(** The loop from index [i] on leaves the rows before [i] alone. *)
Lemma loop_final_before (i : nat) (records : list Row) (count : Z) (sheet : Sheet)
    (j : nat) :
  (j < i)%nat ->
  final (loop quota eligible send counts writes i records count sheet) !! j = sheet !! j.
Proof.
  revert i count sheet. induction records as [|row rest IH]; intros i count sheet Hj; simpl.
  { reflexivity. }
  destruct (quota <=? count); [reflexivity|].
  destruct (eligible row); [|apply IH; lia].
  destruct (send i row) as [a [x|]]; simpl; [|reflexivity].
  rewrite IH by lia. apply update_row_lookup_ne. lia.
Qed.

(** The row of an attempt that returned [r] holds [writes r] afterwards. *)
Lemma loop_final_attempt (i : nat) (records : list Row) (count : Z) (sheet : Sheet)
    (j : nat) (acts : list action) (r : R) :
  (j, acts, Ok r) ∈ attempts (loop quota eligible send counts writes i records count sheet) ->
  final (loop quota eligible send counts writes i records count sheet) !! j
  = write_cells (writes r) <$> sheet !! j.
Proof.
  revert i count sheet. induction records as [|row rest IH]; intros i count sheet; simpl.
  { intros H. now apply elem_of_nil in H. }
  destruct (quota <=? count); [intros H; now apply elem_of_nil in H|].
  destruct (eligible row); [|apply IH].
  destruct (send i row) as [a [x|]]; simpl.
  - intros [H|H]%elem_of_cons.
    + inversion H; subst. rewrite loop_final_before by lia.
      apply update_row_lookup.
    + pose proof (loop_attempt _ _ _ _ _ _ _ H) as [Hle _].
      rewrite (IH _ _ _ H). rewrite update_row_lookup_ne by lia. reflexivity.
  - intros H%list_elem_of_singleton. inversion H.
Qed.

(** A row is left as it was unless an attempt on it returned something
    that writes. *)
Lemma loop_final_unwritten (i : nat) (records : list Row) (count : Z) (sheet : Sheet)
    (j : nat) :
  (forall acts r,
     (j, acts, Ok r) ∈ attempts (loop quota eligible send counts writes i records count sheet) ->
                  writes r = []) ->
  final (loop quota eligible send counts writes i records count sheet) !! j = sheet !! j.
Proof.
  revert i count sheet. induction records as [|row rest IH]; intros i count sheet; simpl.
  { reflexivity. }
  destruct (quota <=? count); [reflexivity|].
  destruct (eligible row); [|apply IH].
  destruct (send i row) as [a [x|]]; simpl; [|reflexivity].
  intros H. rewrite IH.
  - destruct (Nat.eq_dec i j) as [->|Hne].
    + rewrite (H a x) by (apply elem_of_cons; auto). now rewrite update_row_nil.
    + now apply update_row_lookup_ne.
  - intros acts r Hin. apply (H acts r). apply elem_of_cons. auto.
Qed.

(** A run ends with an exception only when a send attempt raised. *)
Lemma loop_raised (i : nat) (records : list Row) (count : Z) (sheet : Sheet) :
  raised (loop quota eligible send counts writes i records count sheet) = true ->
  exists j acts,
    (j, acts, Raise) ∈ attempts (loop quota eligible send counts writes i records count sheet).
Proof.
  revert i count sheet. induction records as [|row rest IH]; intros i count sheet; simpl.
  { discriminate. }
  destruct (quota <=? count); [discriminate|].
  destruct (eligible row); [|apply IH].
  destruct (send i row) as [a [x|]]; simpl.
  - intros H. apply IH in H as (j & acts & H). exists j, acts.
    apply elem_of_cons. auto.
  - intros _. exists i, a. now apply list_elem_of_singleton.
Qed.

(** the attempts of the loop from index [i] on are on rows from [i] on *)
Lemma loop_attempts_before_nil (i : nat) (records : list Row) (count : Z)
    (sheet : Sheet) (j : nat) :
  (j <= i)%nat ->
  attempts_before (loop quota eligible send counts writes i records count sheet) j = [].
Proof.
  intros Hle. unfold attempts_before.
  set (L := loop quota eligible send counts writes i records count sheet).
  assert (H : Forall (fun a : Attempt R => ~ (fst (fst a) < j)%nat) (attempts L)).
  { apply Forall_forall. intros [[j' acts] r] Hin. apply loop_attempt in Hin.
    cbn. lia. }
  induction H as [|a l Ha _ IH]; [reflexivity|].
  now rewrite filter_cons_False.
Qed.

(** The stopping rule: the eligible row at place [k] of the records is
    attempted exactly when the count so far and the counted attempts on
    the rows before it stay below the quota, provided no attempt before it
    raised. *)
Lemma loop_stopping_rule (records : list Row) :
  forall (i : nat) (count : Z) (sheet : Sheet) (k : nat) (row : Row),
  records !! k = Some row -> eligible row = true ->
  none_raised_before (loop quota eligible send counts writes i records count sheet)
    (i + k) ->
  ((i + k)%nat
     ∈ attempted_rows (loop quota eligible send counts writes i records count sheet)
   <->
   count + Z.of_nat (length (filter (fun a => counted counts a = true)
                       (attempts_before
                          (loop quota eligible send counts writes i records count sheet)
                          (i + k)))) < quota).
Proof.
  induction records as [|row0 rest IH]; intros i count sheet k row Hk He Hnone;
    [discriminate|].
  revert Hnone. cbn [loop]. destruct (Z.leb_spec quota count) as [Hq|Hq].
  { intros _. unfold attempted_rows, attempts_before. cbn.
    split; [intros H; now apply elem_of_nil in H|lia]. }
  destruct k as [|k].
  - injection Hk as ->. rewrite He, Nat.add_0_r.
    destruct (send i row) as [acts [x|]]; intros _.
    + unfold attempted_rows, attempts_before, attempted. cbn [attempts].
      rewrite filter_cons_False by (cbn; lia).
      fold (attempts_before
              (loop quota eligible send counts writes (S i) rest
                 (if counts x then count + 1 else count)
                 (update_row sheet i (writes x))) i).
      rewrite loop_attempts_before_nil by lia. cbn.
      split; [lia|]. intros _. apply list_elem_of_here.
    + unfold attempted_rows, attempts_before. cbn [attempts].
      rewrite filter_cons_False by (cbn; lia). cbn.
      split; [lia|]. intros _. apply list_elem_of_here.
  - cbn in Hk. replace (i + S k)%nat with (S i + k)%nat by lia.
    destruct (eligible row0).
    + destruct (send i row0) as [acts [x|]].
      * intros Hnone.
        set (L := loop quota eligible send counts writes (S i) rest
                    (if counts x then count + 1 else count)
                    (update_row sheet i (writes x))).
        assert (Hnone' : none_raised_before L (S i + k)).
        { intros j a Hin. apply (Hnone j a). unfold attempted. cbn [attempts].
          now apply list_elem_of_further. }
        pose proof (IH (S i) (if counts x then count + 1 else count)
                      (update_row sheet i (writes x)) k row Hk He Hnone') as Hiff.
        fold L in Hiff.
        unfold attempted_rows, attempts_before, attempted. cbn [attempts].
        rewrite filter_cons_True by (cbn; lia). cbn [map fst].
        fold (attempts_before L (S i + k)).
        change (map (fun a : Attempt R => fst (fst a)) (attempts L))
          with (attempted_rows L).
        rewrite elem_of_cons.
        destruct (counts x) eqn:Hc.
        -- rewrite filter_cons_True by (cbn [counted]; exact Hc). cbn [length].
           split.
           ++ intros [H|H]; [lia|]. apply Hiff in H. lia.
           ++ intros H. right. apply Hiff. lia.
        -- rewrite filter_cons_False by (cbn [counted]; rewrite Hc; discriminate).
           split.
           ++ intros [H|H]; [lia|]. now apply Hiff.
           ++ intros H. right. now apply Hiff.
      * intros Hnone. exfalso.
        specialize (Hnone i acts (list_elem_of_here _ _)). lia.
    + intros Hnone. exact (IH (S i) count sheet k row Hk He Hnone).
Qed.

End LoopFacts.

(** ** The loops of the source are instances of [loop] *)

Section Instances.

Variable DAILY_MAX_FIRST : Z.
Variable DAILY_MAX_FOLLOWUPS : Z.
Variable fromisoformat : string -> option date.
Variable today : date.

Lemma app_first_loop_eq (pages : nat -> App.Page) i records count sheet :
  App.first_loop DAILY_MAX_FIRST today pages i records count sheet
  = loop DAILY_MAX_FIRST first_eligible
      (fun i row => App.send_connection_message (pages i) row true)
      is_true (app_first_writes today) i records count sheet.
Proof.
  revert i count sheet. induction records as [|row rest IH]; intros i count sheet;
    [reflexivity|].
  cbn [App.first_loop loop]. destruct (DAILY_MAX_FIRST <=? count); [reflexivity|].
  fold (first_eligible row). destruct (first_eligible row); [|apply IH].
  destruct (App.send_connection_message (pages i) row true) as [a [[]|]];
    cbn [is_true app_first_writes]; rewrite ?IH, ?update_row_nil; reflexivity.
Qed.

Lemma followup_eligible_split days_wait row :
  followup_eligible fromisoformat today days_wait row
  = (Py.mem (Py.lower (status row)) ["pending"; "connected"]
     && String.eqb (Py.upper (message1_sent row)) "TRUE"
     && negb (String.eqb (Py.upper (message2_sent row)) "TRUE")
     && Py.truthy (last_contacted row))
    && match fromisoformat (last_contacted row) with
       | None => false
       | Some last_date => days_wait <=? toordinal today - toordinal last_date
       end.
Proof. reflexivity. Qed.

Lemma app_followup_loop_eq (pages : nat -> App.Page) days_wait i records count sheet :
  App.followup_loop DAILY_MAX_FOLLOWUPS fromisoformat today pages days_wait
    i records count sheet
  = loop DAILY_MAX_FOLLOWUPS (followup_eligible fromisoformat today days_wait)
      (fun i row => App.send_connection_message (pages i) row false)
      is_true (app_followup_writes today) i records count sheet.
Proof.
  revert i count sheet. induction records as [|row rest IH]; intros i count sheet;
    [reflexivity|].
  cbn [App.followup_loop loop]. destruct (DAILY_MAX_FOLLOWUPS <=? count); [reflexivity|].
  rewrite followup_eligible_split.
  destruct (Py.mem (Py.lower (status row)) ["pending"; "connected"]
            && String.eqb (Py.upper (message1_sent row)) "TRUE"
            && negb (String.eqb (Py.upper (message2_sent row)) "TRUE")
            && Py.truthy (last_contacted row)); [|apply IH].
  cbn [andb]. destruct (fromisoformat (last_contacted row)) as [last_date|]; [|apply IH].
  destruct (days_wait <=? toordinal today - toordinal last_date); [|apply IH].
  destruct (App.send_connection_message (pages i) row false) as [a [[]|]];
    cbn [is_true app_followup_writes]; rewrite ?IH, ?update_row_nil; reflexivity.
Qed.

Lemma bot_first_loop_eq (pages : nat -> Bot.Page) i records count sheet :
  Bot.first_loop DAILY_MAX_FIRST today pages i records count sheet
  = loop DAILY_MAX_FIRST first_eligible
      (fun i row => Bot.send_connection_message (pages i) row true)
      (fun success : bool => success) (bot_first_writes today) i records count sheet.
Proof.
  revert i count sheet. induction records as [|row rest IH]; intros i count sheet;
    [reflexivity|].
  cbn [Bot.first_loop loop]. destruct (DAILY_MAX_FIRST <=? count); [reflexivity|].
  fold (first_eligible row). destruct (first_eligible row); [|apply IH].
  destruct (Bot.send_connection_message (pages i) row true) as [a [[]|]];
    cbn [bot_first_writes]; rewrite ?IH, ?update_row_nil; reflexivity.
Qed.

Lemma bot_followup_loop_eq (pages : nat -> Bot.Page) days_wait i records count sheet :
  Bot.followup_loop DAILY_MAX_FOLLOWUPS fromisoformat today pages days_wait
    i records count sheet
  = loop DAILY_MAX_FOLLOWUPS (followup_eligible fromisoformat today days_wait)
      (fun i row => Bot.send_connection_message (pages i) row false)
      (fun success : bool => success) (bot_followup_writes today) i records count sheet.
Proof.
  revert i count sheet. induction records as [|row rest IH]; intros i count sheet;
    [reflexivity|].
  cbn [Bot.followup_loop loop]. destruct (DAILY_MAX_FOLLOWUPS <=? count); [reflexivity|].
  rewrite followup_eligible_split.
  destruct (Py.mem (Py.lower (status row)) ["pending"; "connected"]
            && String.eqb (Py.upper (message1_sent row)) "TRUE"
            && negb (String.eqb (Py.upper (message2_sent row)) "TRUE")
            && Py.truthy (last_contacted row)); [|apply IH].
  cbn [andb]. destruct (fromisoformat (last_contacted row)) as [last_date|]; [|apply IH].
  destruct (days_wait <=? toordinal today - toordinal last_date); [|apply IH].
  destruct (Bot.send_connection_message (pages i) row false) as [a [[]|]];
    cbn [bot_followup_writes]; rewrite ?IH, ?update_row_nil; reflexivity.
Qed.

End Instances.

(** ** What the runs do *)

Section RunFacts.

Variable DAILY_MAX_FIRST : Z.
Variable DAILY_MAX_FOLLOWUPS : Z.
Variable fromisoformat : string -> option date.
Variable today : date.

Lemma attempted_rows_elem {R} (r : Run R) (j : nat) :
  j ∈ attempted_rows r <-> exists acts x, (j, acts, x) ∈ attempts r.
Proof.
  unfold attempted_rows. rewrite list_elem_of_fmap. split.
  - intros ([[k acts] x] & -> & H). eauto.
  - intros (acts & x & H). exists (j, acts, x). auto.
Qed.

(** a loop passes over the rows that are not eligible *)
Lemma loop_passes_over {R} quota eligible (send : nat -> Row -> M R) counts writes
    (P : Row -> Prop) (sheet : Sheet) :
  (forall row, P row -> eligible row = false) ->
  passes_over P sheet (loop quota eligible send counts writes 0 sheet 0 sheet).
Proof.
  intros HP j row Hj Hrow.
  assert (Hno : j ∉ attempted_rows (loop quota eligible send counts writes 0 sheet 0 sheet)).
  { intros (acts & x & Hin)%attempted_rows_elem.
    apply loop_attempt in Hin as (_ & row' & Hl & He & _).
    replace (j - 0)%nat with j in Hl by lia.
    rewrite Hj in Hl. inversion Hl; subst. rewrite (HP _ Hrow) in He. discriminate. }
  split; [exact Hno|].
  rewrite loop_final_unwritten; [exact Hj|].
  intros acts x Hin. exfalso. apply Hno. apply attempted_rows_elem. eauto.
Qed.

Lemma followup_eligible_due days_wait row :
  followup_eligible fromisoformat today days_wait row = true ->
  followup_due fromisoformat today days_wait row.
Proof.
  unfold followup_eligible, followup_due, Py.mem. cbn [existsb].
  rewrite !andb_true_iff, orb_false_r, orb_true_iff, negb_true_iff, !String.eqb_eq.
  intros ((((Hs & Hm1) & Hm2) & _) & Hd).
  split; [exact Hs|]. split; [exact Hm1|]. split.
  - now apply String.eqb_neq.
  - destruct (fromisoformat (last_contacted row)) as [d|]; [|discriminate].
    exists d. split; [reflexivity|]. now apply Z.leb_le.
Qed.

Lemma not_yet_due_ineligible days_wait row :
  not_yet_due fromisoformat today days_wait row ->
  followup_eligible fromisoformat today days_wait row = false.
Proof.
  unfold followup_eligible. intros [H|(d & H & Hlt)]; rewrite H.
  - apply andb_false_r.
  - apply andb_false_iff. right. apply Z.leb_gt. exact Hlt.
Qed.

Lemma loop_follows_up_due_rows_only {R} quota (send : nat -> Row -> M R) counts writes
    days_wait (sheet : Sheet) :
  follows_up_due_rows_only fromisoformat today days_wait sheet
    (loop quota (followup_eligible fromisoformat today days_wait) send counts writes
       0 sheet 0 sheet).
Proof.
  split; [|split].
  - intros j (acts & x & Hin)%attempted_rows_elem.
    apply loop_attempt in Hin as (_ & row & Hl & He & _).
    replace (j - 0)%nat with j in Hl by lia.
    exists row. split; [exact Hl|]. now apply followup_eligible_due.
  - apply loop_passes_over. apply not_yet_due_ineligible.
  - apply loop_raised.
Qed.

(** Claim C7.  A follow-up run, of the app or of the stand-alone
    bot, attempts a row only if its status (in any letter case) is
    pending or connected, its message1_sent is TRUE, its message2_sent is
    not TRUE, its last_contacted parses as a date and today is at least
    [days_wait] days after it.  A row whose last_contacted does not parse,
    or is fewer than [days_wait] days before today, is passed over: no
    attempt, no change to the row, and no exception, since a run ends
    with one only when a send attempt raised. *)
Theorem followup_attempts_due_rows_only
    (app_pages : nat -> App.Page) (bot_pages : nat -> Bot.Page)
    (days_wait : Z) (sheet : Sheet) :
  follows_up_due_rows_only fromisoformat today days_wait sheet
    (App.run_followups DAILY_MAX_FOLLOWUPS fromisoformat today app_pages days_wait sheet)
  /\ follows_up_due_rows_only fromisoformat today days_wait sheet
       (Bot.run_followups DAILY_MAX_FOLLOWUPS fromisoformat today bot_pages days_wait sheet).
Proof.
  unfold App.run_followups, Bot.run_followups, get_rows.
  rewrite app_followup_loop_eq, bot_followup_loop_eq.
  split; apply loop_follows_up_due_rows_only.
Qed.

Lemma unreachable_not_first_eligible row :
  Py.lower (status row) = "unreachable" -> first_eligible row = false.
Proof. unfold first_eligible. now intros ->. Qed.

Lemma unreachable_not_followup_eligible days_wait row :
  Py.lower (status row) = "unreachable" ->
  followup_eligible fromisoformat today days_wait row = false.
Proof. unfold followup_eligible. now intros ->. Qed.

Lemma yes_not_first_eligible row :
  Py.upper (message1_sent row) = "YES" -> first_eligible row = false.
Proof. unfold first_eligible. intros ->. apply andb_false_r. Qed.

Lemma yes_not_followup_eligible days_wait row :
  Py.upper (message1_sent row) = "YES" ->
  followup_eligible fromisoformat today days_wait row = false.
Proof.
  unfold followup_eligible. intros ->.
  destruct (Py.mem (Py.lower (status row)) ["pending"; "connected"]); reflexivity.
Qed.

(** Claim C8.  A row whose status is unreachable (in any letter
    case) is passed over by the first-message run and by the follow-up
    run, of the app and of the stand-alone bot: no send attempt is made
    on it and it is left as it was. *)
Theorem unreachable_rows_never_attempted
    (app_pages : nat -> App.Page) (bot_pages : nat -> Bot.Page)
    (days_wait : Z) (sheet : Sheet) :
  let unreachable := fun row => Py.lower (status row) = "unreachable" in
  passes_over unreachable sheet
    (App.run_first_messages DAILY_MAX_FIRST today app_pages sheet)
  /\ passes_over unreachable sheet
       (App.run_followups DAILY_MAX_FOLLOWUPS fromisoformat today app_pages days_wait sheet)
  /\ passes_over unreachable sheet
       (Bot.run_first_messages DAILY_MAX_FIRST today bot_pages sheet)
  /\ passes_over unreachable sheet
       (Bot.run_followups DAILY_MAX_FOLLOWUPS fromisoformat today bot_pages days_wait sheet).
Proof.
  unfold App.run_first_messages, App.run_followups, Bot.run_first_messages,
    Bot.run_followups, get_rows.
  rewrite app_first_loop_eq, app_followup_loop_eq, bot_first_loop_eq,
    bot_followup_loop_eq.
  split; [|split; [|split]]; apply loop_passes_over;
    auto using unreachable_not_first_eligible, unreachable_not_followup_eligible.
Qed.

(** Claim C10.  A row whose message1_sent reads YES once put in
    upper case is passed over by the first-message run, which excludes
    TRUE and YES, and by the follow-up run, which wants exactly TRUE: no
    stage ever attempts it. *)
Theorem yes_rows_never_attempted
    (app_pages : nat -> App.Page) (bot_pages : nat -> Bot.Page)
    (days_wait : Z) (sheet : Sheet) :
  let marked_yes := fun row => Py.upper (message1_sent row) = "YES" in
  passes_over marked_yes sheet
    (App.run_first_messages DAILY_MAX_FIRST today app_pages sheet)
  /\ passes_over marked_yes sheet
       (App.run_followups DAILY_MAX_FOLLOWUPS fromisoformat today app_pages days_wait sheet)
  /\ passes_over marked_yes sheet
       (Bot.run_first_messages DAILY_MAX_FIRST today bot_pages sheet)
  /\ passes_over marked_yes sheet
       (Bot.run_followups DAILY_MAX_FOLLOWUPS fromisoformat today bot_pages days_wait sheet).
Proof.
  unfold App.run_first_messages, App.run_followups, Bot.run_first_messages,
    Bot.run_followups, get_rows.
  rewrite app_first_loop_eq, app_followup_loop_eq, bot_first_loop_eq,
    bot_followup_loop_eq.
  split; [|split; [|split]]; apply loop_passes_over;
    auto using yes_not_first_eligible, yes_not_followup_eligible.
Qed.

End RunFacts.

(** ** Quota and row updates *)

Section Outcomes.

Variable DAILY_MAX_FIRST : Z.
Variable DAILY_MAX_FOLLOWUPS : Z.
Variable fromisoformat : string -> option date.
Variable today : date.

Lemma loop_attempt_unique {R} quota eligible (send : nat -> Row -> M R) counts writes
    i records count sheet j acts1 x1 acts2 x2 :
  (j, acts1, x1) ∈ attempts (loop quota eligible send counts writes i records count sheet) ->
  (j, acts2, x2) ∈ attempts (loop quota eligible send counts writes i records count sheet) ->
  acts1 = acts2 /\ x1 = x2.
Proof.
  intros (_ & r1 & Hl1 & _ & Hs1)%loop_attempt (_ & r2 & Hl2 & _ & Hs2)%loop_attempt.
  rewrite Hl1 in Hl2. inversion Hl2; subst. rewrite Hs1 in Hs2.
  now inversion Hs2.
Qed.

(** the row of an attempt is a row of the sheet the run started from *)
Lemma loop_attempt_row {R} quota eligible (send : nat -> Row -> M R) counts writes
    (sheet : Sheet) j acts x :
  (j, acts, x) ∈ attempts (loop quota eligible send counts writes 0 sheet 0 sheet) ->
  exists row, sheet !! j = Some row /\ eligible row = true.
Proof.
  intros (_ & row & Hl & He & _)%loop_attempt.
  replace (j - 0)%nat with j in Hl by lia. eauto.
Qed.

(** a row that a first-message run of the app turned to connected is the
    row of an attempt that sent *)
Lemma turned_connected_sent (pages : nat -> App.Page) (sheet : Sheet) (j : nat) :
  let r := App.run_first_messages DAILY_MAX_FIRST today pages sheet in
  j ∈ rows_turned ["connected"] sheet (final r) ->
  j ∈ attempted_rows (mkRun (sent_attempts (attempts r)) (final r) (raised r)).
Proof.
  unfold App.run_first_messages, get_rows. rewrite app_first_loop_eq.
  set (r := loop _ _ _ _ _ _ _ _ _). cbv zeta.
  intros [Ht _]%list_elem_of_filter. unfold turned in Ht.
  destruct (sheet !! j) as [b|] eqn:Hb; [|discriminate].
  destruct (final r !! j) as [a|] eqn:Ha; [|discriminate].
  apply andb_true_iff in Ht as [Hc Hd]. unfold Py.mem in Hc. cbn [existsb] in Hc.
  rewrite orb_false_r in Hc. apply String.eqb_eq in Hc.
  apply negb_true_iff, String.eqb_neq in Hd.
  assert (Hne : final r !! j <> sheet !! j).
  { rewrite Ha, Hb. intros [= ->]. congruence. }
  destruct (decide (j ∈ attempted_rows r)) as [Hin|Hno].
  - apply attempted_rows_elem in Hin as (acts & x & Hin).
    destruct x as [[| |]|].
    + apply attempted_rows_elem. exists acts, (Ok PyTrue). cbn [attempts].
      apply list_elem_of_filter. split; [reflexivity|exact Hin].
    + exfalso. apply Hne. subst r. rewrite (loop_final_attempt _ _ _ _ _ _ _ _ _ _ _ _ Hin).
      cbn. now destruct (sheet !! j).
    + exfalso. subst r. rewrite (loop_final_attempt _ _ _ _ _ _ _ _ _ _ _ _ Hin) in Ha.
      rewrite Hb in Ha. cbn in Ha. inversion Ha; subst a. cbn in Hc. discriminate.
    + exfalso. apply Hne. subst r. apply loop_final_unwritten.
      intros acts' x' Hin'.
      destruct (loop_attempt_unique _ _ _ _ _ _ _ _ _ _ _ _ _ _ Hin Hin') as [_ ?].
      discriminate.
  - exfalso. apply Hne. subst r. apply loop_final_unwritten.
    intros acts' x' Hin'. exfalso. apply Hno. apply attempted_rows_elem. eauto.
Qed.

Lemma filter_none {A} (P : A -> Prop) `{forall x, Decision (P x)} (l : list A) :
  Forall (fun x => ~ P x) l -> filter P l = [].
Proof.
  induction 1 as [|x l Hx _ IH]; [reflexivity|]. now rewrite filter_cons_False.
Qed.

Lemma filter_all {A} (P : A -> Prop) `{forall x, Decision (P x)} (l : list A) :
  Forall P l -> filter P l = l.
Proof.
  induction 1 as [|x l Hx _ IH]; [reflexivity|].
  rewrite filter_cons_True by exact Hx. now rewrite IH.
Qed.

(** the stopping rule of the two runs of the app *)
Lemma app_runs_only_sent_counts (pages : nat -> App.Page) (days_wait : Z)
    (sheet : Sheet) :
  only_sent_counts DAILY_MAX_FIRST first_eligible sheet
    (App.run_first_messages DAILY_MAX_FIRST today pages sheet)
  /\ only_sent_counts DAILY_MAX_FOLLOWUPS
       (followup_eligible fromisoformat today days_wait) sheet
       (App.run_followups DAILY_MAX_FOLLOWUPS fromisoformat today pages days_wait sheet).
Proof.
  unfold App.run_first_messages, App.run_followups, get_rows.
  rewrite app_first_loop_eq, app_followup_loop_eq.
  split; intros j row Hj He Hnone.
  - pose proof (loop_stopping_rule DAILY_MAX_FIRST first_eligible
                  (fun i row => App.send_connection_message (pages i) row true)
                  is_true (app_first_writes today) sheet 0%nat 0 sheet j row Hj He)
      as H.
    cbn [Nat.add] in H. rewrite Z.add_0_l in H. now apply H.
  - pose proof (loop_stopping_rule DAILY_MAX_FOLLOWUPS
                  (followup_eligible fromisoformat today days_wait)
                  (fun i row => App.send_connection_message (pages i) row false)
                  is_true (app_followup_writes today) sheet 0%nat 0 sheet j row Hj He)
      as H.
    cbn [Nat.add] in H. rewrite Z.add_0_l in H. now apply H.
Qed.

(** with a quota of one or more, a first-message run turns every row of a
    sheet of [n] pending rows without a profile link to unreachable *)
Lemma rows_without_link_turned (pages : nat -> App.Page) (n : nat) :
  1 <= DAILY_MAX_FIRST ->
  rows_turned ["unreachable"] (replicate n row_without_link)
    (final (App.run_first_messages DAILY_MAX_FIRST today pages
              (replicate n row_without_link)))
  = seq 0 n.
Proof.
  intros HQ. set (sheet := replicate n row_without_link).
  destruct (app_runs_only_sent_counts pages 0 sheet) as [Hrule _].
  revert Hrule. unfold App.run_first_messages, get_rows. rewrite app_first_loop_eq.
  set (r := loop DAILY_MAX_FIRST first_eligible
              (fun i row => App.send_connection_message (pages i) row true)
              is_true (app_first_writes today) 0 sheet 0 sheet).
  intros Hrule.
  assert (Hrow : forall j row, sheet !! j = Some row -> row = row_without_link).
  { intros j row Hj. subst sheet. now apply lookup_replicate in Hj as [-> _]. }
  assert (Hatt : forall j acts x, (j, acts, x) ∈ attempts r -> x = Ok UNREACHABLE).
  { intros j acts x (_ & row & Hj & _ & Hs)%loop_attempt.
    apply Hrow in Hj. subst row.
    change (App.send_connection_message (pages j) row_without_link true)
      with (@ret result UNREACHABLE) in Hs.
    unfold ret in Hs. congruence. }
  assert (Hin : forall j, (j < n)%nat -> j ∈ attempted_rows r).
  { intros j Hj. apply (Hrule j row_without_link).
    - subst sheet. now apply lookup_replicate.
    - reflexivity.
    - intros i acts Hi. apply Hatt in Hi. discriminate.
    - unfold sent_attempts. rewrite filter_none; [cbn; lia|].
      apply Forall_forall. intros [[i acts] x] [_ Hi]%list_elem_of_filter.
      apply Hatt in Hi. subst x. cbn. discriminate. }
  unfold rows_turned. replace (length sheet) with n
    by (subst sheet; now rewrite length_replicate).
  apply filter_all, Forall_forall. intros j Hj%elem_of_seq.
  assert (Hj' : (j < n)%nat) by lia.
  apply Hin, attempted_rows_elem in Hj' as (acts & x & Hx).
  pose proof (Hatt _ _ _ Hx) as ->.
  unfold turned. subst r. rewrite (loop_final_attempt _ _ _ _ _ _ _ _ _ _ _ _ Hx).
  assert (Hs : sheet !! j = Some row_without_link)
    by (subst sheet; apply lookup_replicate; split; [reflexivity|lia]).
  rewrite Hs. reflexivity.
Qed.

(** Claim C1, amended.  The quota bounds the messages sent, not the rows
    marked unreachable.  In a first-message run of the app with quota
    [DAILY_MAX_FIRST], at most that many attempts (none when it is
    negative) have the outcome sent, and so at most that many rows are
    turned to connected.  In a follow-up run with quota
    [DAILY_MAX_FOLLOWUPS], at most that many attempts have the outcome
    sent.  Only the outcome sent counts: in either run an eligible row is
    attempted exactly when fewer than the quota of the attempts on the
    rows before it were sent, however many of them were safety-skips or
    unreachable (and none raised).  So the rows turned to unreachable in a
    run are not bounded by the quota: with a quota of one or more there is,
    for every [n], a sheet of which a first-message run turns [n] rows to
    unreachable. *)
Theorem quota_bounds_sent_messages (pages : nat -> App.Page) (days_wait : Z)
    (sheet : Sheet) :
  let first := App.run_first_messages DAILY_MAX_FIRST today pages sheet in
  let followups :=
    App.run_followups DAILY_MAX_FOLLOWUPS fromisoformat today pages days_wait sheet in
  Z.of_nat (length (sent_attempts (attempts first))) <= Z.max 0 DAILY_MAX_FIRST
  /\ Z.of_nat (length (rows_turned ["connected"] sheet (final first)))
     <= Z.max 0 DAILY_MAX_FIRST
  /\ Z.of_nat (length (sent_attempts (attempts followups)))
     <= Z.max 0 DAILY_MAX_FOLLOWUPS
  /\ only_sent_counts DAILY_MAX_FIRST first_eligible sheet first
  /\ only_sent_counts DAILY_MAX_FOLLOWUPS
       (followup_eligible fromisoformat today days_wait) sheet followups
  /\ (1 <= DAILY_MAX_FIRST ->
      forall n : nat, exists sheet' : Sheet,
        length (rows_turned ["unreachable"] sheet'
                  (final (App.run_first_messages DAILY_MAX_FIRST today pages sheet')))
        = n).
Proof.
  intros first followups.
  assert (H1 : Z.of_nat (length (sent_attempts (attempts first)))
               <= Z.max 0 DAILY_MAX_FIRST).
  { subst first. unfold App.run_first_messages, get_rows. rewrite app_first_loop_eq.
    unfold sent_attempts.
    etransitivity; [apply loop_quota|]. lia. }
  split; [exact H1|]. split; [|split; [|split; [|split]]].
  - etransitivity; [|exact H1]. apply Nat2Z.inj_le.
    rewrite <- (length_fmap (fun a : Attempt result => fst (fst a))
                  (sent_attempts (attempts first))).
    apply submseteq_length, NoDup_submseteq.
    + apply NoDup_filter, NoDup_seq.
    + intros j Hj. apply (turned_connected_sent pages sheet j Hj).
  - subst followups. unfold App.run_followups, get_rows. rewrite app_followup_loop_eq.
    unfold sent_attempts.
    etransitivity; [apply loop_quota|]. lia.
  - apply (app_runs_only_sent_counts pages days_wait sheet).
  - apply (app_runs_only_sent_counts pages days_wait sheet).
  - intros HQ n. exists (replicate n row_without_link).
    rewrite (rows_without_link_turned pages n HQ). apply length_seq.
Qed.

(** Claim C5, amended.  When a first-stage attempt of the app has the outcome
    sent, the row gets status connected, message1_sent TRUE and
    last_contacted today, and keeps its other cells.  When a first-stage
    attempt of the stand-alone bot succeeds, the row gets message1_sent
    TRUE and last_contacted today, and keeps its other cells, its status
    among them. *)
Theorem first_message_sent_updates_row
    (app_pages : nat -> App.Page) (bot_pages : nat -> Bot.Page) (sheet : Sheet)
    (j : nat) (acts : list action) :
  ((j, acts, Ok PyTrue)
     ∈ attempts (App.run_first_messages DAILY_MAX_FIRST today app_pages sheet) ->
   exists row, sheet !! j = Some row /\
     final (App.run_first_messages DAILY_MAX_FIRST today app_pages sheet) !! j
     = Some (mkRow (recruiter_name row) (job_title row) (company row)
               (linkedin_url row) "connected" "TRUE" (message2_sent row)
               (isoformat today) (notes row) (job_url row)))
  /\
  ((j, acts, Ok true)
     ∈ attempts (Bot.run_first_messages DAILY_MAX_FIRST today bot_pages sheet) ->
   exists row, sheet !! j = Some row /\
     final (Bot.run_first_messages DAILY_MAX_FIRST today bot_pages sheet) !! j
     = Some (mkRow (recruiter_name row) (job_title row) (company row)
               (linkedin_url row) (status row) "TRUE" (message2_sent row)
               (isoformat today) (notes row) (job_url row))).
Proof.
  unfold App.run_first_messages, Bot.run_first_messages, get_rows.
  rewrite app_first_loop_eq, bot_first_loop_eq. split; intros Hin.
  - destruct (loop_attempt_row _ _ _ _ _ _ _ _ _ Hin) as (row & Hrow & _).
    exists row. split; [exact Hrow|].
    rewrite (loop_final_attempt _ _ _ _ _ _ _ _ _ _ _ _ Hin), Hrow. reflexivity.
  - destruct (loop_attempt_row _ _ _ _ _ _ _ _ _ Hin) as (row & Hrow & _).
    exists row. split; [exact Hrow|].
    rewrite (loop_final_attempt _ _ _ _ _ _ _ _ _ _ _ _ Hin), Hrow. reflexivity.
Qed.

(** Claim C6.  When an attempt of the app, first message or
    follow-up, returns [False] (the safety-skip), the row is exactly as it
    was before the run: no cell of it is written, so a later run finds it
    as this one did. *)
Theorem safety_skip_leaves_row_unchanged
    (pages : nat -> App.Page) (days_wait : Z) (sheet : Sheet)
    (j : nat) (acts : list action) :
  ((j, acts, Ok PyFalse)
     ∈ attempts (App.run_first_messages DAILY_MAX_FIRST today pages sheet) ->
   exists row, sheet !! j = Some row /\
     final (App.run_first_messages DAILY_MAX_FIRST today pages sheet) !! j = Some row)
  /\
  ((j, acts, Ok PyFalse)
     ∈ attempts (App.run_followups DAILY_MAX_FOLLOWUPS fromisoformat today pages
                   days_wait sheet) ->
   exists row, sheet !! j = Some row /\
     final (App.run_followups DAILY_MAX_FOLLOWUPS fromisoformat today pages
              days_wait sheet) !! j = Some row).
Proof.
  unfold App.run_first_messages, App.run_followups, get_rows.
  rewrite app_first_loop_eq, app_followup_loop_eq. split; intros Hin.
  - destruct (loop_attempt_row _ _ _ _ _ _ _ _ _ Hin) as (row & Hrow & _).
    exists row. split; [exact Hrow|].
    rewrite (loop_final_attempt _ _ _ _ _ _ _ _ _ _ _ _ Hin), Hrow. reflexivity.
  - destruct (loop_attempt_row _ _ _ _ _ _ _ _ _ Hin) as (row & Hrow & _).
    exists row. split; [exact Hrow|].
    rewrite (loop_final_attempt _ _ _ _ _ _ _ _ _ _ _ _ Hin), Hrow. reflexivity.
Qed.

(** An attempt of the app that is reported unreachable, in either stage,
    leaves the row with status unreachable: that row is passed over from
    then on. *)
Lemma unreachable_outcome_marks_row
    (pages : nat -> App.Page) (days_wait : Z) (sheet : Sheet)
    (j : nat) (acts : list action) :
  ((j, acts, Ok UNREACHABLE)
     ∈ attempts (App.run_first_messages DAILY_MAX_FIRST today pages sheet) ->
   status <$> final (App.run_first_messages DAILY_MAX_FIRST today pages sheet) !! j
   = Some "unreachable")
  /\
  ((j, acts, Ok UNREACHABLE)
     ∈ attempts (App.run_followups DAILY_MAX_FOLLOWUPS fromisoformat today pages
                   days_wait sheet) ->
   status <$> final (App.run_followups DAILY_MAX_FOLLOWUPS fromisoformat today pages
                       days_wait sheet) !! j
   = Some "unreachable").
Proof.
  unfold App.run_first_messages, App.run_followups, get_rows.
  rewrite app_first_loop_eq, app_followup_loop_eq. split; intros Hin.
  - destruct (loop_attempt_row _ _ _ _ _ _ _ _ _ Hin) as (row & Hrow & _).
    rewrite (loop_final_attempt _ _ _ _ _ _ _ _ _ _ _ _ Hin), Hrow. reflexivity.
  - destruct (loop_attempt_row _ _ _ _ _ _ _ _ _ Hin) as (row & Hrow & _).
    rewrite (loop_final_attempt _ _ _ _ _ _ _ _ _ _ _ _ Hin), Hrow. reflexivity.
Qed.

End Outcomes.

(** ** The messaging protocol *)

Section Protocol.

(** Claim C4, amended.  The note text is a formatted short template, which
    has no white space at either end.  At or under the ceiling it is sent
    unmodified.  Over the ceiling (of 3 or more) it is cut to its first
    ceiling - 3 characters, the white space at the end of the cut is
    removed, and "..." is added: the length is at most the ceiling, and
    exactly the ceiling if and only if the cut is empty or does not end
    in white space. *)
Theorem note_text_within_ceiling (first_message : bool)
    (name job_title company : string) (limit : Z) :
  3 <= limit ->
  let msg_short := short_template first_message name job_title company in
  (Py.len msg_short <= limit -> shorten_for_note msg_short limit = msg_short) /\
  (limit < Py.len msg_short ->
     shorten_for_note msg_short limit
       = Py.rstrip (Py.take_chars (Z.to_nat (limit - 3)) msg_short) +:+ "..."
     /\ Py.len (shorten_for_note msg_short limit) <= limit
     /\ (Py.len (shorten_for_note msg_short limit) = limit <->
         limit = 3 \/
         exists c, String.get (Z.to_nat (limit - 4)) msg_short = Some c
                   /\ Py.isspace c = false)).
Proof.
  intros Hl msg_short. apply shorten_stripped; [exact Hl|].
  apply short_template_stripped.
Qed.

Lemma any_displayed_none (eds : list elem) :
  hidden eds -> App.any_displayed eds = Ok false.
Proof.
  induction 1 as [|ed eds Hed _ IH]; [reflexivity|].
  cbn [App.any_displayed]. now rewrite Hed.
Qed.

Lemma any_displayed_first (pre : list elem) (ed : elem) (post : list elem) :
  hidden pre ->
  App.any_displayed (pre ++ ed :: post)
  = match is_displayed ed with
    | Ok true => Ok true
    | Ok false => App.any_displayed post
    | Raise => Raise
    end.
Proof.
  induction 1 as [|e pre He _ IH]; [reflexivity|].
  cbn [app App.any_displayed]. now rewrite He.
Qed.

(** what the second step of a poll sees *)
Lemma editors_cases (s : App.NotePoll) :
  (editor_open s
   /\ (eds <- ask (App.editors s) ;; ask (App.any_displayed eds)) = ([], Ok true))
  \/ (editors_hidden s
      /\ (eds <- ask (App.editors s) ;; ask (App.any_displayed eds)) = ([], Ok false))
  \/ (editors_raise s
      /\ (eds <- ask (App.editors s) ;; ask (App.any_displayed eds)) = ([], Raise)).
Proof.
  unfold editor_open, editors_hidden, editors_raise.
  destruct (App.editors s) as [eds|]; [|right; right; split; [now left|reflexivity]].
  cbn [ask bind app].
  assert (H : (exists pre ed post, eds = (pre ++ ed :: post)%list /\ hidden pre
                 /\ is_displayed ed = Ok true /\ App.any_displayed eds = Ok true)
              \/ (hidden eds /\ App.any_displayed eds = Ok false)
              \/ (exists pre ed post, eds = (pre ++ ed :: post)%list /\ hidden pre
                    /\ is_displayed ed = Raise /\ App.any_displayed eds = Raise)).
  { induction eds as [|e eds IH].
    - right. left. split; [constructor|reflexivity].
    - cbn [App.any_displayed]. destruct (is_displayed e) as [[|]|] eqn:He.
      + left. exists [], e, eds. repeat split; [constructor|exact He].
      + destruct IH as [(pre & ed & post & -> & Hp & Hd & Ha)
                       |[[Hh Ha]|(pre & ed & post & -> & Hp & Hd & Ha)]].
        * left. exists (e :: pre), ed, post.
          repeat split; [now constructor|exact Hd|exact Ha].
        * right. left. split; [now constructor|exact Ha].
        * right. right. exists (e :: pre), ed, post.
          repeat split; [now constructor|exact Hd|exact Ha].
      + right. right. exists [], e, eds. repeat split; [constructor|exact He]. }
  destruct H as [(pre & ed & post & -> & Hp & Hd & Ha)
                |[[Hh Ha]|(pre & ed & post & -> & Hp & Hd & Ha)]]; rewrite Ha.
  - left. split; [|reflexivity]. exists pre, ed, post. auto.
  - right. left. split; [|reflexivity]. exists eds. auto.
  - right. right. split; [|reflexivity]. right. exists pre, ed, post. auto.
Qed.

Lemma click_note_button_first (pre : list elem) (nb : elem) (post : list elem) :
  hidden pre -> is_displayed nb = Ok true -> interact nb = Ok tt ->
  App.click_note_button (pre ++ nb :: post) = ([ClickAddNote], Ok true).
Proof.
  intros Hp Hd Hi. induction Hp as [|e pre He _ IH].
  - cbn [app App.click_note_button]. rewrite Hd. cbn [ask bind]. now rewrite Hi.
  - cbn [app App.click_note_button]. rewrite He. cbn [ask bind]. rewrite IH. reflexivity.
Qed.

(** what the first step of a poll does: it opens the note with one click,
    or it does nothing *)
Lemma note_step_cases (s : App.NotePoll) :
  (add_note_opens s
   /\ catch (nbs <- ask (App.note_buttons s) ;; App.click_note_button nbs) (ret false)
      = ([ClickAddNote], Ok true))
  \/ (~ add_note_opens s
      /\ catch (nbs <- ask (App.note_buttons s) ;; App.click_note_button nbs) (ret false)
         = ([], Ok false)).
Proof.
  assert (Hopen : add_note_opens s ->
    catch (nbs <- ask (App.note_buttons s) ;; App.click_note_button nbs) (ret false)
    = ([ClickAddNote], Ok true)).
  { intros (pre & nb & post & Hn & Hp & Hd & Hi). rewrite Hn. cbn [ask bind].
    now rewrite (click_note_button_first pre nb post Hp Hd Hi). }
  assert (H : add_note_opens s
    \/ catch (nbs <- ask (App.note_buttons s) ;; App.click_note_button nbs) (ret false)
       = ([], Ok false)).
  { clear Hopen. unfold add_note_opens.
    destruct (App.note_buttons s) as [nbs|]; [|now right].
    cbn [ask bind app].
    assert (H : (exists pre nb post, nbs = (pre ++ nb :: post)%list /\ hidden pre
                   /\ is_displayed nb = Ok true /\ interact nb = Ok tt)
                \/ App.click_note_button nbs = ([], Ok false)
                \/ App.click_note_button nbs = ([], Raise)).
    { induction nbs as [|e nbs IH]; [now right; left|].
      cbn [App.click_note_button]. destruct (is_displayed e) as [[|]|] eqn:He.
      - destruct (interact e) as [[]|] eqn:Hi.
        + left. exists [], e, nbs. repeat split; [constructor|exact He|exact Hi].
        + right. right. reflexivity.
      - destruct IH as [(pre & nb & post & -> & Hp & Hd & Hi)|[IH|IH]].
        + left. exists (e :: pre), nb, post.
          repeat split; [now constructor|exact Hd|exact Hi].
        + right. left. cbn [ask bind]. now rewrite IH.
        + right. right. cbn [ask bind]. now rewrite IH.
      - right. right. reflexivity. }
    destruct H as [(pre & nb & post & -> & Hp & Hd & Hi)|[H|H]].
    - left. exists pre, nb, post. auto.
    - right. now rewrite H.
    - right. now rewrite H. }
  destruct H as [H|H]; [left; split; [exact H|now apply Hopen]|].
  right. split; [|exact H]. intros Ho. apply Hopen in Ho. rewrite H in Ho. discriminate.
Qed.

(** a poll shows a note capability, or goes through without one, or
    raises, and only one of the three *)
Lemma poll_cases (s : App.NotePoll) :
  shows_note s \/ quiet s \/ escapes s.
Proof.
  unfold shows_note, quiet, escapes.
  destruct (note_step_cases s) as [[Ho _]|[Hn _]]; [now left; left|].
  destruct (editors_cases s) as [[H _]|[[H _]|[H _]]]; auto.
Qed.

Lemma quiet_not_shows (s : App.NotePoll) : quiet s -> ~ shows_note s.
Proof.
  intros [Hn (eds & He & Hh)] [Ho|(pre & ed & post & He' & Hp & Hd)]; [contradiction|].
  rewrite He in He'. injection He' as ->.
  pose proof (any_displayed_none _ Hh) as Ha.
  rewrite (any_displayed_first pre ed post Hp), Hd in Ha. discriminate.
Qed.

Lemma quiet_not_escapes (s : App.NotePoll) : quiet s -> ~ escapes s.
Proof.
  intros [_ (eds & He & Hh)] [_ [He'|(pre & ed & post & He' & Hp & Hd)]]; [congruence|].
  rewrite He in He'. injection He' as ->.
  pose proof (any_displayed_none _ Hh) as Ha.
  rewrite (any_displayed_first pre ed post Hp), Hd in Ha. discriminate.
Qed.

Lemma escapes_not_shows (s : App.NotePoll) : escapes s -> ~ shows_note s.
Proof.
  intros [Hn Hr] [Ho|Hopen]; [contradiction|].
  destruct (editors_cases s) as [[_ H]|[[Hh H]|[_ H]]].
  - destruct Hr as [He|(pre & ed & post & He & Hp & Hd)]; rewrite He in H;
      cbn [ask bind app] in H; [discriminate|].
    rewrite (any_displayed_first pre ed post Hp), Hd in H. discriminate.
  - apply (quiet_not_shows s); [now split|now right].
  - destruct Hopen as (pre & ed & post & He & Hp & Hd). rewrite He in H.
    cbn [ask bind app] in H.
    rewrite (any_displayed_first pre ed post Hp), Hd in H. discriminate.
Qed.

(** one iteration of the loop after the click on Connect *)
Lemma note_loop_step (s : App.NotePoll) (rest : list App.NotePoll) :
  (shows_note s -> exists t, App.note_loop (s :: rest) = (t, Ok App.note)
                             /\ (ClickMessage ∉ t))
  /\ (quiet s -> App.note_loop (s :: rest) = App.note_loop rest)
  /\ (escapes s -> App.note_loop (s :: rest) = ([], Raise)).
Proof.
  assert (Hstep : App.note_loop (s :: rest)
    = (clicked <- catch (nbs <- ask (App.note_buttons s) ;; App.click_note_button nbs)
                        (ret false) ;;
       if clicked then ret App.note
       else
         shown <- (eds <- ask (App.editors s) ;; ask (App.any_displayed eds)) ;;
         if shown then ret App.note else App.note_loop rest)).
  { cbn [App.note_loop]. destruct (catch _ _) as [t [[|]|]]; cbn [bind]; try reflexivity.
    destruct (App.editors s) as [eds|]; cbn [ask bind app]; [|reflexivity].
    destruct (App.any_displayed eds) as [[|]|]; try reflexivity.
    now destruct (App.note_loop rest). }
  rewrite Hstep. clear Hstep.
  destruct (note_step_cases s) as [[Ho Hs]|[Hn Hs]]; rewrite Hs; cbn [bind ret app].
  - split; [|split].
    + intros _. exists [ClickAddNote]. split; [reflexivity|].
      intros [H|H]%elem_of_cons; [discriminate|now apply elem_of_nil in H].
    + intros [Hn _]. contradiction.
    + intros [Hn _]. contradiction.
  - destruct (editors_cases s) as [[Hc He]|[[Hc He]|[Hc He]]]; rewrite He;
      cbn [bind ret app].
    + split; [|split].
      * intros _. exists []. split; [reflexivity|]. intros H. now apply elem_of_nil in H.
      * intros Hq. destruct (quiet_not_shows s Hq). now right.
      * intros He'. destruct (escapes_not_shows s He'). now right.
    + split; [|split].
      * intros Hsh. destruct (quiet_not_shows s); [now split|exact Hsh].
      * intros _. now destruct (App.note_loop rest).
      * intros He'. destruct (quiet_not_escapes s); [now split|exact He'].
    + split; [|split].
      * intros Hsh. destruct (escapes_not_shows s); [now split|exact Hsh].
      * intros Hq. destruct (quiet_not_escapes s Hq). now split.
      * intros _. reflexivity.
Qed.

(** what the loop after the click on Connect comes to: every poll is
    quiet, and it returns follow_only having clicked nothing; or the first
    poll that is not quiet shows a note capability, and it returns note;
    or the first poll that is not quiet raises, and so does the loop *)
Lemma note_loop_outcome (polls : list App.NotePoll) :
  (Forall quiet polls /\ App.note_loop polls = ([], Ok App.follow_only))
  \/ exists k s,
       polls !! k = Some s
       /\ (forall j s', (j < k)%nat -> polls !! j = Some s' -> quiet s')
       /\ ((shows_note s /\ exists t, App.note_loop polls = (t, Ok App.note)
                                      /\ (ClickMessage ∉ t))
           \/ (escapes s /\ App.note_loop polls = ([], Raise))).
Proof.
  induction polls as [|s rest IH]; [left; split; [constructor|reflexivity]|].
  destruct (note_loop_step s rest) as (Hshow & Hquiet & Hesc).
  destruct (poll_cases s) as [H|[H|H]].
  - right. exists 0%nat, s. split; [reflexivity|]. split; [intros j s' Hj; lia|].
    left. split; [exact H|now apply Hshow].
  - rewrite (Hquiet H).
    destruct IH as [[Hall He]|(k & s' & Hk & Hbefore & Hcase)].
    + left. split; [now constructor|exact He].
    + right. exists (S k), s'. split; [exact Hk|]. split; [|exact Hcase].
      intros [|j] s'' Hj Hl; [now injection Hl as <-|].
      apply (Hbefore j s''); [lia|exact Hl].
  - right. exists 0%nat, s. split; [reflexivity|]. split; [intros j s' Hj; lia|].
    right. split; [exact H|now apply Hesc].
Qed.

Lemma note_polls_lookup (p : App.Page) (k : nat) (s : App.NotePoll) :
  map (App.note_polls p) (seq 0 8) !! k = Some s <->
  (k < 8)%nat /\ s = App.note_polls p k.
Proof.
  change (map (App.note_polls p) (seq 0 8)) with (App.note_polls p <$> seq 0 8).
  rewrite list_lookup_fmap. split.
  - destruct (seq 0 8 !! k) as [k'|] eqn:Hk; [|discriminate].
    apply lookup_seq in Hk as [-> Hk]. cbn. intros [= <-]. split; [lia|reflexivity].
  - intros [Hk ->]. rewrite (proj2 (lookup_seq 0 8 k k)); [reflexivity|].
    split; [reflexivity|exact Hk].
Qed.

Lemma first_displayed_unique (l : list elem) (b b' : elem) :
  first_displayed l = Some b -> first_displayed l = Some b' -> b = b'.
Proof. congruence. Qed.

(** what the connect path, under its handler, comes to: it gives way to
    the message path, or it returns note or follow_only *)
Lemma connect_path_outcome (p : App.Page) :
  (connect_gives_way p
   /\ exists t, catch (App.connect_path p) (ret None) = (t, Ok None)
                /\ (ClickMessage ∉ t))
  \/ (~ connect_gives_way p
      /\ exists t m, catch (App.connect_path p) (ret None) = (t, Ok (Some m))
           /\ (ClickMessage ∉ t) /\ m <> App.message
           /\ ((forall k, (k < 8)%nat -> quiet (App.note_polls p k)) ->
               t = [ClickConnect] /\ m = App.follow_only)).
Proof.
  assert (Hnil : ClickMessage ∉ @nil action) by (intros H; now apply elem_of_nil in H).
  unfold connect_gives_way, App.connect_path.
  destruct (App.connect_candidates p) as [l|] eqn:Hc.
  2:{ left. split; [left; now left|]. exists []. now split. }
  cbn [ask bind app]. destruct (first_displayed l) as [b|] eqn:Hb.
  2:{ left. split; [left; right; eauto|]. exists []. now split. }
  destruct (interact b) as [[]|] eqn:Hi.
  2:{ left. split; [right; left; exists l, b; auto|]. exists []. now split. }
  assert (Hclick : clickable (Ok l)) by (exists l, b; auto).
  assert (Hno1 : ~ absent (Ok l)).
  { intros [H|(l' & [= <-] & H)]; congruence. }
  assert (Hno2 : ~ click_raises (Ok l)).
  { intros (l' & b' & [= <-] & Hb' & Hi'). congruence. }
  cbn [act bind].
  destruct (note_loop_outcome (map (App.note_polls p) (seq 0 8)))
    as [[Hall He]|(k & s & Hk & Hbefore & Hcase)].
  - right. rewrite He. cbn [bind ret catch app].
    assert (Hq : forall k, (k < 8)%nat -> quiet (App.note_polls p k)).
    { intros k Hk. rewrite Forall_lookup in Hall.
      apply (Hall k). apply note_polls_lookup. now split. }
    split.
    + intros [H|[H|(_ & k & Hk & Hesc & _)]]; [contradiction|contradiction|].
      exact (quiet_not_escapes _ (Hq k Hk) Hesc).
    + exists [ClickConnect], App.follow_only. split; [reflexivity|].
      split; [|split; [discriminate|now split]].
      intros [H|H]%elem_of_cons; [discriminate|now apply elem_of_nil in H].
  - apply note_polls_lookup in Hk as [Hk ->].
    assert (Hq : forall j, (j < k)%nat -> quiet (App.note_polls p j)).
    { intros j Hj. apply (Hbefore j); [exact Hj|].
      apply note_polls_lookup. split; [lia|reflexivity]. }
    destruct Hcase as [[Hshow (t & He & Ht)]|[Hesc He]].
    + right. rewrite He. cbn [bind ret catch app]. split.
      * intros [H|[H|(_ & k' & Hk' & Hesc' & Hq')]]; [contradiction|contradiction|].
        destruct (Nat.lt_trichotomy k' k) as [Hlt|[->|Hgt]].
        -- exact (quiet_not_escapes _ (Hq k' Hlt) Hesc').
        -- exact (escapes_not_shows _ Hesc' Hshow).
        -- exact (quiet_not_shows _ (Hq' k Hgt) Hshow).
      * exists (ClickConnect :: t ++ [])%list, App.note. split; [reflexivity|].
        split; [|split; [discriminate|]].
        -- rewrite app_nil_r. intros [H|H]%elem_of_cons; [discriminate|contradiction].
        -- intros Hall. destruct (quiet_not_shows _ (Hall k Hk) Hshow).
    + left. rewrite He. cbn [bind ret catch app]. split.
      * right. right. split; [exact Hclick|]. exists k. auto.
      * exists [ClickConnect]. split; [reflexivity|].
        intros [H|H]%elem_of_cons; [discriminate|now apply elem_of_nil in H].
Qed.

(** what the message path and the follow path after it come to *)
Lemma message_path_outcome (p : App.Page) :
  exists t m,
    (r <- catch (App.message_path p) (ret None) ;;
     match r with
     | Some m => ret m
     | None =>
         r <- catch (App.follow_path p) (ret None) ;;
         match r with
         | Some m => ret m
         | None => ret App.NoMode
         end
     end) = (t, Ok m)
    /\ (clickable (App.msg_candidates p) -> t = [ClickMessage] /\ m = App.message)
    /\ (ClickMessage ∈ t -> clickable (App.msg_candidates p)).
Proof.
  assert (Hfollow : exists t m,
    (r <- catch (App.follow_path p) (ret None) ;;
     match r with
     | Some m => ret m
     | None => ret App.NoMode
     end) = (t, Ok m) /\ (ClickMessage ∉ t)).
  { unfold App.follow_path.
    destruct (App.follow_candidates p) as [l|]; cbn [ask bind app catch ret].
    2:{ exists [], App.NoMode. split; [reflexivity|]. intros H. now apply elem_of_nil in H. }
    destruct (first_displayed l) as [b|].
    2:{ exists [], App.NoMode. split; [reflexivity|]. intros H. now apply elem_of_nil in H. }
    destruct (interact b) as [[]|]; cbn [act bind catch ret app].
    - exists [ClickFollow], App.follow_only. split; [reflexivity|].
      intros [H|H]%elem_of_cons; [discriminate|now apply elem_of_nil in H].
    - exists [], App.NoMode. split; [reflexivity|]. intros H. now apply elem_of_nil in H. }
  destruct Hfollow as (tf & mf & Hf & Htf).
  assert (Hfall : forall t0 : list action, t0 = [] ->
    exists t m,
      (let '(t', r) :=
         (r <- catch (App.follow_path p) (ret None) ;;
          match r with
          | Some m => ret m
          | None => ret App.NoMode
          end) in ((t0 ++ t')%list, r)) = (t, Ok m) /\ (ClickMessage ∉ t)).
  { intros t0 ->. rewrite Hf. exists tf, mf. now split. }
  unfold App.message_path, clickable.
  destruct (App.msg_candidates p) as [l|] eqn:Hm; cbn [ask bind app catch ret].
  2:{ destruct (Hfall [] eq_refl) as (t & m & He & Ht). exists t, m.
      split; [exact He|]. split; [intros (l & b & H & _); discriminate|].
      intros H. contradiction. }
  destruct (first_displayed l) as [b|] eqn:Hb.
  2:{ cbn [ret bind]. destruct (Hfall [] eq_refl) as (t & m & He & Ht). exists t, m.
      split; [exact He|]. split; [intros (l' & b & [= <-] & H & _); congruence|].
      intros H. contradiction. }
  destruct (interact b) as [[]|] eqn:Hi; cbn [act bind catch ret app].
  - exists [ClickMessage], App.message. split; [reflexivity|]. split; [now split|].
    intros _. exists l, b. auto.
  - destruct (Hfall [] eq_refl) as (t & m & He & Ht). exists t, m.
    split; [exact He|]. split; [intros (l' & b' & [= <-] & H & Hi'); congruence|].
    intros H. contradiction.
Qed.

(** Claim C3, amended.  The direct-message action is invoked exactly when
    the connect path gives way and a displayed message action is there and
    its click goes through; the channel is then message.  The connect path
    gives way when no displayed connect action is found (or the lookup
    raised), when the click on it raises, or when, after the click, a poll
    of the 8 raises in its editor step (the lookup of the editors or
    [is_displayed] of one of them) before any poll showed a note
    capability.  In the first of these cases nothing but Message is
    clicked.  When a displayed connect action is found and clicked, and
    each of the 8 polls goes through without a note capability (no "Add a
    note" button is opened, and the editors found are not displayed), the
    protocol returns follow_only and clicks nothing but Connect, whether
    or not a message action is present. *)
Theorem message_channel_when_connect_gives_way (p : App.Page)
    (acts : list action) (r : res App.mode) :
  App.open_message_or_connect p = (acts, r) ->
  (ClickMessage ∈ acts <-> connect_gives_way p /\ clickable (App.msg_candidates p))
  /\ (ClickMessage ∈ acts -> r = Ok App.message)
  /\ (absent (App.connect_candidates p) -> clickable (App.msg_candidates p) ->
      acts = [ClickMessage])
  /\ (clickable (App.connect_candidates p) ->
      (forall k, (k < 8)%nat -> quiet (App.note_polls p k)) ->
      acts = [ClickConnect] /\ r = Ok App.follow_only).
Proof.
  unfold App.open_message_or_connect.
  destruct (connect_path_outcome p)
    as [(Hway & t & Hc & Ht)|(Hnot & t & m & Hc & Ht & Hm & Hquiet)];
    rewrite Hc; cbn [bind].
  - destruct (message_path_outcome p) as (t' & m' & He & Hclick & Hin).
    rewrite He. intros [= <- <-].
    split; [|split; [|split]].
    + rewrite elem_of_app. split.
      * intros [H|H]; [contradiction|]. split; [exact Hway|now apply Hin].
      * intros [_ H]. right. destruct (Hclick H) as [-> _]. apply list_elem_of_here.
    + intros [H|H]%elem_of_app; [contradiction|].
      destruct (Hclick (Hin H)) as [_ ->]. reflexivity.
    + intros Habs Hcl. destruct (Hclick Hcl) as [-> _].
      revert Hc. unfold App.connect_path.
      destruct Habs as [->|(l & -> & Hl)]; cbn [ask bind app catch ret].
      * now intros [= <-].
      * rewrite Hl. now intros [= <-].
    + intros Hcl Hq. exfalso.
      revert Hc. unfold App.connect_path.
      destruct Hcl as (l & b & -> & Hb & Hi). cbn [ask bind app]. rewrite Hb, Hi.
      cbn [act bind].
      destruct (note_loop_outcome (map (App.note_polls p) (seq 0 8)))
        as [[_ Hn]|(k & s & Hk & _ & Hcase)].
      * rewrite Hn. discriminate.
      * apply note_polls_lookup in Hk as [Hk ->].
        destruct Hcase as [[Hs _]|[Hs _]].
        -- destruct (quiet_not_shows _ (Hq k Hk) Hs).
        -- destruct (quiet_not_escapes _ (Hq k Hk) Hs).
  - cbn [ret]. rewrite app_nil_r. intros [= <- <-].
    split; [|split; [|split]].
    + split; [contradiction|]. intros [H _]. contradiction.
    + contradiction.
    + intros Habs _. exfalso. apply Hnot. now left.
    + intros _ Hq. destruct (Hquiet Hq) as [-> ->]. now split.
Qed.

Lemma header_matches_true (expected_norm : string) (els : list elem) :
  App.header_matches expected_norm els = Ok true ->
  exists el, el ∈ els /\ is_displayed el = Ok true
             /\ Py.contains expected_norm (App.normalize_name (text el)) = true.
Proof.
  induction els as [|el els IH]; cbn [App.header_matches]; [discriminate|].
  destruct (is_displayed el) as [[|]|] eqn:Hd; [| |discriminate].
  - destruct (Py.truthy expected_norm
              && Py.contains expected_norm (App.normalize_name (text el))) eqn:Hc.
    + intros _. exists el. apply andb_true_iff in Hc as [_ Hc].
      split; [apply elem_of_cons; auto|]. auto.
    + intros (el' & Hin & H)%IH. exists el'. split; [apply elem_of_cons; auto|exact H].
  - intros (el' & Hin & H)%IH. exists el'. split; [apply elem_of_cons; auto|exact H].
Qed.

Lemma poll_verifies_on_page (expected_norm : string) (s : App.Snapshot) :
  App.poll_verifies expected_norm s = true -> name_on_page expected_norm s.
Proof.
  unfold App.poll_verifies, App.headers_verify, App.body_verifies, name_on_page.
  intros [H|H]%orb_true_iff.
  - left. destruct (App.headers s) as [els|]; [|discriminate].
    destruct (App.header_matches expected_norm els) as [[|]|] eqn:Hm; try discriminate.
    apply header_matches_true in Hm as (el & Hin & Hd & Hc). eauto 6.
  - right. destruct (App.body s) as [t|]; [|discriminate]. eauto.
Qed.

(** the gate, as a boolean, is [name_verified] *)
Lemma gate_open_verified (p : App.Page) (row : Row) :
  negb (Py.mem (Py.lower (App.expected_name_of p row)) App.generic_names)
  && negb (App.verify_profile_loaded p (App.expected_name_of p row) 8) = false ->
  name_verified p row.
Proof.
  unfold name_verified. cbv zeta. set (e := App.expected_name_of p row).
  intros [H|H]%andb_false_iff; apply negb_false_iff in H; [auto|].
  unfold App.verify_profile_loaded in H.
  destruct (Py.truthy e) eqn:Ht; cbn [negb] in H.
  - right. right. apply existsb_exists in H as (s & Hin & Hs).
    exists s. split; [now apply list_elem_of_In|now apply poll_verifies_on_page].
  - left. unfold Py.truthy in Ht. apply negb_false_iff in Ht. now apply String.eqb_eq.
Qed.

Lemma gate_shut_unverified (p : App.Page) (row : Row) :
  ~ name_verified p row ->
  negb (Py.mem (Py.lower (App.expected_name_of p row)) App.generic_names)
  && negb (App.verify_profile_loaded p (App.expected_name_of p row) 8) = true.
Proof.
  intros Hn.
  destruct (negb (Py.mem (Py.lower (App.expected_name_of p row)) App.generic_names)
            && negb (App.verify_profile_loaded p (App.expected_name_of p row) 8))
    eqn:Hg; [reflexivity|].
  exfalso. apply Hn. now apply gate_open_verified.
Qed.

(** Claim C2, amended.  The name that is checked is the one the page itself
    shows in its first h1 (stripped) when there is one, and the record's
    recruiter_name (stripped) only otherwise.  An attempt types or sends a
    message, or returns sent, only if that name is empty, or is a generic
    placeholder once lower-cased, or its normalization is, at one of at
    most 8 polls, in the normalized text of a displayed header element or
    in the lower-cased text of the page body.  Otherwise, once the profile
    URL is there and loaded, the outcome is the safety block [False] and
    nothing is done to the page after the navigation. *)
Theorem send_only_when_name_verified (p : App.Page) (row : Row)
    (first_message : bool) (acts : list action) (r : res result) :
  App.send_connection_message p row first_message = (acts, r) ->
  ((r = Ok PyTrue \/ ClickSend ∈ acts \/ (exists msg, TypeText msg ∈ acts)) ->
   name_verified p row)
  /\
  (~ name_verified p row -> linkedin_url row <> "" -> App.get p = Ok tt ->
   acts = [Navigate (linkedin_url row)] /\ r = Ok PyFalse).
Proof.
  unfold App.send_connection_message.
  destruct (negb (Py.truthy (linkedin_url row))) eqn:Hu.
  { intros [= <- <-]. split.
    - intros [H|[H|(m & H)]]; [discriminate|now apply elem_of_nil in H..].
    - intros _ Hne _. exfalso. apply Hne.
      unfold Py.truthy in Hu. rewrite negb_involutive in Hu.
      now apply String.eqb_eq. }
  destruct (App.get p) as [[]|] eqn:Hget; cbn [act bind].
  2:{ intros [= <- <-]. split.
      - intros [H|[H|(m & H)]]; [discriminate|now apply elem_of_nil in H..].
      - intros _ _ [=]. }
  destruct (negb (Py.mem (Py.lower (App.expected_name_of p row)) App.generic_names)
            && negb (App.verify_profile_loaded p (App.expected_name_of p row) 8))
    eqn:Hg.
  - cbn. intros [= <- <-]. split.
    + intros [H|[H|(m & H)]]; [discriminate| |].
      * apply list_elem_of_singleton in H. discriminate.
      * apply list_elem_of_singleton in H. discriminate.
    + auto.
  - intros _. split.
    + intros _. now apply gate_open_verified.
    + intros Hn. apply gate_shut_unverified in Hn. congruence.
Qed.

End Protocol.

(** ** Ingestion *)

Section Ingestion.

Lemma truthy_true (s : string) : Py.truthy s = true <-> s <> "".
Proof.
  unfold Py.truthy. rewrite negb_true_iff. apply String.eqb_neq.
Qed.

Lemma truthy_false (s : string) : Py.truthy s = false <-> s = "".
Proof.
  unfold Py.truthy. rewrite negb_false_iff. apply String.eqb_eq.
Qed.

(** what the two sets hold once the sheet is read *)
Lemma seen_sets_spec (records : list Row) (jobs links : gset string) :
  let '(jobs', links') := App.seen_sets records jobs links in
  (forall x, x ∈ jobs' <->
             x ∈ jobs \/ (x <> "" /\ exists r, r ∈ records /\ Py.strip (job_url r) = x))
  /\ (forall x, x ∈ links' <->
                x ∈ links \/ (x <> "" /\ exists r, r ∈ records /\ link_of r = x)).
Proof.
  revert jobs links. induction records as [|r rest IH]; intros jobs links.
  { cbn. split; intros x; split; auto.
    all: intros [H|(_ & r & Hr & _)]; [exact H|now apply elem_of_nil in Hr]. }
  cbn [App.seen_sets].
  specialize (IH (if Py.truthy (Py.strip (job_url r))
                  then {[Py.strip (job_url r)]} ∪ jobs else jobs)
                 (if Py.truthy (Py.strip (linkedin_url r))
                  then {[Py.strip (linkedin_url r)]} ∪ links else links)).
  destruct (App.seen_sets rest _ _) as [jobs' links']. destruct IH as [IHj IHl].
  split; intros x.
  - rewrite IHj. destruct (Py.truthy (Py.strip (job_url r))) eqn:Ht.
    + apply truthy_true in Ht. rewrite elem_of_union, elem_of_singleton. split.
      * intros [[->|H]|(Hx & r' & Hr' & He)]; auto.
        -- right. split; [exact Ht|]. exists r. split; [apply elem_of_cons; auto|reflexivity].
        -- right. split; [exact Hx|]. exists r'. split; [apply elem_of_cons; auto|exact He].
      * intros [H|(Hx & r' & [->|Hr']%elem_of_cons & He)]; auto.
        right. split; [exact Hx|]. eauto.
    + apply truthy_false in Ht. split.
      * intros [H|(Hx & r' & Hr' & He)]; auto.
        right. split; [exact Hx|]. exists r'. split; [apply elem_of_cons; auto|exact He].
      * intros [H|(Hx & r' & [->|Hr']%elem_of_cons & He)]; auto.
        -- congruence.
        -- right. split; [exact Hx|]. eauto.
  - rewrite IHl. unfold link_of.
    destruct (Py.truthy (Py.strip (linkedin_url r))) eqn:Ht.
    + apply truthy_true in Ht. rewrite elem_of_union, elem_of_singleton. split.
      * intros [[->|H]|(Hx & r' & Hr' & He)]; auto.
        -- right. split; [exact Ht|]. exists r. split; [apply elem_of_cons; auto|reflexivity].
        -- right. split; [exact Hx|]. exists r'. split; [apply elem_of_cons; auto|exact He].
      * intros [H|(Hx & r' & [->|Hr']%elem_of_cons & He)]; auto.
        right. split; [exact Hx|]. eauto.
    + apply truthy_false in Ht. split.
      * intros [H|(Hx & r' & Hr' & He)]; auto.
        right. split; [exact Hx|]. exists r'. split; [apply elem_of_cons; auto|exact He].
      * intros [H|(Hx & r' & [->|Hr']%elem_of_cons & He)]; auto.
        -- congruence.
        -- right. split; [exact Hx|]. eauto.
Qed.





End Ingestion.

(** ** The model on concrete inputs *)

Section Checks.

Example normalize_name_collapses :
  App.normalize_name "  Bob   JONES
 " = "bob jones".
Proof. reflexivity. Qed.

Example shorten_short_text : shorten_for_note "  note  " 300 = "note".
Proof. reflexivity. Qed.

Example shorten_cuts_after_space : shorten_for_note "ab cdefgh" 6 = "ab...".
Proof. reflexivity. Qed.

Example fromisoformat_reads : 
  Datetime.fromisoformat "2024-03-08" = Some (mkDate 738953 "2024-03-08")
  /\ Datetime.fromisoformat "2024-02-30" = None
  /\ Datetime.fromisoformat "last week" = None.
Proof. repeat split; reflexivity. Qed.

Example note_channel_sends :
  App.send_connection_message (Examples.note_page "Alice Smith") Examples.alice true
  = ([Navigate "https://www.linkedin.com/in/alice"; ClickConnect; ClickAddNote;
      TypeText (shorten_for_note
                  (App.FIRST_MESSAGE_SHORT "Alice Smith" "Data Analyst" "Acme") 300);
      ClickSend], Ok PyTrue).
Proof. reflexivity. Qed.

Example message_channel_sends :
  App.send_connection_message (Examples.message_page "Alice Smith") Examples.alice false
  = ([Navigate "https://www.linkedin.com/in/alice"; ClickMessage;
      TypeText (App.FOLLOWUP_MESSAGE_FULL "Alice Smith" "Data Analyst" "Acme");
      ClickSend], Ok PyTrue).
Proof. reflexivity. Qed.

Example wrong_page_blocks :
  App.send_connection_message (Examples.wrong_page "Sign in") Examples.alice true
  = ([Navigate "https://www.linkedin.com/in/alice"], Ok PyFalse).
Proof. reflexivity. Qed.

(** Three rows whose first message went out 7 days ago, 2 days ago and on
    a date that does not parse: with a wait of 3 days, the follow-up run
    attempts the first one only. *)
Example followup_run_picks_due_row :
  let sheet := [Examples.contacted "Alice Smith" "https://www.linkedin.com/in/alice" "2024-03-03";
                Examples.contacted "Carol Diaz" "https://www.linkedin.com/in/carol" "2024-03-08";
                Examples.contacted "Dan Wu" "https://www.linkedin.com/in/dan" "03/01/2024"] in
  let r := App.run_followups 10 Datetime.fromisoformat Examples.today
             (fun _ => Examples.message_page "Alice Smith") 3 sheet in
  attempted_rows r = [0%nat] /\ raised r = false
  /\ final r = [mkRow "Alice Smith" "Data Analyst" "Acme"
                  "https://www.linkedin.com/in/alice" "connected" "TRUE" "TRUE"
                  "2024-03-10" "Auto-filled from applied job"
                  "https://jobright.ai/jobs/info/1";
                Examples.contacted "Carol Diaz" "https://www.linkedin.com/in/carol" "2024-03-08";
                Examples.contacted "Dan Wu" "https://www.linkedin.com/in/dan" "03/01/2024"].
Proof. vm_compute. repeat split; reflexivity. Qed.

(** Rows marked unreachable, or whose message1_sent reads yes, are passed
    over by both stages. *)
Example terminal_rows_passed_over :
  let sheet := [mkRow "Alice Smith" "" "Acme" "https://www.linkedin.com/in/alice"
                  "unreachable" "TRUE" "" "2024-03-01" "" "";
                mkRow "Carol Diaz" "" "Acme" "https://www.linkedin.com/in/carol"
                  "pending" "yes" "" "2024-03-01" "" ""] in
  attempted_rows (App.run_first_messages 20 Examples.today
                    (fun _ => Examples.note_page "Alice Smith") sheet) = []
  /\ attempted_rows (App.run_followups 10 Datetime.fromisoformat Examples.today
                       (fun _ => Examples.note_page "Alice Smith") 3 sheet) = [].
Proof. vm_compute. split; reflexivity. Qed.

(** The ingestion of the app appends a profile found on two job pages
    once. *)
Example ingestion_appends_once :
  App.ing_sheet
    (App.run_extract_recruiters (fun _ => Ok [Examples.bob; Examples.bob])
       ["https://jobright.ai/jobs/info/1"; "https://jobright.ai/jobs/info/2"] [])
  = [App.new_row Examples.bob "https://jobright.ai/jobs/info/1"].
Proof. vm_compute. reflexivity. Qed.

End Checks.

(** ** Where the code departs from the specification, and instances *)

Section Instances_and_Counterexamples.

Import Examples.

(** Claim C1 as stated does not hold.  Quota 1, two pending rows, and on both profiles
    Connect is there but no note can be added: both rows are turned to
    unreachable in the one run, which is more rows than the quota. *)
Lemma quota_counterexample :
  let sheet := [alice; carol] in
  let pages := fun i : nat => match i with
                              | O => no_note_page "Alice Smith"
                              | _ => no_note_page "Carol Diaz"
                              end in
  let r := App.run_first_messages 1 today pages sheet in
  rows_turned ["connected"; "unreachable"] sheet (final r) = [0%nat; 1%nat]
  /\ ~ Z.of_nat (length (rows_turned ["connected"; "unreachable"] sheet (final r))) <= 1.
Proof. vm_compute. split; [reflexivity|]. intros H. now apply H. Qed.

(** Claim C1, an instance: quota 1; the attempt on the first row is
    reported unreachable and uses up no quota, so the second row is
    attempted in the same run. *)
Lemma quota_bounds_sent_messages_witness :
  let pages := fun i : nat => match i with
                              | O => no_note_page "Alice Smith"
                              | _ => note_page "Carol Diaz"
                              end in
  1%nat ∈ attempted_rows (App.run_first_messages 1 today pages [alice; carol]).
Proof.
  cbn zeta.
  destruct (quota_bounds_sent_messages 1 1 Datetime.fromisoformat today
              (fun i : nat => match i with
                              | O => no_note_page "Alice Smith"
                              | _ => note_page "Carol Diaz"
                              end) 3 [alice; carol]) as (_ & _ & _ & H & _).
  apply (H 1%nat carol).
  - reflexivity.
  - reflexivity.
  - intros i acts Hi. apply list_elem_of_In in Hi. vm_compute in Hi.
    destruct Hi as [Hi|[Hi|[]]]; discriminate Hi.
  - vm_compute. reflexivity.
Defined.

(** Claim C2 as stated does not hold.  The record names Alice Smith, which is no generic
    placeholder; the page that loads shows Bob Jones in its h1 and in its
    only header, so the record's normalized name is in no header text; the
    note is sent all the same, addressed to Bob Jones. *)
Lemma record_name_counterexample :
  Py.mem (Py.lower (recruiter_name alice)) App.generic_names = false
  /\ spec_record_name_in_header (note_page "Bob Jones") alice = false
  /\ App.send_connection_message (note_page "Bob Jones") alice true
     = ([Navigate "https://www.linkedin.com/in/alice"; ClickConnect; ClickAddNote;
         TypeText (shorten_for_note
                     (App.FIRST_MESSAGE_SHORT "Bob Jones" "Data Analyst" "Acme") 300);
         ClickSend], Ok PyTrue).
Proof. repeat split; reflexivity. Qed.

(** Claim C2, an instance: the note to Alice Smith goes out on a page that shows
    her name. *)
Lemma send_only_when_name_verified_witness :
  App.send_connection_message (note_page "Alice Smith") alice true
  = ([Navigate "https://www.linkedin.com/in/alice"; ClickConnect; ClickAddNote;
      TypeText (shorten_for_note
                  (App.FIRST_MESSAGE_SHORT "Alice Smith" "Data Analyst" "Acme") 300);
      ClickSend], Ok PyTrue)
  /\ name_verified (note_page "Alice Smith") alice.
Proof.
  split; [reflexivity|].
  apply (proj1 (send_only_when_name_verified (note_page "Alice Smith") alice true
                  _ _ eq_refl)).
  left. reflexivity.
Defined.

(** Claim C3 as stated does not hold.  Connect is there and is clicked, no poll shows an
    "Add a note" button or an editor, and a Message button is there: the
    protocol returns follow_only without clicking Message, and the attempt
    is reported unreachable. *)
Lemma connect_without_note_counterexample :
  let p := no_note_page "Alice Smith" in
  first_displayed [shown "Connect"] = Some (shown "Connect")
  /\ App.connect_candidates p = Ok [shown "Connect"]
  /\ (forall k, App.note_polls p k = App.mkNotePoll (Ok []) (Ok []))
  /\ App.msg_candidates p = Ok [shown "Message"]
  /\ first_displayed [shown "Message"] = Some (shown "Message")
  /\ App.open_message_or_connect p = ([ClickConnect], Ok App.follow_only)
  /\ App.send_connection_message p alice true
     = ([Navigate "https://www.linkedin.com/in/alice"; ClickConnect], Ok UNREACHABLE).
Proof. repeat split; reflexivity. Qed.

(** Claim C3, an instance: without a Connect button the Message button is clicked;
    with one and no note, nothing but Connect is; with one and a lookup of
    the editor that raises after the click, Message is clicked as well. *)
Lemma message_channel_when_connect_gives_way_witness :
  fst (App.open_message_or_connect (message_page "Alice Smith")) = [ClickMessage]
  /\ App.open_message_or_connect (no_note_page "Alice Smith")
     = ([ClickConnect], Ok App.follow_only)
  /\ ClickMessage ∈ fst (App.open_message_or_connect (editor_raises_page "Alice Smith")).
Proof.
  split; [|split].
  - destruct (message_channel_when_connect_gives_way (message_page "Alice Smith")
                (fst (App.open_message_or_connect (message_page "Alice Smith")))
                (snd (App.open_message_or_connect (message_page "Alice Smith")))
                eq_refl) as (_ & _ & H & _).
    apply H.
    + right. exists []. split; reflexivity.
    + exists [shown "Message"], (shown "Message"). repeat split; reflexivity.
  - destruct (message_channel_when_connect_gives_way (no_note_page "Alice Smith")
                (fst (App.open_message_or_connect (no_note_page "Alice Smith")))
                (snd (App.open_message_or_connect (no_note_page "Alice Smith")))
                eq_refl) as (_ & _ & _ & H).
    destruct H as [H1 H2].
    + exists [shown "Connect"], (shown "Connect"). repeat split; reflexivity.
    + intros k _. split.
      * intros (pre & nb & post & Hn & _). destruct pre; discriminate Hn.
      * exists []. split; [reflexivity|constructor].
    + rewrite (surjective_pairing (App.open_message_or_connect (no_note_page "Alice Smith"))).
      now rewrite H1, H2.
  - destruct (message_channel_when_connect_gives_way (editor_raises_page "Alice Smith")
                (fst (App.open_message_or_connect (editor_raises_page "Alice Smith")))
                (snd (App.open_message_or_connect (editor_raises_page "Alice Smith")))
                eq_refl) as (H & _).
    apply H. split.
    + right. right. split.
      * exists [shown "Connect"], (shown "Connect"). repeat split; reflexivity.
      * exists 0%nat. split; [lia|]. split; [|intros j Hj; lia].
        split; [|now left].
        intros (pre & nb & post & Hn & _). destruct pre; discriminate Hn.
    + exists [shown "Message"], (shown "Message"). repeat split; reflexivity.
Defined.

(** Claim C4 as stated does not hold.  A first note of 459 characters whose character
    296 is a space: the cut of 297 characters loses that space, and the
    note sent has 299 characters, not 300. *)
Lemma note_truncation_counterexample :
  let msg_short := App.FIRST_MESSAGE_SHORT "A" "Data Analyst" long_company in
  Py.len msg_short = 459
  /\ String.get 296 msg_short = Some " "%char
  /\ Py.len (shorten_for_note msg_short 300) = 299.
Proof. vm_compute. repeat split; reflexivity. Qed.

(** Claim C4, an instance: that note stays under the ceiling of 300. *)
Lemma note_text_within_ceiling_witness :
  3 <= 300
  /\ Py.len (shorten_for_note
               (short_template true "A" "Data Analyst" long_company) 300) <= 300.
Proof.
  split; [lia|].
  destruct (note_text_within_ceiling true "A" "Data Analyst" long_company 300
              ltac:(lia)) as [_ H].
  apply H. vm_compute. reflexivity.
Defined.

(** Claim C5 as stated does not hold.  The stand-alone bot sends Alice Smith her first
    message, and her row is still pending afterwards. *)
Lemma bot_first_message_counterexample :
  let r := Bot.run_first_messages 20 today (fun _ => bot_page) [alice] in
  (0%nat, fst (Bot.send_connection_message bot_page alice true), Ok true) ∈ attempts r
  /\ status <$> final r !! 0%nat = Some "pending"
  /\ message1_sent <$> final r !! 0%nat = Some "TRUE".
Proof. vm_compute. repeat split; constructor. Qed.

(** Claim C5, an instance: the app turns the row to connected, the bot leaves its
    status. *)
Lemma first_message_sent_updates_row_witness :
  final (App.run_first_messages 20 today (fun _ => note_page "Alice Smith") [alice])
    !! 0%nat
  = Some (mkRow "Alice Smith" "Data Analyst" "Acme" "https://www.linkedin.com/in/alice"
            "connected" "TRUE" "" "2024-03-10" "Auto-filled from applied job"
            "https://jobright.ai/jobs/info/1")
  /\ final (Bot.run_first_messages 20 today (fun _ => bot_page) [alice]) !! 0%nat
     = Some (mkRow "Alice Smith" "Data Analyst" "Acme" "https://www.linkedin.com/in/alice"
               "pending" "TRUE" "" "2024-03-10" "Auto-filled from applied job"
               "https://jobright.ai/jobs/info/1").
Proof.
  pose proof (first_message_sent_updates_row 20 today
                (fun _ => note_page "Alice Smith") (fun _ => bot_page) [alice] 0%nat
                (fst (App.send_connection_message (note_page "Alice Smith") alice true)))
    as [HA _].
  pose proof (first_message_sent_updates_row 20 today
                (fun _ => note_page "Alice Smith") (fun _ => bot_page) [alice] 0%nat
                (fst (Bot.send_connection_message bot_page alice true)))
    as [_ HB].
  split.
  - destruct HA as (row & Hrow & ->); [vm_compute; constructor|].
    inversion Hrow; subst row. reflexivity.
  - destruct HB as (row & Hrow & ->); [vm_compute; constructor|].
    inversion Hrow; subst row. reflexivity.
Defined.

(** Claim C6, an instance: the page that loads for Alice Smith is not her profile;
    the attempt is a safety-skip in either stage and her row stays as it
    was. *)
Lemma safety_skip_leaves_row_unchanged_witness :
  let due := contacted "Alice Smith" "https://www.linkedin.com/in/alice" "2024-03-03" in
  ((0%nat, [Navigate "https://www.linkedin.com/in/alice"], Ok PyFalse)
     ∈ attempts (App.run_first_messages 20 today (fun _ => wrong_page "Sign in") [alice])
   /\ final (App.run_first_messages 20 today (fun _ => wrong_page "Sign in") [alice])
        !! 0%nat = Some alice)
  /\ ((0%nat, [Navigate "https://www.linkedin.com/in/alice"], Ok PyFalse)
        ∈ attempts (App.run_followups 10 Datetime.fromisoformat today
                      (fun _ => wrong_page "Sign in") 3 [due])
      /\ final (App.run_followups 10 Datetime.fromisoformat today
                  (fun _ => wrong_page "Sign in") 3 [due]) !! 0%nat = Some due).
Proof.
  intros due.
  assert (H1 : (0%nat, [Navigate "https://www.linkedin.com/in/alice"], Ok PyFalse)
     ∈ attempts (App.run_first_messages 20 today (fun _ => wrong_page "Sign in") [alice])).
  { vm_compute. constructor. }
  assert (H2 : (0%nat, [Navigate "https://www.linkedin.com/in/alice"], Ok PyFalse)
     ∈ attempts (App.run_followups 10 Datetime.fromisoformat today
                   (fun _ => wrong_page "Sign in") 3 [due])).
  { vm_compute. constructor. }
  split; (split; [assumption|]).
  - destruct (proj1 (safety_skip_leaves_row_unchanged 20 10 Datetime.fromisoformat today
                       (fun _ => wrong_page "Sign in") 3 [alice] 0%nat _) H1)
      as (row & Hrow & ->).
    symmetry. exact Hrow.
  - destruct (proj2 (safety_skip_leaves_row_unchanged 20 10 Datetime.fromisoformat today
                       (fun _ => wrong_page "Sign in") 3 [due] 0%nat _) H2)
      as (row & Hrow & ->).
    symmetry. exact Hrow.
Defined.


End Instances_and_Counterexamples.

(** * Further properties *)

(** ** More on the shared loop *)

Section LoopOrder.

Context {R : Type}.
Variable quota : Z.
Variable eligible : Row -> bool.
Variable send : nat -> Row -> M R.
Variable counts : R -> bool.
Variable writes : R -> list (Column * string).

Lemma loop_length (i : nat) (records : list Row) (count : Z) (sheet : Sheet) :
  length (final (loop quota eligible send counts writes i records count sheet))
  = length sheet.
Proof.
  revert i count sheet. induction records as [|row rest IH]; intros i count sheet; simpl.
  { reflexivity. }
  destruct (quota <=? count); [reflexivity|].
  destruct (eligible row); [|apply IH].
  destruct (send i row) as [a [x|]]; simpl; [|reflexivity].
  rewrite IH. unfold update_row. apply length_alter.
Qed.

Lemma loop_sorted (i : nat) (records : list Row) (count : Z) (sheet : Sheet) :
  StronglySorted lt
    (attempted_rows (loop quota eligible send counts writes i records count sheet)).
Proof.
  unfold attempted_rows.
  revert i count sheet. induction records as [|row rest IH]; intros i count sheet; simpl.
  { constructor. }
  destruct (quota <=? count); [constructor|].
  destruct (eligible row); [|apply IH].
  destruct (send i row) as [a [x|]]; simpl.
  - constructor; [apply IH|].
    apply Forall_forall. intros j ([[k acts] y] & -> & Hin)%list_elem_of_fmap.
    apply loop_attempt in Hin. simpl. lia.
  - repeat constructor.
Qed.

Lemma loop_within_quota (i : nat) (records : list Row) (count : Z) (sheet : Sheet)
    pre a post :
  attempts (loop quota eligible send counts writes i records count sheet)
  = (pre ++ a :: post)%list ->
  count + Z.of_nat (length (filter (fun a => counted counts a = true) pre)) < quota.
Proof.
  revert i count sheet pre.
  induction records as [|row rest IH]; intros i count sheet pre; simpl.
  { intros Hnil. now destruct pre. }
  destruct (Z.leb_spec quota count); [intros Hnil; now destruct pre|].
  destruct (eligible row); [|apply IH].
  destruct (send i row) as [acts [x|]]; unfold attempted; cbn [attempts].
  - destruct pre as [|b pre]; [intros _; simpl; lia|].
    intros [= <- Hrest]. apply IH in Hrest.
    rewrite filter_cons. cbn [counted].
    destruct (counts x).
    + rewrite decide_True by reflexivity. cbn [length]. lia.
    + rewrite decide_False by discriminate. lia.
  - destruct pre as [|b pre]; [intros _; simpl; lia|].
    intros [= _ H']. now destruct pre.
Qed.

Lemma loop_raise_last (i : nat) (records : list Row) (count : Z) (sheet : Sheet)
    j acts :
  (j, acts, Raise)
    ∈ attempts (loop quota eligible send counts writes i records count sheet) ->
  raised (loop quota eligible send counts writes i records count sheet) = true
  /\ forall j', j' ∈ attempted_rows
                     (loop quota eligible send counts writes i records count sheet) ->
                (j' <= j)%nat.
Proof.
  revert i count sheet. induction records as [|row rest IH]; intros i count sheet; simpl.
  { intros H. now apply elem_of_nil in H. }
  destruct (quota <=? count); [intros H; now apply elem_of_nil in H|].
  destruct (eligible row); [|apply IH].
  destruct (send i row) as [a [x|]]; simpl.
  - intros [H|H]%elem_of_cons; [discriminate|].
    pose proof (loop_attempt _ _ _ _ _ _ _ _ _ _ _ _ H) as [Hle _].
    destruct (IH _ _ _ H) as [Hr Hlast]. split; [exact Hr|].
    unfold attempted_rows. cbn [attempts fmap list_fmap].
    intros j' [->|Hj']%elem_of_cons; [simpl; lia|]. now apply Hlast.
  - intros H%list_elem_of_singleton. inversion H; subst. split; [reflexivity|].
    unfold attempted_rows. cbn.
    intros j' Hj'%list_elem_of_singleton. subst. lia.
Qed.

(** every row after the run is the row before it, or that row with the
    cells of its attempt written *)
Lemma loop_final_row (sheet : Sheet) (j : nat) (row' : Row) :
  final (loop quota eligible send counts writes 0 sheet 0 sheet) !! j = Some row' ->
  exists row, sheet !! j = Some row /\
    (row' = row \/
     exists acts r,
       (j, acts, Ok r) ∈ attempts (loop quota eligible send counts writes 0 sheet 0 sheet)
       /\ eligible row = true /\ row' = write_cells (writes r) row).
Proof.
  set (run := loop quota eligible send counts writes 0 sheet 0 sheet).
  intros Hf.
  destruct (decide (j ∈ attempted_rows run)) as [Hin|Hno].
  - apply attempted_rows_elem in Hin as (acts & x & Hin).
    destruct (loop_attempt_row _ _ _ _ _ _ _ _ _ Hin) as (row & Hrow & He).
    exists row. split; [exact Hrow|]. destruct x as [r|].
    + right. exists acts, r. split; [exact Hin|]. split; [exact He|].
      subst run. rewrite (loop_final_attempt _ _ _ _ _ _ _ _ _ _ _ _ Hin), Hrow in Hf.
      now inversion Hf.
    + left. subst run. rewrite loop_final_unwritten in Hf; [congruence|].
      intros acts' r' Hin'.
      destruct (loop_attempt_unique _ _ _ _ _ _ _ _ _ _ _ _ _ _ Hin Hin') as [_ ?].
      discriminate.
  - subst run. rewrite loop_final_unwritten in Hf.
    + exists row'. auto.
    + intros acts r Hin. exfalso. apply Hno. apply attempted_rows_elem. eauto.
Qed.

Lemma loop_stops_at_exception (sheet : Sheet) :
  stops_at_exception sheet (loop quota eligible send counts writes 0 sheet 0 sheet).
Proof.
  intros j acts Hin. destruct (loop_raise_last _ _ _ _ _ _ Hin) as [Hr Hlast].
  split; [exact Hr|]. split; [exact Hlast|].
  intros k Hk. apply loop_final_unwritten. intros acts' r Hin'.
  exfalso.
  assert (Hkj : (k <= j)%nat).
  { apply Hlast. apply attempted_rows_elem. eauto. }
  assert (k = j) by lia. subst k.
  destruct (loop_attempt_unique _ _ _ _ _ _ _ _ _ _ _ _ _ _ Hin Hin') as [_ ?].
  discriminate.
Qed.

Lemma loop_keeps_identity (sheet : Sheet) :
  (forall r row, same_identity row (write_cells (writes r) row)) ->
  keeps_identity sheet (loop quota eligible send counts writes 0 sheet 0 sheet).
Proof.
  intros Hw. split; [apply loop_length|].
  intros j row' (row & Hrow & [->|(acts & r & _ & _ & ->)])%loop_final_row;
    exists row; split; auto.
  repeat split.
Qed.

End LoopOrder.

(** ** More on the four runs *)

Section RunOrder.

Variable DAILY_MAX_FIRST : Z.
Variable DAILY_MAX_FOLLOWUPS : Z.
Variable fromisoformat : string -> option date.
Variable today : date.
Variable app_pages : nat -> App.Page.
Variable bot_pages : nat -> Bot.Page.
Variable days_wait : Z.
Variable sheet : Sheet.

Local Ltac as_loops :=
  unfold App.run_first_messages, App.run_followups, Bot.run_first_messages,
    Bot.run_followups, get_rows;
  rewrite ?app_first_loop_eq, ?app_followup_loop_eq, ?bot_first_loop_eq,
    ?bot_followup_loop_eq.

(** X1.  In each of the four runs the attempts go down the sheet in row
    order, and so no row is attempted twice. *)
Theorem runs_attempt_in_sheet_order :
  in_sheet_order (App.run_first_messages DAILY_MAX_FIRST today app_pages sheet)
  /\ in_sheet_order
       (App.run_followups DAILY_MAX_FOLLOWUPS fromisoformat today app_pages days_wait sheet)
  /\ in_sheet_order (Bot.run_first_messages DAILY_MAX_FIRST today bot_pages sheet)
  /\ in_sheet_order
       (Bot.run_followups DAILY_MAX_FOLLOWUPS fromisoformat today bot_pages days_wait sheet).
Proof. as_loops. unfold in_sheet_order. split; [|split; [|split]]; apply loop_sorted. Qed.

(** X2.  None of the four runs adds, removes or moves a row, and none
    changes a recruiter_name, job_title, company, linkedin_url, notes or
    job_url cell. *)
Theorem runs_keep_identity_cells :
  keeps_identity sheet (App.run_first_messages DAILY_MAX_FIRST today app_pages sheet)
  /\ keeps_identity sheet
       (App.run_followups DAILY_MAX_FOLLOWUPS fromisoformat today app_pages days_wait sheet)
  /\ keeps_identity sheet (Bot.run_first_messages DAILY_MAX_FIRST today bot_pages sheet)
  /\ keeps_identity sheet
       (Bot.run_followups DAILY_MAX_FOLLOWUPS fromisoformat today bot_pages days_wait sheet).
Proof.
  as_loops. split; [|split; [|split]]; apply loop_keeps_identity.
  - intros [] row; repeat split.
  - intros [] row; repeat split.
  - intros [] row; repeat split.
  - intros [] row; repeat split.
Qed.

(** X3.  If no row of the sheet has message2_sent TRUE without
    message1_sent TRUE, none has after any of the four runs: a follow-up
    flag is only ever written on a row whose first-message flag reads
    TRUE. *)
Theorem runs_keep_stage_order :
  Forall stage_ordered sheet ->
  Forall stage_ordered
    (final (App.run_first_messages DAILY_MAX_FIRST today app_pages sheet))
  /\ Forall stage_ordered
       (final (App.run_followups DAILY_MAX_FOLLOWUPS fromisoformat today app_pages
                 days_wait sheet))
  /\ Forall stage_ordered
       (final (Bot.run_first_messages DAILY_MAX_FIRST today bot_pages sheet))
  /\ Forall stage_ordered
       (final (Bot.run_followups DAILY_MAX_FOLLOWUPS fromisoformat today bot_pages
                 days_wait sheet)).
Proof.
  intros Hs. as_loops.
  split; [|split; [|split]]; apply Forall_lookup; intros j row' Hf;
    apply loop_final_row in Hf as (row & Hrow & [->|(acts & r & _ & He & ->)]);
    try (now apply (Forall_lookup_1 _ _ _ _ Hs Hrow)).
  - pose proof (Forall_lookup_1 _ _ _ _ Hs Hrow) as Ho.
    destruct r; unfold stage_ordered in *; cbn; auto.
  - apply followup_eligible_due in He as (_ & Hm1 & _).
    destruct r; unfold stage_ordered; cbn; auto.
  - pose proof (Forall_lookup_1 _ _ _ _ Hs Hrow) as Ho.
    destruct r; unfold stage_ordered in *; cbn; auto.
  - apply followup_eligible_due in He as (_ & Hm1 & _).
    destruct r; unfold stage_ordered; cbn; auto.
Qed.

(** X4.  In each of the four runs an attempt is made only while the
    messages sent so far in the run are fewer than the daily maximum; with
    a maximum of zero or less, no attempt is made at all. *)
Theorem runs_attempt_within_quota :
  within_quota is_true DAILY_MAX_FIRST
    (App.run_first_messages DAILY_MAX_FIRST today app_pages sheet)
  /\ within_quota is_true DAILY_MAX_FOLLOWUPS
       (App.run_followups DAILY_MAX_FOLLOWUPS fromisoformat today app_pages days_wait sheet)
  /\ within_quota (fun success : bool => success) DAILY_MAX_FIRST
       (Bot.run_first_messages DAILY_MAX_FIRST today bot_pages sheet)
  /\ within_quota (fun success : bool => success) DAILY_MAX_FOLLOWUPS
       (Bot.run_followups DAILY_MAX_FOLLOWUPS fromisoformat today bot_pages days_wait sheet).
Proof.
  as_loops. unfold within_quota.
  split; [|split; [|split]]; intros pre a post H;
    apply loop_within_quota in H; lia.
Qed.

(** X5.  No run handles an exception of a send attempt: in each of the
    four runs the attempt that raises is the last one, the run ends with
    the exception, and the row of that attempt and all rows after it are
    left as they were. *)
Theorem runs_stop_at_exception :
  stops_at_exception sheet
    (App.run_first_messages DAILY_MAX_FIRST today app_pages sheet)
  /\ stops_at_exception sheet
       (App.run_followups DAILY_MAX_FOLLOWUPS fromisoformat today app_pages days_wait sheet)
  /\ stops_at_exception sheet
       (Bot.run_first_messages DAILY_MAX_FIRST today bot_pages sheet)
  /\ stops_at_exception sheet
       (Bot.run_followups DAILY_MAX_FOLLOWUPS fromisoformat today bot_pages days_wait sheet).
Proof. as_loops. split; [|split; [|split]]; apply loop_stops_at_exception. Qed.

End RunOrder.

(** ** A stage is not repeated *)

Section OncePerStage.

Lemma flagged_not_first_eligible row :
  Py.upper (message1_sent row) = "TRUE" -> first_eligible row = false.
Proof. unfold first_eligible. intros ->. apply andb_false_r. Qed.

Lemma flagged_not_followup_eligible fromisoformat today days_wait row :
  Py.upper (message2_sent row) = "TRUE" ->
  followup_eligible fromisoformat today days_wait row = false.
Proof.
  unfold followup_eligible. intros ->. cbn.
  now rewrite andb_false_r.
Qed.

(** the row of an attempt that returned [x], after the run *)
Lemma loop_final_written {R} quota eligible (send : nat -> Row -> M R) counts writes
    (sheet : Sheet) j acts x :
  (j, acts, Ok x) ∈ attempts (loop quota eligible send counts writes 0 sheet 0 sheet) ->
  exists row, sheet !! j = Some row
    /\ final (loop quota eligible send counts writes 0 sheet 0 sheet) !! j
       = Some (write_cells (writes x) row).
Proof.
  intros Hin. destruct (loop_attempt_row _ _ _ _ _ _ _ _ _ Hin) as (row & Hrow & _).
  exists row. split; [exact Hrow|].
  now rewrite (loop_final_attempt _ _ _ _ _ _ _ _ _ _ _ _ Hin), Hrow.
Qed.

(** X6.  A row whose first-message attempt returned sent or unreachable
    (for the bot: succeeded) is never attempted by a later first-message
    run on the sheet that the run left, whatever the quota, the day and
    the pages; likewise for follow-ups.  Each stage reaches a recipient at
    most once. *)
Theorem stage_not_repeated
    (Q1 Q2 Q1' Q2' : Z) (fromisoformat fromisoformat' : string -> option date)
    (today today' : date) (app_pages app_pages' : nat -> App.Page)
    (bot_pages bot_pages' : nat -> Bot.Page) (days_wait days_wait' : Z)
    (sheet : Sheet) (j : nat) (acts : list action) (x : result) :
  x <> PyFalse ->
  ((j, acts, Ok x) ∈ attempts (App.run_first_messages Q1 today app_pages sheet) ->
   j ∉ attempted_rows
         (App.run_first_messages Q1' today' app_pages'
            (final (App.run_first_messages Q1 today app_pages sheet))))
  /\
  ((j, acts, Ok x)
     ∈ attempts (App.run_followups Q2 fromisoformat today app_pages days_wait sheet) ->
   j ∉ attempted_rows
         (App.run_followups Q2' fromisoformat' today' app_pages' days_wait'
            (final (App.run_followups Q2 fromisoformat today app_pages days_wait sheet))))
  /\
  ((j, acts, Ok true) ∈ attempts (Bot.run_first_messages Q1 today bot_pages sheet) ->
   j ∉ attempted_rows
         (Bot.run_first_messages Q1' today' bot_pages'
            (final (Bot.run_first_messages Q1 today bot_pages sheet))))
  /\
  ((j, acts, Ok true)
     ∈ attempts (Bot.run_followups Q2 fromisoformat today bot_pages days_wait sheet) ->
   j ∉ attempted_rows
         (Bot.run_followups Q2' fromisoformat' today' bot_pages' days_wait'
            (final (Bot.run_followups Q2 fromisoformat today bot_pages days_wait sheet)))).
Proof.
  intros Hx.
  unfold App.run_first_messages, App.run_followups, Bot.run_first_messages,
    Bot.run_followups, get_rows.
  rewrite !app_first_loop_eq, !app_followup_loop_eq, !bot_first_loop_eq,
    !bot_followup_loop_eq.
  split; [|split; [|split]]; intros Hin;
    apply loop_final_written in Hin as (row & _ & Hf).
  - refine (proj1 (loop_passes_over _ _ _ _ _
              (fun r => Py.upper (message1_sent r) = "TRUE") _
              flagged_not_first_eligible _ _ Hf _)).
    destruct x; [reflexivity|congruence|reflexivity].
  - refine (proj1 (loop_passes_over _ _ _ _ _
              (fun r => Py.upper (message2_sent r) = "TRUE") _
              (flagged_not_followup_eligible _ _ _) _ _ Hf _)).
    destruct x; [reflexivity|congruence|reflexivity].
  - refine (proj1 (loop_passes_over _ _ _ _ _
              (fun r => Py.upper (message1_sent r) = "TRUE") _
              flagged_not_first_eligible _ _ Hf _)).
    reflexivity.
  - refine (proj1 (loop_passes_over _ _ _ _ _
              (fun r => Py.upper (message2_sent r) = "TRUE") _
              (flagged_not_followup_eligible _ _ _) _ _ Hf _)).
    reflexivity.
Qed.

(** X7.  Let the text the first-message run writes for today parse back
    to a date [d].  A row that was sent its first message in that run is
    not attempted by a follow-up run on a day fewer than [days_wait] days
    after [d]: not on the same day when [days_wait] is positive. *)
Theorem no_followup_before_wait
    (Q1 Q2 : Z) (fromisoformat : string -> option date) (today later d : date)
    (app_pages app_pages' : nat -> App.Page) (bot_pages bot_pages' : nat -> Bot.Page)
    (days_wait : Z) (sheet : Sheet) (j : nat) (acts : list action) :
  fromisoformat (isoformat today) = Some d ->
  toordinal later - toordinal d < days_wait ->
  ((j, acts, Ok PyTrue) ∈ attempts (App.run_first_messages Q1 today app_pages sheet) ->
   j ∉ attempted_rows
         (App.run_followups Q2 fromisoformat later app_pages' days_wait
            (final (App.run_first_messages Q1 today app_pages sheet))))
  /\
  ((j, acts, Ok true) ∈ attempts (Bot.run_first_messages Q1 today bot_pages sheet) ->
   j ∉ attempted_rows
         (Bot.run_followups Q2 fromisoformat later bot_pages' days_wait
            (final (Bot.run_first_messages Q1 today bot_pages sheet)))).
Proof.
  intros Hparse Hlt.
  unfold App.run_first_messages, App.run_followups, Bot.run_first_messages,
    Bot.run_followups, get_rows.
  rewrite !app_first_loop_eq, !app_followup_loop_eq, !bot_first_loop_eq,
    !bot_followup_loop_eq.
  split; intros Hin; apply loop_final_written in Hin as (row & _ & Hf).
  - refine (proj1 (loop_passes_over _ _ _ _ _
              (not_yet_due fromisoformat later days_wait) _
              (not_yet_due_ineligible _ _ _) _ _ Hf _)).
    right. exists d. split; [exact Hparse|exact Hlt].
  - refine (proj1 (loop_passes_over _ _ _ _ _
              (not_yet_due fromisoformat later days_wait) _
              (not_yet_due_ineligible _ _ _) _ _ Hf _)).
    right. exists d. split; [exact Hparse|exact Hlt].
Qed.

End OncePerStage.

(** ** More on the messaging protocol *)

Section ProtocolTraces.

(** decide membership in, and draw conclusions from membership in, a list
    that is written out *)
Local Ltac in_list :=
  repeat first [ apply list_elem_of_here | apply list_elem_of_further ].

Local Ltac not_in_list H :=
  repeat (apply elem_of_cons in H as [H|H]; [try discriminate|]);
  try (now apply elem_of_nil in H).

Lemma click_note_button_cases (nbs : list elem) :
  App.click_note_button nbs = ([], Ok false)
  \/ App.click_note_button nbs = ([ClickAddNote], Ok true)
  \/ App.click_note_button nbs = ([], Raise).
Proof.
  induction nbs as [|nb nbs IH]; [now left|].
  cbn [App.click_note_button]. destruct (is_displayed nb) as [[|]|]; cbn.
  - destruct (interact nb) as [[]|]; cbn; auto.
  - destruct IH as [->|[->| ->]]; auto.
  - auto.
Qed.

Lemma note_loop_cases (polls : list App.NotePoll) :
  App.note_loop polls = ([], Ok App.follow_only)
  \/ App.note_loop polls = ([], Ok App.note)
  \/ App.note_loop polls = ([ClickAddNote], Ok App.note)
  \/ App.note_loop polls = ([], Raise).
Proof.
  induction polls as [|s polls IH]; [now left|].
  cbn [App.note_loop].
  assert (Hc : catch (nbs <- ask (App.note_buttons s) ;; App.click_note_button nbs)
                     (ret false)
               = ([], Ok false)
            \/ catch (nbs <- ask (App.note_buttons s) ;; App.click_note_button nbs)
                      (ret false)
               = ([ClickAddNote], Ok true)).
  { destruct (App.note_buttons s) as [nbs|]; cbn; [|auto].
    destruct (click_note_button_cases nbs) as [->|[->| ->]]; cbn; auto. }
  destruct Hc as [->| ->]; cbn [bind ret app]; [|auto].
  destruct (App.editors s) as [eds|]; cbn [ask bind]; [|auto].
  destruct (App.any_displayed eds) as [[|]|]; cbn [ret app]; auto.
  destruct IH as [->|[->|[->| ->]]]; auto.
Qed.

(** what channel discovery can do and return: it never raises *)
Lemma open_message_or_connect_cases (p : App.Page) :
  App.open_message_or_connect p
  ∈ [([ClickConnect], Ok App.follow_only);
     ([ClickConnect], Ok App.note);
     ([ClickConnect; ClickAddNote], Ok App.note);
     ([ClickMessage], Ok App.message);
     ([ClickFollow], Ok App.follow_only);
     ([], Ok App.NoMode);
     ([ClickConnect; ClickMessage], Ok App.message);
     ([ClickConnect; ClickFollow], Ok App.follow_only);
     ([ClickConnect], Ok App.NoMode)].
Proof.
  assert (Hm : App.message_path p = ([], Ok None)
            \/ App.message_path p = ([ClickMessage], Ok (Some App.message))
            \/ App.message_path p = ([], Raise)).
  { unfold App.message_path. destruct (App.msg_candidates p) as [l|]; cbn; [|auto].
    destruct (first_displayed l) as [b|]; cbn; [|auto].
    destruct (interact b) as [[]|]; cbn; auto. }
  assert (Hf : App.follow_path p = ([], Ok None)
            \/ App.follow_path p = ([ClickFollow], Ok (Some App.follow_only))
            \/ App.follow_path p = ([], Raise)).
  { unfold App.follow_path. destruct (App.follow_candidates p) as [l|]; cbn; [|auto].
    destruct (first_displayed l) as [b|]; cbn; [|auto].
    destruct (interact b) as [[]|]; cbn; auto. }
  assert (Hc : App.connect_path p = ([], Ok None)
            \/ App.connect_path p = ([], Raise)
            \/ App.connect_path p = ([ClickConnect], Raise)
            \/ App.connect_path p = ([ClickConnect], Ok (Some App.follow_only))
            \/ App.connect_path p = ([ClickConnect], Ok (Some App.note))
            \/ App.connect_path p = ([ClickConnect; ClickAddNote], Ok (Some App.note))).
  { unfold App.connect_path. destruct (App.connect_candidates p) as [l|]; cbn [ask bind];
      [|auto].
    destruct (first_displayed l) as [b|]; cbn [ret app]; [|auto].
    destruct (interact b) as [[]|]; cbn [act bind]; [|auto].
    destruct (note_loop_cases (map (App.note_polls p) (seq 0 8)))
      as [->|[->|[->| ->]]]; cbn; auto 10. }
  unfold App.open_message_or_connect.
  destruct Hc as [->|[->|[->|[->|[->| ->]]]]]; cbn [catch bind ret app];
    try (in_list; fail);
    destruct Hm as [->|[->| ->]]; cbn [catch bind ret app];
    try (in_list; fail);
    destruct Hf as [->|[->| ->]]; cbn [catch bind ret app]; in_list.
Qed.

(** X8.  Channel discovery never raises, whatever the driver does.  It
    clicks nothing but Connect, Add a note, Message and Follow.  It
    returns the message channel exactly when it clicked Message, the note
    channel only after clicking Connect and never after clicking Message
    or Follow, and after clicking Follow it returns follow_only. *)
Theorem channel_discovery_never_raises (p : App.Page) :
  exists acts m,
    App.open_message_or_connect p = (acts, Ok m)
    /\ Forall discovery_click acts
    /\ (m = App.message <-> ClickMessage ∈ acts)
    /\ (m = App.note ->
        ClickConnect ∈ acts /\ (ClickMessage ∉ acts) /\ (ClickFollow ∉ acts))
    /\ (ClickFollow ∈ acts -> m = App.follow_only).
Proof.
  pose proof (open_message_or_connect_cases p) as H.
  repeat (apply elem_of_cons in H as [H|H]); [..|now apply elem_of_nil in H];
    rewrite H; eexists _, _; (split; [reflexivity|]);
    (split; [repeat constructor; unfold discovery_click; auto|]);
    (split; [split; [intros E; try discriminate; in_list
                    |intros E; try reflexivity; not_in_list E]|]);
    (split; [intros E; try discriminate;
             (split; [in_list|split; intros E'; not_in_list E'])|]);
    intros E; try reflexivity; not_in_list E.
Qed.

(** what the compose-and-submit step can do and return *)
Lemma send_message_in_modal_cases (p : App.Page) (msg expected_name : string)
    (skip_modal_check : bool) :
  (App.send_message_in_modal p msg expected_name skip_modal_check = ([], Ok false)
   \/ App.send_message_in_modal p msg expected_name skip_modal_check = ([], Raise))
  \/ ((skip_modal_check = true
       \/ App.verify_message_modal_recipient p expected_name = true)
      /\ (App.send_message_in_modal p msg expected_name skip_modal_check
          = ([TypeText msg], Ok false)
          \/ App.send_message_in_modal p msg expected_name skip_modal_check
             = ([TypeText msg], Raise)
          \/ App.send_message_in_modal p msg expected_name skip_modal_check
             = ([TypeText msg; ClickSend], Ok true))).
Proof.
  unfold App.send_message_in_modal.
  destruct (negb skip_modal_check
            && negb (App.verify_message_modal_recipient p expected_name)) eqn:Hg;
    [auto|].
  assert (Hv : skip_modal_check = true
               \/ App.verify_message_modal_recipient p expected_name = true).
  { apply andb_false_iff in Hg as [Hg|Hg]; apply negb_false_iff in Hg; auto. }
  destruct (App.find_editor (map (App.editor_polls p) (seq 0 8))) as [[ed|]|];
    cbn [ask bind ret app]; [|auto..].
  destruct (interact ed) as [[]|]; cbn [act bind]; [|auto].
  destruct (pick_button (map (App.send_buttons p) (seq 0 3))) as [btn|];
    cbn [ret app]; [|right; auto].
  destruct (interact btn) as [[]|]; cbn; right; auto.
Qed.

(** the four facts of the next theorem, for actions and a result that are
    written out *)
Local Ltac trace_facts :=
  intros [= <- <-];
  (split; [split; intros E;
           [first [discriminate | solve [in_list]]
           |first [reflexivity | solve [not_in_list E]]]|]);
  (split; [intros E;
           first [solve [not_in_list E]
                 | (eexists [_; _], _; reflexivity)
                 | (eexists [_; _; _], _; reflexivity)]|]);
  (split; [intros E;
           first [discriminate
                 | split; [intros E'; solve [not_in_list E']
                          |intros msg E'; solve [not_in_list E']]]|]);
  intros E; first [reflexivity | solve [not_in_list E]].

(** X9.  An attempt of the app is reported sent exactly when Send was
    clicked, and then typing the message and clicking Send are its last
    two actions.  An attempt reported unreachable typed nothing and sent
    nothing; an attempt that clicked Follow is reported unreachable. *)
Theorem sent_exactly_when_send_clicked (p : App.Page) (row : Row)
    (first_message : bool) (acts : list action) (r : res result) :
  App.send_connection_message p row first_message = (acts, r) ->
  (r = Ok PyTrue <-> ClickSend ∈ acts)
  /\ (ClickSend ∈ acts -> exists pre msg, acts = (pre ++ [TypeText msg; ClickSend])%list)
  /\ (r = Ok UNREACHABLE -> (ClickSend ∉ acts) /\ forall msg, TypeText msg ∉ acts)
  /\ (ClickFollow ∈ acts -> r = Ok UNREACHABLE).
Proof.
  unfold App.send_connection_message.
  destruct (negb (Py.truthy (linkedin_url row))); [cbn [ret]; trace_facts|].
  destruct (App.get p) as [[]|]; cbn [act bind]; [|trace_facts].
  destruct (negb (Py.mem (Py.lower (App.expected_name_of p row)) App.generic_names)
            && negb (App.verify_profile_loaded p (App.expected_name_of p row) 8));
    [cbn [ret app]; trace_facts|].
  set (e := App.expected_name_of p row).
  set (full := (if first_message then App.FIRST_MESSAGE_FULL else App.FOLLOWUP_MESSAGE_FULL)
                 e (job_title row) (company row)).
  set (short := shorten_for_note
                  ((if first_message then App.FIRST_MESSAGE_SHORT
                    else App.FOLLOWUP_MESSAGE_SHORT) e (job_title row) (company row)) 300).
  pose proof (open_message_or_connect_cases p) as H.
  repeat (apply elem_of_cons in H as [H|H]); [..|now apply elem_of_nil in H];
    rewrite H; cbn [bind ret app].
  all: try (trace_facts; fail).
  all: match goal with
       | |- context [App.send_message_in_modal ?q ?m ?n ?s] =>
           destruct (send_message_in_modal_cases q m n s)
             as [[->| ->]|[_ [->|[->| ->]]]]
       end; cbn [bind ret app]; trace_facts.
Qed.

Lemma note_text_bound (first_message : bool) (name job_title company : string) :
  Py.len (shorten_for_note (short_template first_message name job_title company) 300)
  <= 300.
Proof.
  destruct (shorten_stripped (short_template first_message name job_title company) 300
              ltac:(lia) (short_template_stripped _ _ _ _)) as [H1 H2].
  destruct (Z.le_gt_cases
              (Py.len (short_template first_message name job_title company)) 300)
    as [Hle|Hgt].
  - now rewrite (H1 Hle).
  - apply H2. lia.
Qed.

(** X10.  Whatever an attempt of the app types is one of two texts.  In
    the message channel (Message was clicked) it is the full template,
    uncut, and it is typed only after the check of the recipient shown in
    the message window passed.  In the note channel (Connect was clicked,
    Message was not) it is the short template put through
    [shorten_for_note], at most 300 characters long, and the message
    window is not checked. *)
Theorem typed_text_by_channel (p : App.Page) (row : Row) (first_message : bool)
    (acts : list action) (r : res result) (msg : string) :
  App.send_connection_message p row first_message = (acts, r) ->
  TypeText msg ∈ acts ->
  let expected_name := App.expected_name_of p row in
  (ClickMessage ∈ acts
   /\ msg = full_template first_message expected_name (job_title row) (company row)
   /\ App.verify_message_modal_recipient p expected_name = true)
  \/
  ((ClickMessage ∉ acts) /\ ClickConnect ∈ acts
   /\ msg = shorten_for_note
              (short_template first_message expected_name (job_title row) (company row))
              300
   /\ Py.len msg <= 300).
Proof.
  unfold App.send_connection_message.
  destruct (negb (Py.truthy (linkedin_url row)));
    [intros [= <- <-] E; now apply elem_of_nil in E|].
  destruct (App.get p) as [[]|]; cbn [act bind];
    [|intros [= <- <-] E; now apply elem_of_nil in E].
  destruct (negb (Py.mem (Py.lower (App.expected_name_of p row)) App.generic_names)
            && negb (App.verify_profile_loaded p (App.expected_name_of p row) 8));
    [cbn [ret app]; intros [= <- <-] E; not_in_list E|].
  pose proof (note_text_bound first_message (App.expected_name_of p row)
                (job_title row) (company row)) as Hb.
  pose proof (open_message_or_connect_cases p) as H.
  repeat (apply elem_of_cons in H as [H|H]); [..|now apply elem_of_nil in H];
    rewrite H; cbn [bind ret app].
  all: try (intros [= <- <-] E; solve [not_in_list E]).
  all: match goal with
       | |- context [App.send_message_in_modal ?q ?m ?n ?s] =>
           destruct (send_message_in_modal_cases q m n s)
             as [[->| ->]|[Hv [->|[->| ->]]]]
       end; cbn [bind ret app]; intros [= <- <-] E;
       try solve [not_in_list E];
       repeat (apply elem_of_cons in E as [E|E]; [try discriminate|]);
       try (now apply elem_of_nil in E);
       injection E as ->; cbv zeta;
       first [ left; split; [solve [in_list]|]; split; [reflexivity|];
               destruct Hv as [Hv|Hv]; [discriminate|exact Hv]
             | right; split; [intros E'; solve [not_in_list E']|];
               split; [solve [in_list]|]; split; [reflexivity|exact Hb] ].
Qed.

(** what the two flows of the bot can do and return: a flow ends with a
    click on Send, or it raises without one *)
Local Ltac flow_done :=
  first [ solve [eexists; left; split; [reflexivity | intros E; not_in_list E]]
        | solve [eexists [_; _]; right; reflexivity]
        | solve [eexists [_; _; _]; right; reflexivity]
        | solve [eexists [_; _; _; _]; right; reflexivity] ].

Lemma bot_connect_flow_cases (p : Bot.Page) (message_text : string) :
  exists acts,
    (Bot.connect_flow p message_text = (acts, Raise) /\ (ClickSend ∉ acts))
    \/ (Bot.connect_flow p message_text = ((acts ++ [ClickSend])%list, Ok true)).
Proof.
  unfold Bot.connect_flow.
  destruct (Bot.connect_btn p) as [cb|]; cbn [ask act bind catch ret app];
    [|flow_done].
  destruct (interact cb) as [[]|]; cbn [ask act bind catch ret app]; [|flow_done].
  destruct (Bot.note_btn p) as [nb|]; cbn [ask act bind catch ret app];
    [destruct (interact nb) as [[]|]; cbn [ask act bind catch ret app]|].
  all: destruct (Bot.textbox_candidates p) as [tbs|];
         cbn [ask act bind catch ret app]; [|flow_done].
  all: destruct (first_displayed_strict tbs) as [[tb|]|];
         cbn [ask act bind catch ret app]; [|flow_done..].
  all: destruct (interact tb) as [[]|]; cbn [ask act bind catch ret app]; [|flow_done].
  all: destruct (pick_button (map (Bot.send_button p) (seq 0 5))) as [sb|];
         cbn [ask act bind catch ret app]; [|flow_done].
  all: destruct (interact sb) as [[]|]; cbn [ask act bind catch ret app]; flow_done.
Qed.

Lemma bot_message_flow_cases (p : Bot.Page) (message_text : string) :
  exists acts,
    (Bot.message_flow p message_text = (acts, Raise) /\ (ClickSend ∉ acts))
    \/ (Bot.message_flow p message_text = ((acts ++ [ClickSend])%list, Ok true)).
Proof.
  unfold Bot.message_flow.
  destruct (Bot.message_btn p) as [mb|]; cbn [ask bind];
    [|exists []; left; split; [reflexivity|apply not_elem_of_nil]].
  destruct (interact mb) as [[]|]; cbn [act bind];
    [|exists []; left; split; [reflexivity|apply not_elem_of_nil]].
  destruct (Bot.dialog p) as [[]|]; cbn [ask bind app];
    [|exists [ClickMessage]; left; split; [reflexivity|intros E; not_in_list E]].
  destruct (Bot.editor p) as [ed|]; cbn [ask bind app];
    [|exists [ClickMessage]; left; split; [reflexivity|intros E; not_in_list E]].
  destruct (interact ed) as [[]|]; cbn [act bind app];
    [|exists [ClickMessage]; left; split; [reflexivity|intros E; not_in_list E]].
  destruct (Bot.dialog_send_btn p) as [sb|]; cbn [ask bind app];
    [|exists [ClickMessage; TypeText message_text]; left;
      split; [reflexivity|intros E; not_in_list E]].
  destruct (interact sb) as [[]|]; cbn [act bind ret app].
  - exists [ClickMessage; TypeText message_text]. now right.
  - exists [ClickMessage; TypeText message_text]. left.
    split; [reflexivity|intros E; not_in_list E].
Qed.

(** X11.  An attempt of the stand-alone bot raises only when the
    navigation to the profile raises: every failure inside the connect
    flow and the message flow is swallowed and ends in [False].  It
    returns [True] exactly when Send was clicked, and then that click is
    its last action. *)
Theorem bot_attempt_swallows_failures (p : Bot.Page) (row : Row)
    (first_message : bool) (acts : list action) (r : res bool) :
  Bot.send_connection_message p row first_message = (acts, r) ->
  (r = Raise <-> linkedin_url row <> "" /\ Bot.get p = Raise)
  /\ (r = Ok true <-> ClickSend ∈ acts)
  /\ (r = Ok true -> exists pre, acts = (pre ++ [ClickSend])%list).
Proof.
  unfold Bot.send_connection_message.
  set (msg := (if first_message then Bot.FIRST_MESSAGE_TEMPLATE
               else Bot.FOLLOWUP_MESSAGE_TEMPLATE) _ _ _).
  destruct (Py.truthy (linkedin_url row)) eqn:Hu; cbn [negb].
  2:{ apply truthy_false in Hu. intros [= <- <-].
      split; [split; [discriminate|intros [? _]; contradiction]|].
      split; [split; [discriminate|intros E; now apply elem_of_nil in E]|discriminate]. }
  apply truthy_true in Hu.
  destruct (Bot.get p) as [[]|]; cbn [act bind].
  2:{ intros [= <- <-].
      split; [split; auto|].
      split; [split; [discriminate|intros E; now apply elem_of_nil in E]|discriminate]. }
  destruct (bot_connect_flow_cases p msg) as (a1 & [[-> H1]| ->]); cbn [catch].
  2:{ intros [= <- <-].
      split; [split; [discriminate|intros [_ ?]; discriminate]|].
      split; [split; [intros _|reflexivity]|intros _].
      - apply elem_of_cons. right. apply elem_of_app. right. in_list.
      - exists (Navigate (linkedin_url row) :: a1). reflexivity. }
  destruct (bot_message_flow_cases p msg) as (a2 & [[-> H2]| ->]); cbn [catch ret app].
  - intros [= <- <-].
    split; [split; [discriminate|intros [_ ?]; discriminate]|].
    split; [split; [discriminate|]|discriminate].
    rewrite app_nil_r.
    intros [E|[E|E]%elem_of_app]%elem_of_cons;
      [discriminate|exfalso; now apply H1|exfalso; now apply H2].
  - intros [= <- <-].
    split; [split; [discriminate|intros [_ ?]; discriminate]|].
    split; [split; [intros _|reflexivity]|intros _].
    + apply elem_of_cons. right. apply elem_of_app. right. apply elem_of_app. right.
      in_list.
    + exists (Navigate (linkedin_url row) :: a1 ++ a2)%list.
      cbn. now rewrite <- app_assoc.
Qed.



End ProtocolTraces.

(** ** More on strings *)

Section MoreStrings.

Lemma lstrip_starts_nonspace (s : string) : starts_nonspace (Py.lstrip s).
Proof.
  induction s as [|c r IH]; [exact I|]. cbn [Py.lstrip].
  destruct (Py.isspace c) eqn:Hc; [exact IH|exact Hc].
Qed.

Lemma lstrip_id (s : string) : starts_nonspace s -> Py.lstrip s = s.
Proof. destruct s as [|c r]; [reflexivity|]. cbn. now intros ->. Qed.

Lemma rstrip_cons (c : ascii) (r : string) :
  Py.rstrip (String c r)
  = match Py.rstrip r with
    | EmptyString => if Py.isspace c then EmptyString else String c EmptyString
    | r' => String c r'
    end.
Proof. reflexivity. Qed.

Lemma rstrip_starts_nonspace (s : string) :
  starts_nonspace s -> starts_nonspace (Py.rstrip s).
Proof.
  destruct s as [|c r]; [auto|]. cbn [starts_nonspace]. intros Hc.
  rewrite rstrip_cons. destruct (Py.rstrip r); [now rewrite Hc|exact Hc].
Qed.

Lemma rstrip_idem (s : string) : Py.rstrip (Py.rstrip s) = Py.rstrip s.
Proof.
  induction s as [|c r IH]; [reflexivity|].
  rewrite rstrip_cons. destruct (Py.rstrip r) as [|d r'] eqn:E.
  - destruct (Py.isspace c) eqn:Hc; [reflexivity|].
    rewrite rstrip_cons. cbn. now rewrite Hc.
  - rewrite rstrip_cons, IH. reflexivity.
Qed.

Lemma strip_starts_nonspace (s : string) : starts_nonspace (Py.strip s).
Proof. apply rstrip_starts_nonspace, lstrip_starts_nonspace. Qed.

Lemma strip_idem (s : string) : Py.strip (Py.strip s) = Py.strip s.
Proof.
  unfold Py.strip at 1. rewrite (lstrip_id _ (strip_starts_nonspace s)).
  unfold Py.strip. apply rstrip_idem.
Qed.

Lemma take_starts_nonspace (n : nat) (s : string) :
  starts_nonspace s -> starts_nonspace (Py.take_chars n s).
Proof. destruct n, s; cbn; auto. Qed.

Lemma strip_app_dots (x : string) :
  starts_nonspace x -> Py.rstrip x = x -> Py.strip (x +:+ "...") = x +:+ "...".
Proof.
  intros Hx _. unfold Py.strip.
  assert (Hl : Py.lstrip (x +:+ "...") = x +:+ "...").
  { destruct x as [|c r]; [reflexivity|]. rewrite app_cons. apply lstrip_id. exact Hx. }
  rewrite Hl. now apply rstrip_app_r.
Qed.

(** X13.  With a ceiling of 3 or more, [shorten_for_note] never returns
    more characters than the ceiling, for any text, and shortening what it
    returned changes nothing.  With a ceiling under 3 and a text that,
    stripped, is longer than the ceiling, what it returns is longer than
    the ceiling. *)
Theorem shorten_for_note_ceiling (text : string) (limit : Z) :
  (3 <= limit ->
   Py.len (shorten_for_note text limit) <= limit
   /\ shorten_for_note (shorten_for_note text limit) limit
      = shorten_for_note text limit)
  /\ (limit < 3 -> limit < Py.len (Py.strip text) ->
      limit < Py.len (shorten_for_note text limit)).
Proof.
  split.
  - intros Hl.
    assert (Hs : shorten_for_note text limit = shorten_for_note (Py.strip text) limit).
    { unfold shorten_for_note. now rewrite strip_idem. }
    destruct (shorten_stripped (Py.strip text) limit Hl (strip_idem text)) as [H1 H2].
    assert (Hb : Py.len (shorten_for_note text limit) <= limit).
    { rewrite Hs. destruct (Z.le_gt_cases (Py.len (Py.strip text)) limit) as [Hle|Hgt].
      - now rewrite (H1 Hle).
      - apply H2. lia. }
    split; [exact Hb|].
    assert (Hst : Py.strip (shorten_for_note text limit) = shorten_for_note text limit).
    { rewrite Hs. destruct (Z.le_gt_cases (Py.len (Py.strip text)) limit) as [Hle|Hgt].
      - rewrite (H1 Hle). apply strip_idem.
      - destruct (H2 ltac:(lia)) as [-> _]. apply strip_app_dots.
        + apply rstrip_starts_nonspace, take_starts_nonspace, strip_starts_nonspace.
        + apply rstrip_idem. }
    destruct (shorten_stripped (shorten_for_note text limit) limit Hl Hst) as [H1' _].
    now apply H1'.
  - intros Hl Hgt. unfold shorten_for_note.
    destruct (Z.leb_spec (Py.len (Py.strip text)) limit); [lia|].
    unfold Py.len. rewrite length_app. change (String.length "...") with 3%nat. lia.
Qed.

Lemma isspace_lower_char (c : ascii) : Py.isspace (Py.lower_char c) = Py.isspace c.
Proof. destruct c as [[] [] [] [] [] [] [] []]; reflexivity. Qed.

Lemma lower_char_idem (c : ascii) : Py.lower_char (Py.lower_char c) = Py.lower_char c.
Proof. destruct c as [[] [] [] [] [] [] [] []]; reflexivity. Qed.

Lemma lower_upper_char (c : ascii) :
  Nat.ltb (nat_of_ascii c) 128 = true ->
  Py.lower_char (Py.upper_char c) = Py.lower_char c.
Proof. destruct c as [[] [] [] [] [] [] [] []]; intros H; first [reflexivity|discriminate H]. Qed.

Lemma lower_idem (s : string) : Py.lower (Py.lower s) = Py.lower s.
Proof.
  unfold Py.lower. induction s as [|c r IH]; [reflexivity|].
  cbn. now rewrite lower_char_idem, IH.
Qed.

Lemma lower_upper (s : string) :
  isascii s = true -> Py.lower (Py.upper s) = Py.lower s.
Proof.
  unfold Py.lower, Py.upper. induction s as [|c r IH]; [reflexivity|].
  cbn [isascii]. intros [Hc Hr]%andb_true_iff.
  cbn. now rewrite lower_upper_char, IH.
Qed.

Lemma lower_app (a b : string) : Py.lower (a +:+ b) = Py.lower a +:+ Py.lower b.
Proof.
  unfold Py.lower. induction a as [|c r IH]; [reflexivity|].
  rewrite app_cons. cbn [Py.map_chars]. now rewrite IH, app_cons.
Qed.

Lemma lstrip_lower (s : string) : Py.lstrip (Py.lower s) = Py.lower (Py.lstrip s).
Proof.
  unfold Py.lower. induction s as [|c r IH]; [reflexivity|].
  cbn [Py.map_chars Py.lstrip]. rewrite isspace_lower_char.
  destruct (Py.isspace c); [exact IH|reflexivity].
Qed.

Lemma rstrip_lower (s : string) : Py.rstrip (Py.lower s) = Py.lower (Py.rstrip s).
Proof.
  unfold Py.lower. induction s as [|c r IH]; [reflexivity|].
  cbn [Py.map_chars]. rewrite !rstrip_cons, IH, isspace_lower_char.
  destruct (Py.rstrip r); cbn [Py.map_chars]; [destruct (Py.isspace c)|]; reflexivity.
Qed.

Lemma strip_lower (s : string) : Py.strip (Py.lower s) = Py.lower (Py.strip s).
Proof. unfold Py.strip. now rewrite lstrip_lower, rstrip_lower. Qed.

Lemma split_go_empty (w : string) :
  Py.split_go w "" = if String.eqb w "" then [] else [w].
Proof. reflexivity. Qed.

Lemma split_go_cons (w : string) (c : ascii) (r : string) :
  Py.split_go w (String c r)
  = if Py.isspace c
    then (if String.eqb w "" then Py.split_go "" r else w :: Py.split_go "" r)
    else Py.split_go (w +:+ String c "") r.
Proof. reflexivity. Qed.

Lemma split_go_lstrip (s : string) : Py.split_go "" (Py.lstrip s) = Py.split_go "" s.
Proof.
  induction s as [|c r IH]; [reflexivity|]. cbn [Py.lstrip Py.split_go].
  destruct (Py.isspace c) eqn:Hc; [exact IH|].
  cbn [Py.split_go]. now rewrite Hc.
Qed.

Lemma split_go_blank (s : string) :
  Py.rstrip s = "" -> forall w, Py.split_go w s = Py.split_go w "".
Proof.
  induction s as [|c r IH]; [reflexivity|]. rewrite rstrip_cons.
  destruct (Py.rstrip r) eqn:E; [|discriminate].
  destruct (Py.isspace c) eqn:Hc; [|discriminate].
  intros _ w. cbn [Py.split_go]. rewrite Hc, (IH eq_refl "").
  cbn. now destruct (String.eqb w "").
Qed.

Lemma split_go_rstrip (s : string) (w : string) :
  Py.split_go w (Py.rstrip s) = Py.split_go w s.
Proof.
  revert w. induction s as [|c r IH]; intros w; [reflexivity|].
  rewrite rstrip_cons. destruct (Py.rstrip r) as [|d r'] eqn:E.
  - pose proof (split_go_blank r E) as Hb.
    destruct (Py.isspace c) eqn:Hc.
    + cbn [Py.split_go]. rewrite Hc, (Hb ""). cbn. now destruct (String.eqb w "").
    + cbn [Py.split_go]. rewrite Hc. now rewrite Hb.
  - rewrite (split_go_cons w c (String d r')), (split_go_cons w c r).
    destruct (Py.isspace c); now rewrite !IH.
Qed.

Lemma split_strip (s : string) : Py.split (Py.strip s) = Py.split s.
Proof. unfold Py.split, Py.strip. now rewrite split_go_rstrip, split_go_lstrip. Qed.

Lemma app_not_empty_r (w : string) (c : ascii) : w +:+ String c "" <> "".
Proof. destruct w; [discriminate|]. rewrite app_cons. discriminate. Qed.

Lemma spacefree_snoc (w : string) (c : ascii) :
  spacefree w -> Py.isspace c = false -> spacefree (w +:+ String c "").
Proof.
  induction w as [|a r IH].
  - intros _ Hc. rewrite app_empty. cbn. auto.
  - intros [Ha Hr] Hc. rewrite app_cons. cbn [spacefree]. auto.
Qed.

(** the words [split] gives are words *)
Lemma split_go_words (s : string) (w : string) :
  spacefree w -> Forall is_word (Py.split_go w s).
Proof.
  revert w. induction s as [|c r IH]; intros w Hw.
  - cbn. destruct (String.eqb_spec w ""); [constructor|].
    repeat constructor; auto.
  - cbn [Py.split_go]. destruct (Py.isspace c) eqn:Hc.
    + destruct (String.eqb_spec w ""); [apply IH; exact I|].
      constructor; [split; auto|apply IH; exact I].
    + apply IH. now apply spacefree_snoc.
Qed.

Lemma split_go_nil (s : string) (w : string) :
  Py.split_go w s = [] -> w = "" /\ Py.lstrip s = "".
Proof.
  revert w. induction s as [|c r IH]; intros w.
  - cbn. destruct (String.eqb_spec w ""); [auto|discriminate].
  - cbn [Py.split_go Py.lstrip]. destruct (Py.isspace c).
    + destruct (String.eqb_spec w ""); [|discriminate].
      intros H. split; [assumption|]. now apply (IH "").
    + intros [H _]%IH. now apply app_not_empty_r in H.
Qed.

Lemma join_words_empty (l : list string) :
  Forall is_word l -> Py.join " " l = "" -> l = [].
Proof.
  destruct 1 as [|x l [Hx _] Hl]; [reflexivity|].
  cbn [Py.join]. destruct l as [|y l'].
  - intros ->. contradiction.
  - destruct x; [contradiction|]. rewrite app_cons. discriminate.
Qed.

Lemma lower_empty (s : string) : Py.lower s = "" -> s = "".
Proof. destruct s; [reflexivity|discriminate]. Qed.

(** the normalized name is empty exactly when the name is blank *)
Lemma normalize_name_empty (t : string) :
  App.normalize_name t = "" <-> Py.strip t = "".
Proof.
  unfold App.normalize_name. split.
  - intros H. apply join_words_empty in H; [|apply split_go_words; exact I].
    apply split_go_nil in H as [_ H]. rewrite lstrip_lower in H.
    apply lower_empty in H. unfold Py.strip. now rewrite H.
  - intros H. rewrite <- split_strip, strip_lower, H. reflexivity.
Qed.

Lemma app_empty_r (x : string) : x +:+ "" = x.
Proof. induction x as [|c r IH]; [reflexivity|]. rewrite app_cons. now f_equal. Qed.

Lemma str_app_assoc (a b c : string) : (a +:+ b) +:+ c = a +:+ (b +:+ c).
Proof. induction a as [|d r IH]; [reflexivity|]. rewrite !app_cons. now f_equal. Qed.

Lemma spacefree_split_go (x : string) (rest : string) (w : string) :
  spacefree x -> Py.split_go w (x +:+ rest) = Py.split_go (w +:+ x) rest.
Proof.
  revert w. induction x as [|c r IH]; intros w.
  - intros _. now rewrite app_empty, app_empty_r.
  - intros [Hc Hr]. rewrite app_cons, split_go_cons, Hc, (IH _ Hr).
    now rewrite str_app_assoc, app_cons, app_empty.
Qed.

Lemma split_join_words (l : list string) :
  Forall is_word l -> Py.split (Py.join " " l) = l.
Proof.
  unfold Py.split. induction 1 as [|x l [Hx Hs] Hl IH]; [reflexivity|].
  cbn [Py.join]. destruct l as [|y l'].
  - rewrite <- (app_empty_r x) at 1.
    rewrite (spacefree_split_go x "" "" Hs), app_empty, split_go_empty.
    destruct (String.eqb_spec x ""); [contradiction|reflexivity].
  - rewrite (spacefree_split_go x _ "" Hs), app_empty.
    change (" " +:+ Py.join " " (y :: l')) with (String " " (Py.join " " (y :: l'))).
    rewrite split_go_cons. change (Py.isspace " ") with true. cbv iota.
    destruct (String.eqb_spec x ""); [contradiction|].
    now rewrite IH.
Qed.

Lemma lower_join (l : list string) :
  Py.lower (Py.join " " l) = Py.join " " (map Py.lower l).
Proof.
  induction l as [|x l IH]; [reflexivity|]. cbn [Py.join map].
  destruct l as [|y l']; [reflexivity|].
  rewrite !lower_app, IH. reflexivity.
Qed.

Lemma lower_snoc (w : string) (c : ascii) :
  Py.lower w = w -> Py.lower_char c = c -> Py.lower (w +:+ String c "") = w +:+ String c "".
Proof. intros Hw Hc. rewrite lower_app, Hw. cbn. now rewrite Hc. Qed.

(** the words of a lower-cased text are in lower case *)
Lemma split_go_lower_words (s : string) (w : string) :
  Py.lower w = w ->
  Forall (fun x => Py.lower x = x) (Py.split_go w (Py.lower s)).
Proof.
  revert w. induction s as [|c r IH]; intros w Hw.
  - cbn. destruct (String.eqb w ""); repeat constructor; auto.
  - change (Py.lower (String c r)) with (String (Py.lower_char c) (Py.lower r)).
    cbn [Py.split_go]. destruct (Py.isspace (Py.lower_char c)).
    + destruct (String.eqb w ""); [now apply IH|]. constructor; [exact Hw|now apply IH].
    + apply IH. apply lower_snoc; [exact Hw|apply lower_char_idem].
Qed.

Lemma map_fixed {A} (f : A -> A) (l : list A) :
  Forall (fun x => f x = x) l -> map f l = l.
Proof. induction 1 as [|x l Hx _ IH]; [reflexivity|]. cbn [map]. congruence. Qed.

(** X14.  [normalize_name] is idempotent, and it ignores white space
    around the name and the case of its letters: a name, the name in lower
    case, the name stripped and, for a name of ASCII characters, the name
    in upper case all normalize to the same text, and that text is empty
    exactly for a blank name. *)
Theorem normalize_name_canonical (name : string) :
  App.normalize_name (App.normalize_name name) = App.normalize_name name
  /\ App.normalize_name (Py.lower name) = App.normalize_name name
  /\ (isascii name = true ->
      App.normalize_name (Py.upper name) = App.normalize_name name)
  /\ App.normalize_name (Py.strip name) = App.normalize_name name
  /\ (App.normalize_name name = "" <-> Py.strip name = "").
Proof.
  split; [|split; [|split; [|split]]].
  - unfold App.normalize_name.
    pose proof (split_go_words (Py.lower name) "" I) as Hw.
    pose proof (split_go_lower_words name "" eq_refl) as Hl.
    fold (Py.split (Py.lower name)) in Hw, Hl.
    rewrite lower_join.
    rewrite (map_fixed _ _ Hl). now rewrite (split_join_words _ Hw).
  - unfold App.normalize_name. now rewrite lower_idem.
  - intros Ha. unfold App.normalize_name. now rewrite (lower_upper _ Ha).
  - unfold App.normalize_name. now rewrite <- strip_lower, split_strip.
  - apply normalize_name_empty.
Qed.

End MoreStrings.

(** ** The name read from the page *)

Section OwnName.

Lemma prefix_refl (s : string) : String.prefix s s = true.
Proof.
  induction s as [|c r IH]; [reflexivity|]. cbn [String.prefix].
  destruct (ascii_dec c c) as [_|Hn]; [exact IH|now destruct Hn].
Qed.

Lemma contains_refl (s : string) : Py.contains s s = true.
Proof. destruct s; cbn [Py.contains]; now rewrite prefix_refl. Qed.

Lemma normalize_name_strip (t : string) :
  App.normalize_name (Py.strip t) = App.normalize_name t.
Proof.
  unfold App.normalize_name. now rewrite <- strip_lower, split_strip.
Qed.

(** X15.  The name the safety check uses is read from the page it is
    checked against: when the first [h1] of the profile has a text that is
    not blank, that text, stripped, replaces the sheet's name whatever the
    sheet says, and the check [verify_profile_loaded] passes as soon as the
    first poll shows a displayed header element with that text first in the
    list. *)
Theorem page_name_replaces_sheet_name (p : App.Page) (row : Row) (t : string)
    (s : App.Snapshot) (rest : list App.Snapshot) (el : elem) (els : list elem) :
  App.h1 p = Ok t ->
  Py.strip t <> "" ->
  App.verify_polls p = s :: rest ->
  App.headers s = Ok (el :: els) ->
  is_displayed el = Ok true ->
  text el = t ->
  App.expected_name_of p row = Py.strip t
  /\ App.verify_profile_loaded p (App.expected_name_of p row) 8 = true.
Proof.
  intros Hh1 Hne Hpolls Hhead Hshown Htext.
  assert (He : App.expected_name_of p row = Py.strip t).
  { unfold App.expected_name_of. rewrite Hh1.
    now rewrite (proj2 (truthy_true _) Hne). }
  split; [exact He|]. rewrite He. unfold App.verify_profile_loaded.
  rewrite (proj2 (truthy_true _) Hne). cbn [negb]. rewrite Hpolls.
  change (Z.to_nat 8) with 8%nat. cbn [take existsb].
  apply orb_true_iff. left. unfold App.poll_verifies.
  apply orb_true_iff. left. unfold App.headers_verify. rewrite Hhead.
  cbn [App.header_matches]. rewrite Hshown, Htext, normalize_name_strip.
  rewrite contains_refl, andb_true_r.
  destruct (Py.truthy (App.normalize_name t)) eqn:Hn; [reflexivity|].
  apply truthy_false in Hn. rewrite <- normalize_name_strip in Hn.
  apply normalize_name_empty in Hn. rewrite strip_idem in Hn. contradiction.
Qed.

End OwnName.

(** ** The page scrapers *)

Section Scraping.

Lemma or_else_empty (h : string) : or_else h "" = h.
Proof.
  unfold or_else. destruct (Py.truthy h) eqn:E; [reflexivity|].
  now apply truthy_false in E.
Qed.

Lemma or_else_nonempty (a b : string) : b <> "" -> or_else a b <> "".
Proof.
  intros Hb. unfold or_else. destruct (Py.truthy a) eqn:E; [|exact Hb].
  now apply truthy_true.
Qed.

Lemma before_lacks (sep : ascii) (s : string) : lacks sep (before sep s).
Proof.
  induction s as [|c r IH]; [exact I|]. cbn [before].
  destruct (Ascii.eqb c sep) eqn:E; [exact I|].
  cbn [lacks]. split; [now apply Ascii.eqb_neq|exact IH].
Qed.

Lemma before_prefix (sep : ascii) (pre s : string) :
  lacks sep pre -> String.prefix pre s = true ->
  String.prefix pre (before sep s) = true.
Proof.
  revert s. induction pre as [|a pre IH]; intros s Hl Hp;
    [now destruct (before sep s)|].
  destruct s as [|c r]; [discriminate|]. cbn [String.prefix] in Hp.
  destruct (ascii_dec a c) as [<-|]; [|discriminate].
  destruct Hl as [Ha Hl]. cbn [before].
  apply Ascii.eqb_neq in Ha. rewrite Ha. cbn [String.prefix].
  destruct (ascii_dec a a) as [_|Hn]; [now apply IH|now destruct Hn].
Qed.

Lemma readable_or_not (l : link) : readable l \/ unreadable l.
Proof.
  unfold readable, unreadable.
  destruct (href l) as [a|]; [|now right; left].
  destruct (link_text l) as [t|]; [|now right; right].
  left. eauto.
Qed.

Lemma readable_not_unreadable (l : link) : readable l -> ~ unreadable l.
Proof. intros [[a Ha] [t Ht]] [H|H]; congruence. Qed.

(** the loop over the links raises exactly when one of the links cannot
    be read *)
Lemma scrape_links_raise keep no_name job_title company notes links :
  scrape_links keep no_name job_title company notes links = Raise <->
  exists l, l ∈ links /\ unreadable l.
Proof.
  induction links as [|l rest IH]; cbn [scrape_links].
  { split; [discriminate|]. intros (l & H & _). now apply elem_of_nil in H. }
  assert (Hrest : (exists l', l' ∈ rest /\ unreadable l') ->
                  exists l', l' ∈ l :: rest /\ unreadable l').
  { intros (l' & Hl' & Hu). exists l'. split; [now apply list_elem_of_further|exact Hu]. }
  assert (Hinv : readable l -> (exists l', l' ∈ l :: rest /\ unreadable l') ->
                 exists l', l' ∈ rest /\ unreadable l').
  { intros Hr (l' & [->|Hl']%elem_of_cons & Hu);
      [now destruct (readable_not_unreadable _ Hr)|eauto]. }
  destruct (href l) as [a|] eqn:Ha.
  2:{ split; [|reflexivity]. intros _. exists l.
      split; [apply list_elem_of_here|]. now left. }
  destruct (link_text l) as [t|] eqn:Ht.
  2:{ split; [|reflexivity]. intros _. exists l.
      split; [apply list_elem_of_here|]. now right. }
  assert (Hr : readable l) by (split; eauto).
  destruct (negb _).
  - rewrite IH. split; [exact Hrest|exact (Hinv Hr)].
  - destruct (scrape_links keep no_name job_title company notes rest) as [recs|].
    + split; [discriminate|]. intros H. apply (Hinv Hr), IH in H. discriminate.
    + split; [|reflexivity]. intros _. apply Hrest, IH. reflexivity.
Qed.

(** what the loop over the links returns *)
Lemma scrape_links_ok keep no_name job_title company notes links recs :
  scrape_links keep no_name job_title company notes links = Ok recs ->
  (forall l, l ∈ links -> readable l)
  /\ (length recs <= length links)%nat
  /\ forall rec, rec ∈ recs <->
       exists l, l ∈ links /\ keep (href_of l) = true
         /\ rec = App.mkCandidate (or_else (Py.strip (text_of l)) no_name)
                    job_title company (before "?" (href_of l)) notes.
Proof.
  revert recs. induction links as [|l rest IH]; intros recs; cbn [scrape_links].
  { intros [= <-]. split; [intros l H; now apply elem_of_nil in H|].
    split; [reflexivity|]. intros rec.
    split; [intros H; now apply elem_of_nil in H|].
    intros (l & H & _). now apply elem_of_nil in H. }
  destruct (href l) as [a|] eqn:Ha; [|discriminate].
  destruct (link_text l) as [t|] eqn:Ht; [|discriminate].
  assert (Hr : readable l) by (split; eauto).
  assert (Hh : match a with Some h => or_else h "" | None => "" end = href_of l).
  { unfold href_of. rewrite Ha. destruct a; [apply or_else_empty|reflexivity]. }
  assert (Ht' : t = text_of l) by (unfold text_of; now rewrite Ht).
  rewrite Hh, Ht'. destruct (keep (href_of l)) eqn:Hk; cbn [negb].
  - destruct (scrape_links keep no_name job_title company notes rest) as [recs'|];
      [|discriminate].
    intros [= <-]. destruct (IH recs' eq_refl) as (Hread & Hlen & Hiff).
    split; [|split].
    + intros l' [->|Hl']%elem_of_cons; auto.
    + cbn [length]. lia.
    + intros rec. rewrite elem_of_cons, Hiff. split.
      * intros [->|(l' & Hl' & Hk' & ->)].
        -- exists l. split; [apply list_elem_of_here|]. now split.
        -- exists l'. split; [now apply list_elem_of_further|]. now split.
      * intros (l' & [->|Hl']%elem_of_cons & Hk' & ->); [now left|].
        right. exists l'. now split.
  - intros He. destruct (IH recs He) as (Hread & Hlen & Hiff).
    split; [|split].
    + intros l' [->|Hl']%elem_of_cons; auto.
    + cbn [length]. lia.
    + intros rec. rewrite Hiff. split.
      * intros (l' & Hl' & Hk' & ->). exists l'.
        split; [now apply list_elem_of_further|]. now split.
      * intros (l' & [->|Hl']%elem_of_cons & Hk' & ->); [congruence|].
        exists l'. now split.
Qed.

(** every scraper either raises, exactly when a lookup or the reading of
    a link failed, or returns the candidates of [scrape_links] for some
    title and company *)
Lemma page_scrapers_cases scr keep no_name (p : JobPage) :
  (scr, keep, no_name) ∈ page_scrapers ->
  (lookup_failed p /\ scr p = Raise)
  \/ (~ lookup_failed p /\ exists links job_title company notes recs,
        jp_links p = Ok links
        /\ scrape_links keep no_name job_title company notes links = Ok recs
        /\ scr p = Ok recs).
Proof.
  intros Hin.
  assert (Hgen : exists job_title company notes,
    scr p = match jp_get p with
            | Raise => Raise
            | Ok _ =>
                match text_or "Data Analyst" (jp_title p), text_or "" (jp_company p) with
                | Some t, Some c =>
                    match jp_links p with
                    | Raise => Raise
                    | Ok links =>
                        scrape_links keep no_name (job_title t) (company c) notes links
                    end
                | _, _ => Raise
                end
            end).
  { unfold page_scrapers in Hin.
    repeat (apply elem_of_cons in Hin as [Hin|Hin]).
    all: try (now apply elem_of_nil in Hin).
    all: injection Hin as -> -> ->.
    - exists (fun t => t), (fun c => c), "Auto-filled from applied job".
      unfold AppScrape.extract_recruiters_from_jobright.
      destruct (jp_get p); [|reflexivity].
      destruct (text_or _ (jp_title p)); [|reflexivity].
      destruct (text_or _ (jp_company p)); [|reflexivity].
      now destruct (jp_links p) as [[|l ls]|].
    - exists (fun t => or_else t "Recruiter"), (fun c => c), "Auto-filled from JobRight".
      unfold AutofillScrape.scrape_jobright_page.
      destruct (jp_get p); [|reflexivity].
      destruct (text_or _ (jp_title p)); [|reflexivity].
      destruct (text_or _ (jp_company p)); [|reflexivity].
      now destruct (jp_links p) as [[|l ls]|].
    - exists (fun t => t), (fun c => c), "Auto-filled from LinkedIn job".
      unfold AutofillScrape.scrape_linkedin_job_page.
      destruct (jp_get p); [|reflexivity].
      destruct (text_or _ (jp_title p)); [|reflexivity].
      destruct (text_or _ (jp_company p)); [|reflexivity].
      now destruct (jp_links p) as [[|l ls]|]. }
  destruct Hgen as (jt & co & notes & ->). unfold lookup_failed.
  destruct (jp_get p) as [[]|]; [|left; auto].
  destruct (jp_title p) as [t| |]; cbn [text_or]; [| |left; tauto].
  all: destruct (jp_company p) as [c| |]; cbn [text_or]; [| |left; tauto].
  all: destruct (jp_links p) as [links|]; [|left; tauto].
  all: match goal with |- context [scrape_links ?k ?n ?a ?b ?c ?ls] =>
         destruct (scrape_links k n a b c ls) as [recs|] eqn:Hs end.
  all: try (left; split; [|reflexivity]; do 4 right;
            apply scrape_links_raise in Hs as (l & Hl & Hu); eauto).
  all: right; split;
    [intros [H|[H|[H|[H|(links' & l & [= <-] & Hl & Hu)]]]]; try discriminate;
     match type of Hs with ?e = Ok _ =>
       assert (Hr : e = Raise) by (apply scrape_links_raise; eauto) end;
     rewrite Hs in Hr; discriminate
    |eauto 10].
Qed.

(** X16.  What the three page scrapers return
    ([extract_recruiters_from_jobright] of the app, [scrape_jobright_page]
    and [scrape_linkedin_job_page] of the autofill script): at most one
    candidate per link found; every candidate is built from a link that
    passes the scraper's test on its href, with a name that is never empty
    (the link's text stripped, or the scraper's default) and the href cut
    before its first question mark; every link that passes the test gives
    a candidate; and all candidates of a page have the same job title and
    company. *)
Theorem scraped_candidates_come_from_links scr keep no_name
    (p : JobPage) (recs : list App.Candidate) :
  (scr, keep, no_name) ∈ page_scrapers ->
  scr p = Ok recs ->
  exists links,
    jp_links p = Ok links
    /\ (length recs <= length links)%nat
    /\ (forall rec, rec ∈ recs ->
          App.cand_recruiter_name rec <> ""
          /\ lacks "?" (App.cand_linkedin_url rec)
          /\ exists l, l ∈ links /\ keep (href_of l) = true /\ from_link no_name l rec)
    /\ (forall l, l ∈ links -> keep (href_of l) = true ->
          exists rec, rec ∈ recs /\ from_link no_name l rec)
    /\ (forall a b, a ∈ recs -> b ∈ recs ->
          App.cand_job_title a = App.cand_job_title b
          /\ App.cand_company a = App.cand_company b).
Proof.
  intros Hin Hok.
  assert (Hname : no_name <> "").
  { unfold page_scrapers in Hin.
    repeat (apply elem_of_cons in Hin as [Hin|Hin]).
    all: try (now apply elem_of_nil in Hin).
    all: injection Hin as _ _ ->; discriminate. }
  destruct (page_scrapers_cases _ _ _ p Hin)
    as [[_ Hr]|(_ & links & jt & co & notes & recs' & Hl & Hs & Hs')]; [congruence|].
  rewrite Hs' in Hok. injection Hok as <-.
  destruct (scrape_links_ok _ _ _ _ _ _ _ Hs) as (Hread & Hlen & Hiff).
  exists links. split; [exact Hl|]. split; [exact Hlen|].
  split; [|split].
  - intros rec (l & Hl' & Hk & ->)%Hiff.
    cbn [App.cand_recruiter_name App.cand_linkedin_url].
    split; [now apply or_else_nonempty|]. split; [apply before_lacks|].
    exists l. split; [exact Hl'|]. split; [exact Hk|].
    split; [now apply Hread|]. now split.
  - intros l Hl' Hk. eexists. split.
    + apply Hiff. exists l. split; [exact Hl'|]. split; [exact Hk|]. reflexivity.
    + split; [now apply Hread|]. now split.
  - intros a b (la & _ & _ & ->)%Hiff (lb & _ & _ & ->)%Hiff. now split.
Qed.

(** X17.  The two scrapers of the autofill script keep only links to
    profiles: the profile link of every candidate starts with
    [https://www.linkedin.com/in/], also after the cut at the question
    mark, so it is never empty. *)
Theorem autofill_links_are_profile_links scr (p : JobPage)
    (recs : list App.Candidate) (rec : App.Candidate) :
  scr = AutofillScrape.scrape_jobright_page
  \/ scr = AutofillScrape.scrape_linkedin_job_page ->
  scr p = Ok recs ->
  rec ∈ recs ->
  String.prefix AutofillScrape.profile_prefix (App.cand_linkedin_url rec) = true
  /\ App.cand_linkedin_url rec <> "".
Proof.
  intros Hscr Hok Hrec.
  assert (Hin : exists no_name,
    (scr, String.prefix AutofillScrape.profile_prefix, no_name) ∈ page_scrapers).
  { destruct Hscr as [-> | ->]; eexists; unfold page_scrapers.
    - apply list_elem_of_further, list_elem_of_here.
    - apply list_elem_of_further, list_elem_of_further, list_elem_of_here. }
  destruct Hin as [no_name Hin].
  destruct (page_scrapers_cases _ _ _ p Hin)
    as [[_ Hr]|(_ & links & jt & co & notes & recs' & Hl & Hs & Hs')]; [congruence|].
  assert (Heq : recs' = recs) by congruence. subst recs'.
  destruct (scrape_links_ok _ _ _ _ _ _ _ Hs) as (_ & _ & Hiff).
  destruct (proj1 (Hiff rec) Hrec) as (l & _ & Hk & Hrec'). rewrite Hrec'.
  cbn [App.cand_linkedin_url].
  assert (Hp : String.prefix AutofillScrape.profile_prefix
                 (before "?" (href_of l)) = true).
  { apply before_prefix; [|exact Hk]. vm_compute. repeat split; discriminate. }
  split; [exact Hp|]. intros He. rewrite He in Hp. discriminate.
Qed.

(** X18.  A page scraper raises exactly when one of these raises: the
    navigation, a lookup of the title or the company that fails otherwise
    than by [NoSuchElementException], the lookup of the links, or the
    reading of the href or of the text of one of the links found, which
    the loop does for every link outside any [try].  A missing title or
    company element never makes it raise: when the navigation and the
    lookups go through and every link found can be read, the scraper
    returns a list. *)
Theorem scrapers_raise_only_on_lookup_failure scr keep no_name (p : JobPage) :
  (scr, keep, no_name) ∈ page_scrapers ->
  (scr p = Raise <-> lookup_failed p)
  /\ (forall links, jp_get p = Ok tt -> jp_title p <> Failed -> jp_company p <> Failed ->
      jp_links p = Ok links -> (forall l, l ∈ links -> readable l) ->
      exists recs, scr p = Ok recs).
Proof.
  intros Hin.
  destruct (page_scrapers_cases _ _ _ p Hin)
    as [[Hf Hr]|(Hnf & links & jt & co & notes & recs & Hl & Hs & Hs')].
  - split; [tauto|]. intros links Hg Ht Hc Hk Hread. exfalso.
    destruct Hf as [H|[H|[H|[H|(links' & l & Hl & Hin' & Hu)]]]]; try congruence.
    rewrite Hk in Hl. injection Hl as <-.
    exact (readable_not_unreadable l (Hread l Hin') Hu).
  - split; [|intros; eexists; exact Hs'].
    split; [intros H; congruence|intros H; contradiction].
Qed.

End Scraping.

(** ** Where the appended rows come from *)

Section Provenance.

Variable extract : nat -> res (list App.Candidate).

Lemma urls_of_stripped (lines : list string) (url : string) :
  url ∈ urls_of lines -> url <> "" /\ Py.strip url = url.
Proof.
  intros [Ht Hin]%list_elem_of_filter. apply truthy_true in Ht.
  apply list_elem_of_fmap in Hin as (line & -> & _).
  split; [exact Ht|apply strip_idem].
Qed.

Lemma run_extract_recruiters_eq (lines : list string) (sheet : Sheet) :
  App.run_extract_recruiters extract lines sheet
  = match urls_of lines with
    | [] => App.mkIngest sheet ∅ ∅ 0
    | _ :: _ =>
        App.ingest_urls extract 0 (urls_of lines)
          (App.mkIngest sheet (App.seen_sets (get_rows sheet) ∅ ∅).1
                        (App.seen_sets (get_rows sheet) ∅ ∅).2 0)
    end.
Proof.
  unfold App.run_extract_recruiters, urls_of.
  destruct (filter _ _); [reflexivity|].
  now destruct (App.seen_sets (get_rows sheet) ∅ ∅).
Qed.

(** the sheet is the one the run started from plus rows that each come
    from a candidate extracted for one of [all], and [total] counts them *)
Let prov (all : list string) (sheet : Sheet) (st : App.Ingest) : Prop :=
  exists added,
    App.ing_sheet st = (sheet ++ added)%list
    /\ App.total st = Z.of_nat (length added)
    /\ forall row, row ∈ added -> ingested_from extract all row.

Lemma ingest_recs_prov all sheet k url recs_all :
  all !! k = Some url -> extract k = Ok recs_all ->
  forall recs st, (forall rec, rec ∈ recs -> rec ∈ recs_all) ->
    prov all sheet st -> prov all sheet (App.ingest_recs url recs st).
Proof.
  intros Hk He. induction recs as [|rec rest IH]; intros st Hsub Hp; [exact Hp|].
  assert (Hrest : forall r, r ∈ rest -> r ∈ recs_all).
  { intros r Hr. apply Hsub. now apply list_elem_of_further. }
  cbn [App.ingest_recs].
  destruct (Py.truthy (Py.strip (App.cand_linkedin_url rec))) eqn:Ht; cbn [negb];
    [|now apply IH].
  case_bool_decide as Hseen; [now apply IH|].
  apply IH; [exact Hrest|]. destruct Hp as (added & Hs & Ht' & Hf).
  exists (added ++ [App.new_row rec url])%list. cbn [App.ing_sheet App.total].
  split; [|split].
  - unfold App.append_recruiter_row. now rewrite Hs, <- app_assoc.
  - rewrite Ht', List.length_app. cbn [length]. lia.
  - intros row [Hr|Hr]%elem_of_app; [now apply Hf|].
    apply list_elem_of_singleton in Hr. subst row.
    exists k, url, recs_all, rec. split; [exact Hk|]. split; [exact He|].
    split; [apply Hsub, list_elem_of_here|]. split; [now apply truthy_true|reflexivity].
Qed.

Lemma ingest_urls_prov all sheet urls :
  forall k st, (forall j url, urls !! j = Some url -> all !! (k + j)%nat = Some url) ->
    prov all sheet st -> prov all sheet (App.ingest_urls extract k urls st).
Proof.
  induction urls as [|url rest IH]; intros k st Hall Hp; [exact Hp|].
  assert (Hrest : forall j u, rest !! j = Some u -> all !! (S k + j)%nat = Some u).
  { intros j u Hj. specialize (Hall (S j) u Hj).
    now replace (S k + j)%nat with (k + S j)%nat by lia. }
  cbn [App.ingest_urls]. case_bool_decide as Hseen; [now apply IH|].
  destruct (extract k) as [recs|] eqn:He; [|now apply IH].
  apply IH; [exact Hrest|].
  apply (ingest_recs_prov all sheet k url recs); auto.
  specialize (Hall 0%nat url eq_refl). now rewrite Nat.add_0_r in Hall.
Qed.

Lemma run_extract_recruiters_prov (lines : list string) (sheet : Sheet) :
  exists added,
    App.ing_sheet (App.run_extract_recruiters extract lines sheet)
    = (sheet ++ added)%list
    /\ App.total (App.run_extract_recruiters extract lines sheet)
       = Z.of_nat (length added)
    /\ forall row, row ∈ added -> ingested_from extract (urls_of lines) row.
Proof.
  change (prov (urls_of lines) sheet
            (App.run_extract_recruiters extract lines sheet)).
  rewrite run_extract_recruiters_eq.
  assert (H0 : forall jobs links,
             prov (urls_of lines) sheet (App.mkIngest sheet jobs links 0)).
  { intros jobs links. exists []. cbn. rewrite app_nil_r.
    split; [reflexivity|]. split; [reflexivity|].
    intros row Hr. now apply elem_of_nil in Hr. }
  destruct (urls_of lines) as [|u us] eqn:Hu; [apply H0|].
  apply ingest_urls_prov; [|apply H0]. intros j url Hj. exact Hj.
Qed.

(** X19.  Every row that [run_extract_recruiters] appends is the row of a
    candidate that the extraction returned for one of the URLs of the
    file, with a profile link that is not blank and that URL, stripped, as
    its job link; the rows of the sheet before are kept as they were, in
    place; [total] is the number of rows appended; and every appended row
    is eligible for the first-message stage. *)
Theorem ingestion_rows_come_from_pages (lines : list string) (sheet : Sheet) :
  exists added,
    App.ing_sheet (App.run_extract_recruiters extract lines sheet)
    = (sheet ++ added)%list
    /\ App.total (App.run_extract_recruiters extract lines sheet)
       = Z.of_nat (length added)
    /\ forall row, row ∈ added ->
         ingested_from extract (urls_of lines) row
         /\ job_url row ∈ urls_of lines
         /\ first_eligible row = true.
Proof.
  destruct (run_extract_recruiters_prov lines sheet) as (added & Hs & Ht & Hf).
  exists added.
  split; [exact Hs|]. split; [exact Ht|]. intros row Hr.
  pose proof (Hf row Hr) as Hfrom. split; [exact Hfrom|].
  destruct Hfrom as (k & url & recs & rec & Hk & _ & _ & _ & ->).
  split; [|reflexivity]. cbn [App.new_row job_url].
  now apply list_elem_of_lookup_2 in Hk.
Qed.

End Provenance.

(** ** The autofill script *)

Section AutofillMain.

Variable sc : Autofill.Scraper.





End AutofillMain.

(** ** Running the ingestion again *)

Section Rerun.

Variable extract : nat -> res (list App.Candidate).

(** the two sets hold nothing but what the rows of the sheet give *)
Let covered (st : App.Ingest) : Prop :=
  (forall x, x ∈ App.existing_job_urls st ->
     x <> "" /\ exists r, r ∈ App.ing_sheet st /\ Py.strip (job_url r) = x)
  /\ (forall x, x ∈ App.existing_linkedin_urls st ->
        x <> "" /\ exists r, r ∈ App.ing_sheet st /\ link_of r = x).

(** the loop over the candidates passes over [rec] *)
Let known (links : gset string) (rec : App.Candidate) : Prop :=
  Py.strip (App.cand_linkedin_url rec) = ""
  \/ Py.strip (App.cand_linkedin_url rec) ∈ links.

(** nothing is left to append for [urls], the first of which is line [k] *)
Let settled (jobs links : gset string) (k : nat) (urls : list string) : Prop :=
  forall j url, urls !! j = Some url ->
    url ∈ jobs \/ extract (k + j)%nat = Raise
    \/ exists recs, extract (k + j)%nat = Ok recs
         /\ forall rec, rec ∈ recs -> known links rec.

Lemma ingest_recs_mono url recs st :
  App.existing_job_urls st ⊆ App.existing_job_urls (App.ingest_recs url recs st)
  /\ App.existing_linkedin_urls st
     ⊆ App.existing_linkedin_urls (App.ingest_recs url recs st).
Proof.
  revert st. induction recs as [|rec rest IH]; intros st; [done|].
  cbn [App.ingest_recs]. destruct (negb _); [apply IH|].
  case_bool_decide; [apply IH|].
  match goal with |- context [App.ingest_recs url rest ?s] =>
    destruct (IH s) as [Hj Hl] end.
  cbn [App.existing_job_urls App.existing_linkedin_urls] in Hj, Hl.
  split; intros x Hx; [apply Hj|apply Hl]; apply elem_of_union; now right.
Qed.

Lemma ingest_urls_mono k urls st :
  App.existing_job_urls st ⊆ App.existing_job_urls (App.ingest_urls extract k urls st)
  /\ App.existing_linkedin_urls st
     ⊆ App.existing_linkedin_urls (App.ingest_urls extract k urls st).
Proof.
  revert k st. induction urls as [|url rest IH]; intros k st; [done|].
  cbn [App.ingest_urls]. case_bool_decide; [apply IH|].
  destruct (extract k) as [recs|]; [|apply IH].
  destruct (ingest_recs_mono url recs st) as [Hj Hl].
  destruct (IH (S k) (App.ingest_recs url recs st)) as [Hj' Hl'].
  split; intros x Hx; [apply Hj', Hj, Hx|apply Hl', Hl, Hx].
Qed.

Lemma ingest_recs_covered url recs st :
  url <> "" -> Py.strip url = url ->
  covered st -> covered (App.ingest_recs url recs st).
Proof.
  intros Hne Hstrip. revert st.
  induction recs as [|rec rest IH]; intros st Hc; [exact Hc|].
  cbn [App.ingest_recs].
  destruct (Py.truthy (Py.strip (App.cand_linkedin_url rec))) eqn:Ht; cbn [negb];
    [|now apply IH].
  case_bool_decide as Hseen; [now apply IH|].
  apply IH. destruct Hc as [Hj Hl]. apply truthy_true in Ht.
  split; cbn [App.ing_sheet App.existing_job_urls App.existing_linkedin_urls];
    unfold App.append_recruiter_row; intros x [Hx|Hx]%elem_of_union.
  - apply elem_of_singleton in Hx. subst x. split; [exact Hne|].
    exists (App.new_row rec url). split; [|exact Hstrip].
    apply elem_of_app. right. apply list_elem_of_here.
  - destruct (Hj x Hx) as (Hx' & r & Hr & He). split; [exact Hx'|].
    exists r. split; [|exact He]. apply elem_of_app. now left.
  - apply elem_of_singleton in Hx. subst x. split; [exact Ht|].
    exists (App.new_row rec url). split; [|reflexivity].
    apply elem_of_app. right. apply list_elem_of_here.
  - destruct (Hl x Hx) as (Hx' & r & Hr & He). split; [exact Hx'|].
    exists r. split; [|exact He]. apply elem_of_app. now left.
Qed.

Lemma ingest_urls_covered k urls st :
  Forall (fun url => url <> "" /\ Py.strip url = url) urls ->
  covered st -> covered (App.ingest_urls extract k urls st).
Proof.
  intros Hurls. revert k st.
  induction Hurls as [|url rest [Hne Hs] _ IH]; intros k st Hc; [exact Hc|].
  cbn [App.ingest_urls]. case_bool_decide; [now apply IH|].
  destruct (extract k) as [recs|]; [|now apply IH].
  now apply IH, ingest_recs_covered.
Qed.

Lemma ingest_recs_known url recs st :
  forall rec, rec ∈ recs ->
    known (App.existing_linkedin_urls (App.ingest_recs url recs st)) rec.
Proof.
  revert st. induction recs as [|rec rest IH]; intros st rec' Hin;
    [now apply elem_of_nil in Hin|].
  apply elem_of_cons in Hin as [->|Hin].
  - cbn [App.ingest_recs].
    destruct (Py.truthy (Py.strip (App.cand_linkedin_url rec))) eqn:Ht; cbn [negb].
    + case_bool_decide as Hseen.
      * right. now apply (ingest_recs_mono url rest st).
      * right. apply (ingest_recs_mono url rest).
        cbn [App.existing_linkedin_urls]. apply elem_of_union. left.
        now apply elem_of_singleton.
    + left. now apply truthy_false.
  - cbn [App.ingest_recs]. destruct (negb _); [now apply IH|].
    case_bool_decide; now apply IH.
Qed.

Lemma ingest_urls_settled k urls st :
  settled (App.existing_job_urls (App.ingest_urls extract k urls st))
          (App.existing_linkedin_urls (App.ingest_urls extract k urls st)) k urls.
Proof.
  revert k st. induction urls as [|url rest IH]; intros k st j u Hj;
    [destruct j; discriminate|].
  cbn [App.ingest_urls]. destruct j as [|j].
  - injection Hj as <-. rewrite Nat.add_0_r.
    case_bool_decide as Hseen.
    + left. now apply (ingest_urls_mono (S k) rest st).
    + destruct (extract k) as [recs|] eqn:He; [|now right; left].
      right. right. exists recs. split; [reflexivity|]. intros rec Hrec.
      destruct (ingest_recs_known url recs st rec Hrec) as [H|H]; [now left|].
      right. now apply (ingest_urls_mono (S k) rest).
  - cbn in Hj. replace (k + S j)%nat with (S k + j)%nat by lia.
    case_bool_decide; [now apply IH|].
    destruct (extract k); now apply IH.
Qed.

Lemma ingest_recs_noop url recs st :
  (forall rec, rec ∈ recs -> known (App.existing_linkedin_urls st) rec) ->
  App.ingest_recs url recs st = st.
Proof.
  induction recs as [|rec rest IH]; intros Hk; [reflexivity|].
  assert (Hrest : App.ingest_recs url rest st = st).
  { apply IH. intros r Hr. apply Hk. now apply list_elem_of_further. }
  cbn [App.ingest_recs].
  destruct (Py.truthy (Py.strip (App.cand_linkedin_url rec))) eqn:Ht; cbn [negb];
    [|exact Hrest].
  case_bool_decide as Hseen; [exact Hrest|]. exfalso.
  destruct (Hk rec (list_elem_of_here _ _)) as [H|H]; [|contradiction].
  apply truthy_true in Ht. contradiction.
Qed.

Lemma ingest_urls_noop k urls st :
  settled (App.existing_job_urls st) (App.existing_linkedin_urls st) k urls ->
  App.ingest_urls extract k urls st = st.
Proof.
  revert k. induction urls as [|url rest IH]; intros k Hs; [reflexivity|].
  assert (Hrest : App.ingest_urls extract (S k) rest st = st).
  { apply IH. intros j u Hj. specialize (Hs (S j) u Hj).
    now replace (k + S j)%nat with (S k + j)%nat in Hs by lia. }
  cbn [App.ingest_urls]. case_bool_decide as Hseen; [exact Hrest|].
  specialize (Hs 0%nat url eq_refl). rewrite Nat.add_0_r in Hs.
  destruct Hs as [H|[H|(recs & He & Hk)]]; [contradiction| |].
  - now rewrite H.
  - rewrite He, (ingest_recs_noop url recs st Hk). exact Hrest.
Qed.

(** X21.  Running [run_extract_recruiters] a second time, on the sheet the
    first run left and with the same file and the same pages, appends
    nothing: the sheet stays as it is and [total] is 0. *)
Theorem ingestion_rerun_adds_nothing (lines : list string) (sheet : Sheet) :
  let after := App.ing_sheet (App.run_extract_recruiters extract lines sheet) in
  App.ing_sheet (App.run_extract_recruiters extract lines after) = after
  /\ App.total (App.run_extract_recruiters extract lines after) = 0.
Proof.
  cbn zeta. rewrite !(run_extract_recruiters_eq extract).
  assert (Hurls : Forall (fun url => url <> "" /\ Py.strip url = url) (urls_of lines)).
  { apply Forall_forall. intros url Hu. now apply urls_of_stripped in Hu. }
  destruct (urls_of lines) as [|u us] eqn:Hu; [now split|].
  set (st0 := App.mkIngest sheet _ _ 0).
  set (st := App.ingest_urls extract 0 (u :: us) st0).
  assert (Hc : covered st).
  { apply ingest_urls_covered; [exact Hurls|]. subst st0.
    pose proof (seen_sets_spec (get_rows sheet) ∅ ∅) as Hsets.
    destruct (App.seen_sets (get_rows sheet) ∅ ∅) as [J L].
    destruct Hsets as [HJ HL]. cbn [fst snd].
    split; cbn [App.ing_sheet App.existing_job_urls App.existing_linkedin_urls];
      intros x Hx.
    - apply HJ in Hx as [Hx|Hx]; [now apply elem_of_empty in Hx|exact Hx].
    - apply HL in Hx as [Hx|Hx]; [now apply elem_of_empty in Hx|exact Hx]. }
  pose proof (ingest_urls_settled 0 (u :: us) st0) as Hs. fold st in Hs.
  pose proof (seen_sets_spec (get_rows (App.ing_sheet st)) ∅ ∅) as Hsets.
  destruct (App.seen_sets (get_rows (App.ing_sheet st)) ∅ ∅) as [J L].
  destruct Hsets as [HJ HL]. cbn [fst snd].
  rewrite ingest_urls_noop; [now split|].
  cbn [App.existing_job_urls App.existing_linkedin_urls].
  destruct Hc as [Hcj Hcl]. intros j url Hj.
  destruct (Hs j url Hj) as [H|[H|(recs & He & Hk)]].
  - left. apply HJ. right. now apply Hcj.
  - right. now left.
  - right. right. exists recs. split; [exact He|]. intros rec Hrec.
    destruct (Hk rec Hrec) as [H|H]; [now left|].
    right. apply HL. right. now apply Hcl.
Qed.

End Rerun.

(** ** From the job pages to the first-message stage *)

Section Pipeline.

Lemma extract_recruiters_elem (p : JobPage) (recs : list App.Candidate)
    (rec : App.Candidate) :
  AppScrape.extract_recruiters_from_jobright p = Ok recs -> rec ∈ recs ->
  exists l,
    App.cand_recruiter_name rec = or_else (Py.strip (text_of l)) "Hiring Team"
    /\ App.cand_linkedin_url rec = before "?" (href_of l)
    /\ App.cand_notes rec = "Auto-filled from applied job".
Proof.
  unfold AppScrape.extract_recruiters_from_jobright. intros He Hrec.
  destruct (jp_get p) as [[]|]; [|discriminate].
  destruct (text_or "Data Analyst" (jp_title p)); [|discriminate].
  destruct (text_or "" (jp_company p)); [|discriminate].
  destruct (jp_links p) as [[|l ls]|]; [| |discriminate].
  - injection He as <-. now apply elem_of_nil in Hrec.
  - destruct (scrape_links_ok _ _ _ _ _ _ _ He) as (_ & _ & Hiff).
    apply Hiff in Hrec as (l' & _ & _ & ->).
    exists l'. now repeat split.
Qed.

(** X22.  The ingestion of the app on the pages of its own scraper
    ([run_extract_recruiters] calling [extract_recruiters_from_jobright]):
    every appended row has a recruiter name that is not empty, a profile
    link that is not empty and has no question mark, the note of the
    scraper, and starts pending with no stage flagged, so the
    first-message stage takes it up and does not give it up for a missing
    link. *)
Theorem ingested_rows_ready_for_first_stage (pages : nat -> JobPage)
    (lines : list string) (sheet : Sheet) :
  exists added,
    App.ing_sheet
      (App.run_extract_recruiters
         (fun k => AppScrape.extract_recruiters_from_jobright (pages k)) lines sheet)
    = (sheet ++ added)%list
    /\ forall row, row ∈ added ->
         recruiter_name row <> ""
         /\ Py.truthy (linkedin_url row) = true
         /\ lacks "?" (linkedin_url row)
         /\ notes row = "Auto-filled from applied job"
         /\ first_eligible row = true
         /\ Py.upper (message2_sent row) <> "TRUE".
Proof.
  destruct (run_extract_recruiters_prov
              (fun k => AppScrape.extract_recruiters_from_jobright (pages k))
              lines sheet) as (added & Hs & _ & Hf).
  exists added. split; [exact Hs|]. intros row Hr.
  destruct (Hf row Hr) as (k & url & recs & rec & _ & He & Hrec & Hne & ->).
  destruct (extract_recruiters_elem _ _ _ He Hrec) as (l & Hn & Hu & Hnotes).
  cbn [App.new_row recruiter_name linkedin_url notes message2_sent].
  split; [rewrite Hn; now apply or_else_nonempty|].
  split; [apply truthy_true; intros H0; now rewrite H0 in Hne|].
  split; [rewrite Hu; apply before_lacks|].
  split; [exact Hnotes|]. split; [reflexivity|discriminate].
Qed.

End Pipeline.

(** ** Instances of the further properties *)

Section Further_Instances.

Import Examples.

(** X3, an instance: a sheet with a pending row and a row whose first
    message went out *)
Lemma runs_keep_stage_order_witness :
  let sheet := [alice; contacted "Carol Diaz" "https://www.linkedin.com/in/carol"
                         "2024-03-03"] in
  Forall stage_ordered sheet
  /\ Forall stage_ordered
       (final (App.run_followups 10 Datetime.fromisoformat today
                 (fun _ => note_page "Carol Diaz") 3 sheet)).
Proof.
  cbn zeta.
  assert (H : Forall stage_ordered
                [alice; contacted "Carol Diaz" "https://www.linkedin.com/in/carol"
                          "2024-03-03"]).
  { repeat constructor; unfold stage_ordered; vm_compute; intros E; now inversion E. }
  split; [exact H|].
  apply (runs_keep_stage_order 20 10 Datetime.fromisoformat today
           (fun _ => note_page "Carol Diaz") (fun _ => bot_page) 3 _ H).
Defined.

(** X6, an instance: Alice Smith got her first note; the next run of the
    stage, the same day, does not attempt her row *)
Lemma stage_not_repeated_witness :
  (0%nat ∉ attempted_rows
       (App.run_first_messages 20 today (fun _ => note_page "Alice Smith")
          (final (App.run_first_messages 20 today
                    (fun _ => note_page "Alice Smith") [alice])))).
Proof.
  destruct (stage_not_repeated 20 10 20 10 Datetime.fromisoformat
              Datetime.fromisoformat today today (fun _ => note_page "Alice Smith")
              (fun _ => note_page "Alice Smith") (fun _ => bot_page)
              (fun _ => bot_page) 3 3 [alice] 0%nat
              (fst (App.send_connection_message (note_page "Alice Smith") alice true))
              PyTrue) as [H _].
  - discriminate.
  - apply H. vm_compute. constructor.
Defined.

(** X7, an instance: Alice Smith got her first note on 10 March; the
    follow-up run of 12 March, with a wait of 3 days, does not attempt
    her row *)
Lemma no_followup_before_wait_witness :
  (0%nat ∉ attempted_rows
       (App.run_followups 10 Datetime.fromisoformat two_days_later
          (fun _ => note_page "Alice Smith") 3
          (final (App.run_first_messages 20 today
                    (fun _ => note_page "Alice Smith") [alice])))).
Proof.
  destruct (no_followup_before_wait 20 10 Datetime.fromisoformat today
              two_days_later today (fun _ => note_page "Alice Smith")
              (fun _ => note_page "Alice Smith") (fun _ => bot_page)
              (fun _ => bot_page) 3 [alice] 0%nat
              (fst (App.send_connection_message (note_page "Alice Smith") alice true)))
    as [H _].
  - vm_compute. reflexivity.
  - vm_compute. reflexivity.
  - apply H. vm_compute. constructor.
Defined.

(** X9, an instance: on her profile Alice Smith is sent the note, and the
    click on Send is the last action *)
Lemma sent_exactly_when_send_clicked_witness :
  ClickSend ∈ fst (App.send_connection_message (note_page "Alice Smith") alice true).
Proof.
  apply (sent_exactly_when_send_clicked (note_page "Alice Smith") alice true
           (fst (App.send_connection_message (note_page "Alice Smith") alice true))
           (snd (App.send_connection_message (note_page "Alice Smith") alice true))).
  - vm_compute. reflexivity.
  - vm_compute. reflexivity.
Defined.

(** X10, an instance: the text typed for Alice Smith is the short first
    note, which has at most 300 characters *)
Lemma typed_text_by_channel_witness :
  let msg := shorten_for_note
               (App.FIRST_MESSAGE_SHORT "Alice Smith" "Data Analyst" "Acme") 300 in
  let acts := fst (App.send_connection_message (note_page "Alice Smith") alice true) in
  TypeText msg ∈ acts /\ (ClickMessage ∉ acts) /\ Py.len msg <= 300.
Proof.
  cbn zeta.
  assert (Hin : TypeText (shorten_for_note
                  (App.FIRST_MESSAGE_SHORT "Alice Smith" "Data Analyst" "Acme") 300)
                ∈ fst (App.send_connection_message (note_page "Alice Smith") alice true)).
  { apply (list_elem_of_lookup_2 _ 3%nat). vm_compute. reflexivity. }
  split; [exact Hin|].
  destruct (typed_text_by_channel (note_page "Alice Smith") alice true
              (fst (App.send_connection_message (note_page "Alice Smith") alice true))
              (snd (App.send_connection_message (note_page "Alice Smith") alice true))
              _ eq_refl Hin) as [(Hm & _)|(Hno & _ & _ & Hlen)].
  - exfalso. apply list_elem_of_In in Hm. vm_compute in Hm.
    repeat (destruct Hm as [Hm|Hm]; [discriminate Hm|]). exact Hm.
  - split; [exact Hno|exact Hlen].
Defined.

(** X11, an instance: the connect flow of the stand-alone bot goes
    through for Alice Smith and ends with the click on Send *)
Lemma bot_attempt_swallows_failures_witness :
  ClickSend ∈ fst (Bot.send_connection_message bot_page alice true).
Proof.
  apply (bot_attempt_swallows_failures bot_page alice true
           (fst (Bot.send_connection_message bot_page alice true))
           (snd (Bot.send_connection_message bot_page alice true))).
  - vm_compute. reflexivity.
  - vm_compute. reflexivity.
Defined.


(** X13, an instance: a text of 11 characters under a ceiling of 8 *)
Lemma shorten_for_note_ceiling_witness :
  Py.len (shorten_for_note "hello world" 8) <= 8.
Proof.
  apply (shorten_for_note_ceiling "hello world" 8). lia.
Defined.

(** X14, an instance: a name in upper case with white space around it *)
Lemma normalize_name_canonical_witness :
  App.normalize_name (Py.upper "  Alice   Smith ") = "alice smith".
Proof.
  destruct (normalize_name_canonical "  Alice   Smith ") as (_ & _ & H & _).
  rewrite H; reflexivity.
Defined.

(** X15, an instance: the sheet says Alice Smith, the page says Bob Jones;
    Bob Jones is the name that is checked, and the check passes *)
Lemma page_name_replaces_sheet_name_witness :
  App.expected_name_of (note_page "Bob Jones") alice = "Bob Jones"
  /\ App.verify_profile_loaded (note_page "Bob Jones")
       (App.expected_name_of (note_page "Bob Jones") alice) 8 = true.
Proof.
  apply (page_name_replaces_sheet_name (note_page "Bob Jones") alice "Bob Jones"
           (App.mkSnapshot (Ok [shown "Bob Jones"]) (Ok "Bob Jones")) []
           (shown "Bob Jones") []).
  - reflexivity.
  - vm_compute. discriminate.
  - reflexivity.
  - reflexivity.
  - reflexivity.
  - reflexivity.
Defined.

(** X16, an instance: of the three links of the example page, the JobRight
    scraper of the autofill script keeps the link to the profile *)
Lemma scraped_candidates_come_from_links_witness :
  exists links,
    jp_links job_page_example = Ok links
    /\ (1 <= length links)%nat.
Proof.
  destruct (scraped_candidates_come_from_links
              AutofillScrape.scrape_jobright_page
              (String.prefix AutofillScrape.profile_prefix) "Recruiter"
              job_page_example
              [App.mkCandidate "Bob Jones" "Data Analyst" ""
                 "https://www.linkedin.com/in/bob" "Auto-filled from JobRight"])
    as (links & Hl & Hlen & _).
  - unfold page_scrapers. apply list_elem_of_further, list_elem_of_here.
  - vm_compute. reflexivity.
  - exists links. split; [exact Hl|exact Hlen].
Defined.

(** X17, an instance: the profile link scraped from the example page *)
Lemma autofill_links_are_profile_links_witness :
  String.prefix AutofillScrape.profile_prefix "https://www.linkedin.com/in/bob" = true
  /\ "https://www.linkedin.com/in/bob" <> "".
Proof.
  apply (autofill_links_are_profile_links AutofillScrape.scrape_linkedin_job_page
           job_page_example
           [App.mkCandidate "Bob Jones" "Data Analyst" ""
              "https://www.linkedin.com/in/bob" "Auto-filled from LinkedIn job"]
           (App.mkCandidate "Bob Jones" "Data Analyst" ""
              "https://www.linkedin.com/in/bob" "Auto-filled from LinkedIn job")).
  - right. reflexivity.
  - vm_compute. reflexivity.
  - apply list_elem_of_here.
Defined.

(** X18, an instance: the example page has no company element, and the
    scraper of the app returns its candidates; on the page whose second
    link goes stale it raises *)
Lemma scrapers_raise_only_on_lookup_failure_witness :
  (exists recs, AppScrape.extract_recruiters_from_jobright job_page_example = Ok recs)
  /\ AppScrape.extract_recruiters_from_jobright stale_job_page = Raise.
Proof.
  assert (Hin : (AppScrape.extract_recruiters_from_jobright,
                 (fun href => Py.contains "/in/" href), "Hiring Team")
                ∈ page_scrapers) by (unfold page_scrapers; apply list_elem_of_here).
  split.
  - eapply (proj2 (scrapers_raise_only_on_lookup_failure _ _ _ job_page_example Hin));
      [reflexivity|discriminate|discriminate|reflexivity|].
    intros l Hl. apply list_elem_of_In in Hl. cbn in Hl.
    destruct Hl as [<-|[<-|[<-|[]]]]; split; eexists; reflexivity.
  - apply (proj1 (scrapers_raise_only_on_lookup_failure _ _ _ stale_job_page Hin)).
    do 4 right. eexists _, (mkLink (Ok (Some "https://www.linkedin.com/in/eve")) Raise).
    split; [reflexivity|]. split; [|now right].
    apply list_elem_of_further, list_elem_of_here.
Defined.

End Further_Instances.
